(** * OpenRGB-To-HUE: the E1.31 to Hue Entertainment bridge

    A shallow embedding of [OpenRGB-To-HUE.py]: the pairing handshake
    ([create_entertainment_user], [ensure_app_key]), the bridge query
    ([get_bridge_info]), the area selection of
    [HueEntertainmentBridge.__init__], the per-packet handler
    ([_on_dmx_data]), [stop_streaming] and the listing branch of [main].

    Python values that come out of [json] are modelled by the type [json];
    an exception is a value of [pyexn]; code that may raise lives in the
    monad [M S] (state [S] survives a raise, as mutations do in Python).
    Strings are ASCII texts: [lower] is [str.lower] on that range. *)

From Stdlib Require Import ZArith List Lia Bool Floats Uint63.
From Stdlib Require Import Strings.String Strings.Ascii Strings.Byte.
From stdpp Require Import gmap strings.
Import ListNotations.

Local Open Scope Z_scope.
Local Open Scope string_scope.
Local Open Scope list_scope.

(* ===================================================================== *)
(** ** Python values and exceptions                                       *)
(* ===================================================================== *)

(** What [json.load] and [resp.json()] return. A dict keeps its items in
    insertion order; [dict_lookup] reads the first binding of a key. *)
#[warnings="-register-all"]
Inductive json : Type :=
| JNull
| JBool (b : bool)
| JInt (z : Z)
| JFloat (f : float)
| JStr (s : string)
| JList (l : list json)
| JDict (d : list (string * json)).

(** Exception classes derived from [Exception], the ones an
    [except Exception] clause catches. [KeyboardInterrupt] and [SystemExit]
    are signals to the process, not outcomes of a call, and are not
    modelled. *)
Inductive pyexn : Type :=
| TypeError
| AttributeError
| KeyError
| IndexError
| ValueError (msg : string)
| RuntimeError (msg : string)
| RequestException (msg : string)
| LibraryError (msg : string).

Inductive result (A : Type) : Type :=
| Return (a : A)
| Raise (e : pyexn).
Arguments Return {A} a.
Arguments Raise {A} e.

Definition is_request_exception (e : pyexn) : bool :=
  match e with RequestException _ => true | _ => false end.

(** [str(e)] *)
Definition exn_str (e : pyexn) : string :=
  match e with
  | TypeError => "TypeError"
  | AttributeError => "AttributeError"
  | KeyError => "KeyError"
  | IndexError => "IndexError"
  | ValueError m | RuntimeError m | RequestException m | LibraryError m => m
  end.

(** *** The pure fragment: expressions that may raise *)

Definition rbind {A B} (r : result A) (k : A -> result B) : result B :=
  match r with
  | Return a => k a
  | Raise e => Raise e
  end.

Declare Scope py_scope.
Delimit Scope py_scope with py.
Notation "x <- c ;; k" := (rbind c (fun x => k))
  (at level 20, c at level 60, k at level 200, only parsing) : py_scope.

(** *** Statements: state passing with exceptions *)

Definition M (S A : Type) : Type := S -> result A * S.

Definition ret {S A} (a : A) : M S A := fun s => (Return a, s).
Definition raise {S A} (e : pyexn) : M S A := fun s => (Raise e, s).
Definition bind {S A B} (m : M S A) (k : A -> M S B) : M S B :=
  fun s =>
    match m s with
    | (Return a, s') => k a s'
    | (Raise e, s') => (Raise e, s')
    end.
Definition lift {S A} (r : result A) : M S A := fun s => (r, s).
Definition modify {S} (f : S -> S) : M S unit := fun s => (Return tt, f s).
Definition gets {S A} (f : S -> A) : M S A := fun s => (Return (f s), s).

(** [try: body / except C as e: handler e], where [catches] tells which
    exceptions the clause [C] matches. *)
Definition try_except {S A} (catches : pyexn -> bool)
    (body : M S A) (handler : pyexn -> M S A) : M S A :=
  fun s =>
    match body s with
    | (Raise e, s') => if catches e then handler e s' else (Raise e, s')
    | done => done
    end.

(** [except Exception] *)
Definition any_Exception (e : pyexn) : bool := true.

Declare Scope stmt_scope.
Delimit Scope stmt_scope with stmt.
Notation "x <~ c ;; k" := (bind c (fun x => k))
  (at level 20, c at level 60, k at level 200, only parsing) : stmt_scope.
Notation "c ;;; k" := (bind c (fun _ => k))
  (at level 60, k at level 200, right associativity, only parsing) : stmt_scope.

(** [for x in xs: body x] *)
Fixpoint for_each {S A} (xs : list A) (body : A -> M S unit) : M S unit :=
  match xs with
  | [] => ret tt
  | x :: rest => bind (body x) (fun _ => for_each rest body)
  end.

(** *** Strings *)

Definition lower_ascii (c : ascii) : ascii :=
  let n := nat_of_ascii c in
  if ((65 <=? n) && (n <=? 90))%nat then ascii_of_nat (n + 32) else c.

(** [s.lower()] *)
Fixpoint lower (s : string) : string :=
  match s with
  | EmptyString => EmptyString
  | String c rest => String (lower_ascii c) (lower rest)
  end.

(** [needle in hay] on two strings *)
Fixpoint str_contains (needle hay : string) : bool :=
  if String.prefix needle hay then true
  else match hay with
       | EmptyString => false
       | String _ rest => str_contains needle rest
       end.

Definition str_nonempty (s : string) : bool :=
  match s with EmptyString => false | _ => true end.

(** *** Operations on values *)

Fixpoint dict_lookup (k : string) (d : list (string * json)) : option json :=
  match d with
  | [] => None
  | (k', v) :: rest => if String.eqb k k' then Some v else dict_lookup k rest
  end.

(** [bool(v)] *)
Definition py_truthy (v : json) : bool :=
  match v with
  | JNull => false
  | JBool b => b
  | JInt z => negb (Z.eqb z 0)
  | JFloat f => negb (PrimFloat.eqb f 0%float)
  | JStr s => str_nonempty s
  | JList l => match l with [] => false | _ => true end
  | JDict d => match d with [] => false | _ => true end
  end.

(** [a or b] *)
Definition py_or (a b : json) : json := if py_truthy a then a else b.

(** [v.get(k, default)]: only a dict has [get] *)
Definition py_get (v : json) (k : string) (default : json) : result json :=
  match v with
  | JDict d => Return (match dict_lookup k d with Some x => x | None => default end)
  | _ => Raise AttributeError
  end.

(** [v[k]] with a string key *)
Definition py_getitem_str (v : json) (k : string) : result json :=
  match v with
  | JDict d => match dict_lookup k d with Some x => Return x | None => Raise KeyError end
  | _ => Raise TypeError
  end.

(** [v[0]] *)
Definition py_getitem_0 (v : json) : result json :=
  match v with
  | JList l => match l with x :: _ => Return x | [] => Raise IndexError end
  | JStr s => match s with
              | String c _ => Return (JStr (String c EmptyString))
              | EmptyString => Raise IndexError
              end
  | JDict _ => Raise KeyError
  | _ => Raise TypeError
  end.

(** [len(v)] *)
Definition py_len (v : json) : result Z :=
  match v with
  | JStr s => Return (Z.of_nat (String.length s))
  | JList l => Return (Z.of_nat (List.length l))
  | JDict d => Return (Z.of_nat (List.length d))
  | _ => Raise TypeError
  end.

Definition json_is_str (k : string) (v : json) : bool :=
  match v with JStr s => String.eqb k s | _ => false end.

(** [k in v] for a string [k] *)
Definition py_contains (k : string) (v : json) : result bool :=
  match v with
  | JDict d => Return (match dict_lookup k d with Some _ => true | None => false end)
  | JList l => Return (existsb (json_is_str k) l)
  | JStr s => Return (str_contains k s)
  | _ => Raise TypeError
  end.

(** [v.lower()]: only a string has [lower] *)
Definition py_lower (v : json) : result string :=
  match v with
  | JStr s => Return (lower s)
  | _ => Raise AttributeError
  end.

(** [isinstance(v, list)] *)
Definition is_list (v : json) : bool :=
  match v with JList _ => true | _ => false end.

(* ===================================================================== *)
(** ** Logging                                                            *)
(* ===================================================================== *)

Inductive LogLevel := DEBUG | INFO | WARNING | ERROR.

(** One constructor per message template of the source, with the values
    its f-string interpolates. *)
Inductive LogMsg : Type :=
| MsgRule
| MsgFirstPacket
| MsgUniverse (u : Z)
| MsgDmxLength (n : nat)
| MsgFirst20 (bs : list byte)
| MsgReceivedPackets (n : Z)
| MsgPacket (n : Z) (len : nat)
| MsgLight (number : nat) (r g b : byte)
| MsgErrorProcessing (e : pyexn)
| MsgStopping
| MsgStopped
| MsgErrorStopping (e : pyexn)
| MsgNoBridgeInfo (e : pyexn)
| MsgFoundConfigs (n : nat)
| MsgSelectedArea (name : string)
| MsgFailedConfigs (e : pyexn)
| MsgFailedConfigsHint
| MsgFailedStart (e : pyexn)
| MsgUsingExisting
| MsgInitializing
| MsgServiceReady
| MsgFailedService (e : pyexn)
| MsgStartingBridge (area : string).

Definition LogRecord : Type := LogLevel * LogMsg.

(* ===================================================================== *)
(** ** The process: clock, output and log                                 *)
(* ===================================================================== *)

(** What the process prints on standard output, one constructor per block
    of [print] calls. *)
Inductive Out : Type :=
| OutPairingBanner
| OutWaiting (dots : Z)
| OutSuccess (username clientkey : json)
| OutError (error_desc : json)
| OutTimeout
| OutLastError (last_err : json)
| OutRetryHint
| OutForceRepair
| OutMissingClientkey
| OutNoCredentials
| OutAreasHeader
| OutNoAreas
| OutArea (number : nat) (area_name area_id : string) (lights : nat)
| OutAreasFooter
| OutUseAreaHint.

(** The process as the script changes it: [clock] is [time.time()] in
    milliseconds, [posts] counts the pairing requests sent so far,
    [logged] holds the records handed to the module's logger. *)
Record World := mkWorld {
  clock : Z;
  posts : nat;
  stdout : list Out;
  logged : list LogRecord
}.

Definition seconds (n : Z) : Z := n * 1000.

Definition print (o : Out) : M World unit :=
  modify (fun w => {| clock := clock w; posts := posts w;
                      stdout := stdout w ++ [o]; logged := logged w |}).

Definition log_world (lvl : LogLevel) (m : LogMsg) : M World unit :=
  modify (fun w => {| clock := clock w; posts := posts w;
                      stdout := stdout w; logged := logged w ++ [(lvl, m)] |}).

Definition elapse (ms : Z) (w : World) : World :=
  {| clock := clock w + ms; posts := posts w; stdout := stdout w; logged := logged w |}.

(* ===================================================================== *)
(** ** [get_bridge_info]                                                  *)
(* ===================================================================== *)

Record BridgeInfo := mkBridgeInfo {
  bi_id : json;
  bi_rid : json;
  bi_name : json;
  bi_swversion : Z;
  bi_hue_app_id : json
}.

(** The body of the [try] once [hue_get] has returned [data]: [Some] is
    the [return] inside the [if], [None] falls through to the fallback. *)
Definition bridge_info_of (data : json) : result (option BridgeInfo) :=
  (d <- py_get data "data" JNull ;;
   if py_truthy d then
     dd <- py_getitem_str data "data" ;;
     n <- py_len dd ;;
     if Z.ltb 0 n then
       dd0 <- py_getitem_str data "data" ;;
       bridge_data <- py_getitem_0 dd0 ;;
       id1 <- py_get bridge_data "id" JNull ;;
       owner <- py_get bridge_data "owner" (JDict []) ;;
       rid <- py_get owner "rid" JNull ;;
       rid' <- (if py_truthy rid then Return rid else py_get bridge_data "id" JNull) ;;
       metadata <- py_get bridge_data "metadata" JNull ;;
       name <- py_get (py_or metadata (JDict [])) "name" (JStr "Hue Bridge") ;;
       id2 <- py_get bridge_data "id" JNull ;;
       Return (Some {| bi_id := id1; bi_rid := rid'; bi_name := name;
                       bi_swversion := 1962097030; bi_hue_app_id := id2 |})
     else Return None
   else Return None)%py.

Definition fallback_bridge_info : BridgeInfo :=
  {| bi_id := JStr "default-bridge-id";
     bi_rid := JStr "default-bridge-rid";
     bi_name := JStr "Hue Bridge";
     bi_swversion := 1962097030;
     bi_hue_app_id := JStr "default-app-id" |}.

(** [hue_get] is the HTTP query; what it returns or raises for a bridge
    address, key and path is the network's to decide. *)
Definition get_bridge_info (hue_get : string -> string -> string -> result json)
    (bridge_ip app_key : string) : M World BridgeInfo :=
  (found <~ try_except any_Exception
              (data <~ lift (hue_get bridge_ip app_key "/clip/v2/resource/bridge") ;;
               lift (bridge_info_of data))
              (fun e => log_world WARNING (MsgNoBridgeInfo e) ;;; ret None) ;;
   match found with
   | Some info => ret info
   | None => ret fallback_bridge_info
   end)%stmt.

(* ===================================================================== *)
(** ** The pairing handshake                                              *)
(* ===================================================================== *)

(** One [requests.post] of the pairing loop as the network settles it:
    the time the call takes, what [resp.raise_for_status(); resp.json()]
    yields (a value or the exception raised), and by how much the
    [time.sleep(2)] that follows oversleeps. Times are in milliseconds. *)
Record Attempt := mkAttempt {
  latency : N;
  reply : result json;
  oversleep : N
}.

(** The bridge side of the handshake: the attempt that answers the [k]-th
    POST to a URL, and the text of [datetime.utcnow().isoformat()] at a
    clock value. *)
Record Env := mkEnv {
  answer : string -> nat -> Attempt;
  utcnow_isoformat : Z -> string
}.

(** [requests.post(url, ...); resp.raise_for_status(); resp.json()] *)
Definition post (env : Env) (url : string) : M World json :=
  fun w =>
    let a := answer env url (posts w) in
    (reply a, {| clock := clock w + Z.of_N (latency a); posts := S (posts w);
                 stdout := stdout w; logged := logged w |}).

(** The local variables of [create_entertainment_user] next to the world. *)
Record Locals := mkLocals {
  world : World;
  last_err : json;
  dots : Z
}.

Definition in_world {A} (m : M World A) : M Locals A :=
  fun st =>
    let (r, w') := m (world st) in
    (r, {| world := w'; last_err := last_err st; dots := dots st |}).

Definition set_last_err (v : json) : M Locals unit :=
  modify (fun st => {| world := world st; last_err := v; dots := dots st |}).

Definition set_dots (d : Z) : M Locals unit :=
  modify (fun st => {| world := world st; last_err := last_err st; dots := d |}).

(** The [if "success" in item:] block; [Some] is its [return]. *)
Definition on_success (item : json) : M Locals (option (json * json)) :=
  (has_success <~ lift (py_contains "success" item) ;;
   if has_success : bool then
     success <~ lift (py_getitem_str item "success") ;;
     username <~ lift (py_get success "username" JNull) ;;
     clientkey <~ lift (py_get success "clientkey" JNull) ;;
     if py_truthy username && py_truthy clientkey then
       in_world (print (OutSuccess username clientkey)) ;;;
       ret (Some (username, clientkey))
     else ret None
   else ret None)%stmt.

(** The [if "error" in item:] block. *)
Definition on_error (item : json) : M Locals unit :=
  (has_error <~ lift (py_contains "error" item) ;;
   if has_error : bool then
     err <~ lift (py_getitem_str item "error") ;;
     error_desc <~ lift (py_get err "description" (JStr "")) ;;
     set_last_err error_desc ;;;
     low <~ lift (py_lower error_desc) ;;
     if negb (str_contains "link button not pressed" low) then
       in_world (print (OutError error_desc))
     else ret tt
   else ret tt)%stmt.

(** The body of the [try] of one iteration. *)
Definition try_body (env : Env) (url : string) : M Locals (option (json * json)) :=
  (data <~ in_world (post env url) ;;
   if is_list data then
     n <~ lift (py_len data) ;;
     if Z.ltb 0 n then
       item <~ lift (py_getitem_0 data) ;;
       creds <~ on_success item ;;
       match creds with
       | Some c => ret (Some c)
       | None => on_error item ;;; ret None
       end
     else ret None
   else ret None)%stmt.

(** [time.sleep(2)] after the POST numbered [posts - 1]. *)
Definition sleep (env : Env) (url : string) (secs : Z) : M Locals unit :=
  in_world (fun w =>
    (Return tt, elapse (seconds secs + Z.of_N (oversleep (answer env url (pred (posts w))))) w)).

(** One turn of the [while]: the [try]/[except RequestException], then
    the animation and the sleep. [Some] is a [return] from inside. *)
Definition iteration (env : Env) (url : string) : M Locals (option (json * json)) :=
  (creds <~ try_except is_request_exception (try_body env url)
              (fun e => set_last_err (JStr (exn_str e)) ;;; ret None) ;;
   match creds with
   | Some c => ret (Some c)
   | None =>
       d <~ gets dots ;;
       set_dots ((d + 1) mod 4) ;;;
       d' <~ gets dots ;;
       in_world (print (OutWaiting d')) ;;;
       sleep env url 2 ;;;
       ret None
   end)%stmt.

(** [while time.time() < deadline: ...]. [fuel] bounds the number of times
    the condition is tested; [None] is a loop that outlives it. *)
Fixpoint pairing_loop (fuel : nat) (env : Env) (url : string) (deadline : Z)
    (st : Locals) : option (result (option (json * json)) * Locals) :=
  match fuel with
  | O => None
  | S fuel' =>
      if Z.ltb (clock (world st)) deadline then
        match iteration env url st with
        | (Return None, st') => pairing_loop fuel' env url deadline st'
        | (Return (Some c), st') => Some (Return (Some c), st')
        | (Raise e, st') => Some (Raise e, st')
        end
      else Some (Return None, st)
  end.

(** Every turn sleeps two seconds, so a window of thirty seconds is over
    after fifteen turns: the condition is tested sixteen times at most. *)
Definition max_tests : nat := 16.

Definition timeout_message : string :=
  "Failed to create Entertainment credentials. Did you press the link button?".

(** The code after the loop. *)
Definition on_timeout : M Locals (json * json) :=
  (in_world (print OutTimeout) ;;;
   e <~ gets last_err ;;
   (if py_truthy e then in_world (print (OutLastError e)) else ret tt) ;;;
   in_world (print OutRetryHint) ;;;
   raise (RuntimeError timeout_message))%stmt.

Definition pairing_url (bridge_ip : string) : string :=
  "http://" ++ bridge_ip ++ "/api".

Definition create_entertainment_user (env : Env) (bridge_ip : string) (w : World)
  : option (result (json * json) * World) :=
  let (_, w1) := print OutPairingBanner w in
  let url := pairing_url bridge_ip in
  let deadline := clock w1 + seconds 30 in
  match pairing_loop max_tests env url deadline
          {| world := w1; last_err := JNull; dots := 0 |} with
  | None => None
  | Some (Return (Some c), st) => Some (Return c, world st)
  | Some (Raise e, st) => Some (Raise e, world st)
  | Some (Return None, st) =>
      let (r, st') := on_timeout st in Some (r, world st')
  end.

(** *** [ensure_app_key] *)

(** [cfg.get(k)] on the configuration dict *)
Definition cfg_get (cfg : gmap string json) (k : string) : json :=
  match cfg !! k with Some v => v | None => JNull end.

Definition of_optional (s : option string) : json :=
  match s with Some x => JStr x | None => JNull end.

(** The dict [cfg] is updated in place only on the forced path, right
    before the [return]; a raise leaves the caller's dict as it was, so the
    dict is passed and returned by value. *)
Definition ensure_app_key (env : Env) (bridge_ip : string) (app_key : option string)
    (cfg : gmap string json) (force_repair : bool) (w : World)
  : option (result (json * json * gmap string json) * World) :=
  if force_repair then
    let (_, w1) := print OutForceRepair w in
    match create_entertainment_user env bridge_ip w1 with
    | None => None
    | Some (Raise e, w2) => Some (Raise e, w2)
    | Some (Return (username, clientkey), w2) =>
        let cfg1 := <["app_key" := username]> cfg in
        let cfg2 := <["clientkey" := clientkey]> cfg1 in
        let cfg3 := <["updated_at" := JStr (utcnow_isoformat env (clock w2) ++ "Z")]> cfg2 in
        Some (Return (username, clientkey, cfg3), w2)
    end
  else
    let username := py_or (of_optional app_key) (cfg_get cfg "app_key") in
    let clientkey := cfg_get cfg "clientkey" in
    if py_truthy username && py_truthy clientkey then
      let (_, w1) := log_world INFO MsgUsingExisting w in
      Some (Return (username, clientkey, cfg), w1)
    else if py_truthy username && negb (py_truthy clientkey) then
      let (_, w1) := print OutMissingClientkey w in
      Some (Raise (RuntimeError "Missing clientkey. Run with --re-pair"), w1)
    else
      let (_, w1) := print OutNoCredentials w in
      Some (Raise (RuntimeError "No credentials found. Run with --re-pair"), w1).

(* ===================================================================== *)
(** ** [HueEntertainmentBridge]                                           *)
(* ===================================================================== *)

(** An entertainment configuration of the library, as far as the script
    reads it: its display name and its channels. *)
Record EntertainmentConfiguration := mkConfiguration {
  name : string;
  channels : list nat
}.

(** [get_entertainment_configs()]: a dict from area id to configuration,
    iterated in insertion order. *)
Definition Catalog : Type := list (string * EntertainmentConfiguration).

(** The [for area_id, config in entertainment_configs.items()] loop of
    [__init__]: the configuration chosen and the value of [self.area_name],
    or [None] when the loop ends without a [break]. *)
Fixpoint find_area (entertainment_configs : Catalog) (entertainment_area_name : string)
  : option (EntertainmentConfiguration * string) :=
  match entertainment_configs with
  | [] => None
  | (area_id, config) :: rest =>
      if String.eqb (lower area_id) (lower entertainment_area_name) then
        Some (config, entertainment_area_name)
      else if String.eqb (lower area_id) (lower entertainment_area_name) then
        Some (config, area_id)
      else find_area rest entertainment_area_name
  end.

Definition not_found_message (entertainment_area_name : string) : string :=
  "Entertainment area '" ++ entertainment_area_name ++ "' not found".

(** The second [try] of [__init__]: fetch the configurations and select
    one; any failure is logged and raised again. *)
Definition select_area (get_entertainment_configs : result Catalog)
    (entertainment_area_name : string)
  : M World (EntertainmentConfiguration * string) :=
  try_except any_Exception
    (entertainment_configs <~ lift get_entertainment_configs ;;
     log_world INFO (MsgFoundConfigs (List.length entertainment_configs)) ;;;
     match find_area entertainment_configs entertainment_area_name with
     | None => raise (ValueError (not_found_message entertainment_area_name))
     | Some (config, area_name) =>
         log_world INFO (MsgSelectedArea area_name) ;;;
         ret (config, area_name)
     end)%stmt
    (fun e => log_world ERROR (MsgFailedConfigs e) ;;; raise e)%stmt.

(** *** The streaming session and the packet handler *)

(** The argument of [Streaming.set_input]: [(r, g, b, light index)]. *)
Definition Input : Type := float * float * float * nat.

(** The library's streaming service: the inputs it has accepted, oldest
    first, and whether its stream is open. *)
Record Streaming := mkStreaming {
  input_queue : list Input;
  streaming_open : bool
}.

(** When the library's calls raise is the library's to decide. *)
Class StreamingLibrary := {
  set_input_raises : Streaming -> Input -> option pyexn;
  stop_stream_raises : Streaming -> option pyexn
}.

(** A library none of whose calls raises. *)
Definition reliable_library : StreamingLibrary :=
  {| set_input_raises := fun _ _ => None; stop_stream_raises := fun _ => None |}.

Record Packet := mkPacket {
  universe : Z;
  dmxData : list byte
}.

(** The fields of [self] the handler and [stop_streaming] use, with the
    records handed to the module's logger. *)
Record Bridge := mkBridge {
  num_lights : nat;
  packet_count : Z;
  streaming : Streaming;
  journal : list LogRecord
}.

Definition log_bridge (lvl : LogLevel) (m : LogMsg) : M Bridge unit :=
  modify (fun self => {| num_lights := num_lights self; packet_count := packet_count self;
                         streaming := streaming self; journal := journal self ++ [(lvl, m)] |}).

Definition set_streaming (s : Streaming) : M Bridge unit :=
  modify (fun self => {| num_lights := num_lights self; packet_count := packet_count self;
                         streaming := s; journal := journal self |}).

(** [self.streaming.set_input(u)] *)
Definition set_input `{StreamingLibrary} (u : Input) : M Bridge unit :=
  (s <~ gets streaming ;;
   match set_input_raises s u with
   | Some e => raise e
   | None => set_streaming {| input_queue := input_queue s ++ [u];
                              streaming_open := streaming_open s |}
   end)%stmt.

(** [self.streaming.stop_stream()] *)
Definition stop_stream `{StreamingLibrary} : M Bridge unit :=
  (s <~ gets streaming ;;
   match stop_stream_raises s with
   | Some e => raise e
   | None => set_streaming {| input_queue := input_queue s; streaming_open := false |}
   end)%stmt.

(** [dmx[i]] *)
Definition dmx_at (dmx : list byte) (i : nat) : result byte :=
  match nth_error dmx i with
  | Some b => Return b
  | None => Raise IndexError
  end.

(** [b / 255.0]: the byte as a binary64 float, divided by [255.0]. *)
Definition normalize (b : byte) : float :=
  PrimFloat.div (PrimFloat.of_uint63 (Uint63.of_Z (Z.of_N (Byte.to_N b)))) 255%float.

(** The body of [for idx in range(self.num_lights)]. *)
Definition light `{StreamingLibrary} (dmx : list byte) (idx : nat) : M Bridge unit :=
  (let channel_offset := (idx * 3)%nat in
   if (channel_offset + 3 <=? List.length dmx)%nat then
     r <~ lift (dmx_at dmx (channel_offset + 0)) ;;
     g <~ lift (dmx_at dmx (channel_offset + 1)) ;;
     b <~ lift (dmx_at dmx (channel_offset + 2)) ;;
     set_input (normalize r, normalize g, normalize b, idx) ;;;
     count <~ gets packet_count ;;
     if Z.leb count 2 then log_bridge INFO (MsgLight (idx + 1) r g b) else ret tt
   else ret tt)%stmt.

Definition count_packet : M Bridge unit :=
  modify (fun self => {| num_lights := num_lights self; packet_count := packet_count self + 1;
                         streaming := streaming self; journal := journal self |}).

Definition _on_dmx_data `{StreamingLibrary} (packet : Packet) : M Bridge unit :=
  try_except any_Exception
    (count_packet ;;;
     let dmx := dmxData packet in
     count <~ gets packet_count ;;
     (if Z.eqb count 1 then
        log_bridge INFO MsgRule ;;;
        log_bridge INFO MsgFirstPacket ;;;
        log_bridge INFO MsgRule ;;;
        log_bridge INFO (MsgUniverse (universe packet)) ;;;
        log_bridge INFO (MsgDmxLength (List.length dmx)) ;;;
        log_bridge INFO (MsgFirst20 (firstn 20 dmx)) ;;;
        log_bridge INFO MsgRule
      else ret tt) ;;;
     (if Z.eqb (count mod 500) 0 then log_bridge INFO (MsgReceivedPackets count) else ret tt) ;;;
     log_bridge DEBUG (MsgPacket count (List.length dmx)) ;;;
     n <~ gets num_lights ;;
     for_each (seq 0 n) (light dmx))%stmt
    (fun e => log_bridge ERROR (MsgErrorProcessing e)).

Definition stop_streaming `{StreamingLibrary} : M Bridge unit :=
  try_except any_Exception
    (log_bridge INFO MsgStopping ;;;
     stop_stream ;;;
     log_bridge INFO MsgStopped)%stmt
    (fun e => log_bridge ERROR (MsgErrorStopping e)).

(* ===================================================================== *)
(** ** [main]: listing the areas or starting the bridge                   *)
(* ===================================================================== *)

(** What the library and the bridge answer to [main] once the bridge
    object exists: [Entertainment(bridge)], its
    [get_entertainment_configs()], the names [get_entertainment_area_names]
    read (it returns an empty dict when its query fails), and the rest of
    the run for a selected configuration ([Streaming(...)], the receiver
    and [run()] until it is interrupted). *)
Record Services := mkServices {
  entertainment_service : result unit;
  get_entertainment_configs : result Catalog;
  get_entertainment_area_names : list (string * string);
  run_bridge : EntertainmentConfiguration -> result unit
}.

(** [area_names.get(area_id, area_id)] *)
Fixpoint area_name_of (area_names : list (string * string)) (area_id : string) : string :=
  match area_names with
  | [] => area_id
  | (k, v) :: rest => if String.eqb area_id k then v else area_name_of rest area_id
  end.

(** [HueEntertainmentBridge(bridge, area, universe)] followed by [run()]. *)
Definition start_bridge (svc : Services) (entertainment_area_name : string) : M World unit :=
  (log_world INFO MsgInitializing ;;;
   try_except any_Exception
     (lift (entertainment_service svc) ;;; log_world INFO MsgServiceReady)
     (fun e => log_world ERROR (MsgFailedService e) ;;; raise e) ;;;
   selected <~ select_area (get_entertainment_configs svc) entertainment_area_name ;;
   lift (run_bridge svc (fst selected)))%stmt.

(** [main] from [if args.list or not args.area:] on; the value is the
    exit code. *)
Definition main_areas (svc : Services) (args_list : bool) (args_area : option string)
  : M World Z :=
  (if args_list || negb (py_truthy (of_optional args_area)) then
     fetched <~ try_except any_Exception
                  (lift (entertainment_service svc) ;;;
                   entertainment_configs <~ lift (get_entertainment_configs svc) ;;
                   ret (Some entertainment_configs))
                  (fun e => log_world ERROR (MsgFailedConfigs e) ;;;
                            log_world ERROR MsgFailedConfigsHint ;;;
                            ret None) ;;
     match fetched with
     | None => ret 5
     | Some entertainment_configs =>
         print OutAreasHeader ;;;
         match entertainment_configs with
         | [] => print OutNoAreas ;;; ret 6
         | _ =>
             for_each (combine (seq 0 (List.length entertainment_configs)) entertainment_configs)
               (fun entry =>
                  let idx := fst entry in
                  let area_id := fst (snd entry) in
                  let config := snd (snd entry) in
                  print (OutArea (idx + 1)
                           (area_name_of (get_entertainment_area_names svc) area_id)
                           area_id (List.length (channels config)))) ;;;
             print OutAreasFooter ;;;
             (if negb args_list then print OutUseAreaHint else ret tt) ;;;
             ret 0
         end
     end
   else
     let area := match args_area with Some a => a | None => "" end in
     log_world INFO (MsgStartingBridge area) ;;;
     try_except any_Exception
       (start_bridge svc area ;;; ret 0)
       (fun e => log_world ERROR (MsgFailedStart e) ;;; ret 7))%stmt.

(* ===================================================================== *)
(** ** What the specification calls things                                *)
(* ===================================================================== *)

(** The description of an error response of the pairing endpoint: a
    non-empty list whose first item is a dict without ["success"] and with
    an ["error"] dict whose ["description"] is a string. *)
Definition error_response (r : result json) : option string :=
  match r with
  | Return (JList (JDict item :: _)) =>
      match dict_lookup "success" item, dict_lookup "error" item with
      | None, Some (JDict err) =>
          match dict_lookup "description" err with
          | Some (JStr d) => Some d
          | _ => None
          end
      | _, _ => None
      end
  | _ => None
  end.

Definition mentions_link_button (d : string) : bool :=
  str_contains "link button not pressed" (lower d).

(** The reply is a "link button not pressed" error response. *)
Definition link_button_not_pressed (r : result json) : bool :=
  match error_response r with
  | Some d => mentions_link_button d
  | None => false
  end.

(** The Translator of the specification: for each light index below
    [lightCount], in ascending order, the normalized 3-byte block at offset
    [i * 3] when the frame holds [i * 3 + 3] bytes, nothing otherwise. *)
Definition slot_update (frame : list byte) (i : nat) : list Input :=
  if (i * 3 + 3 <=? List.length frame)%nat then
    [(normalize (nth (i * 3) frame x00),
      normalize (nth (i * 3 + 1) frame x00),
      normalize (nth (i * 3 + 2) frame x00), i)]
  else [].

Definition translate (frame : list byte) (lightCount : nat) : list Input :=
  flat_map (slot_update frame) (seq 0 lightCount).

(** What one turn of the pairing loop prints for an error response of
    description [d]: the error unless it is the link-button one, then the
    animation with its new count of dots. *)
Definition attempt_output (d : string) (dots : Z) : list Out :=
  (if mentions_link_button d then [] else [OutError (JStr d)]) ++ [OutWaiting dots].

(** What [n] turns print, from the request numbered [k] on. *)
Fixpoint attempts_output (descr : nat -> string) (k : nat) (dots : Z) (n : nat) : list Out :=
  match n with
  | O => []
  | S n' =>
      attempt_output (descr k) ((dots + 1) mod 4) ++
      attempts_output descr (S k) ((dots + 1) mod 4) n'
  end.

(** A component in [[0.0, 1.0]]. *)
Definition in_unit_interval (x : float) : bool :=
  PrimFloat.leb 0%float x && PrimFloat.leb x 1%float.

Definition light_index (u : Input) : nat := snd u.

(** The library accepts every input. *)
Definition accepts_every_input `{StreamingLibrary} : Prop :=
  forall s u, set_input_raises s u = None.



(* ===================================================================== *)
(** ** Concrete inputs                                                    *)
(* ===================================================================== *)

(** A process that has just started, at clock zero. *)
Definition fresh_world : World :=
  {| clock := 0; posts := 0; stdout := []; logged := [] |}.

(** The body of an error answer of the bridge. *)
Definition error_reply (description : string) : json :=
  JList [JDict [("error", JDict [("type", JInt 101);
                                 ("address", JStr "/");
                                 ("description", JStr description)])]].

(** A bridge whose button is never pressed: every request is answered
    "link button not pressed" after 10 ms. *)
Definition button_never_pressed : Env :=
  {| answer := fun _ _ => {| latency := 10;
                             reply := Return (error_reply "link button not pressed");
                             oversleep := 0 |};
     utcnow_isoformat := fun _ => "2024-01-01T00:00:00" |}.

Definition unauthorized_first (k : nat) : string :=
  match k with
  | O => "unauthorized user"
  | S _ => "link button not pressed"
  end.

(** The same bridge, except that its first answer is another error. *)
Definition unauthorized_then_button : Env :=
  {| answer := fun _ k => {| latency := 10;
                             reply := Return (error_reply (unauthorized_first k));
                             oversleep := 0 |};
     utcnow_isoformat := fun _ => "2024-01-01T00:00:00" |}.

(** A stored configuration with a token and no client key. *)
Definition token_only_cfg : gmap string json :=
  <["app_key" := JStr "stored-token"]> (<["bridge_ip" := JStr "192.168.1.2"]> ∅).

(** A stored configuration with a token and its client key. *)
Definition paired_cfg : gmap string json :=
  <["clientkey" := JStr "STOREDCLIENTKEY"]> token_only_cfg.

(** The catalog of the specification's example: two areas, known to the
    library by their ids. *)
Definition living_catalog : Catalog :=
  [("3f2a6c1e-0001", {| name := "Living Room"; channels := [0; 1; 2]%nat |});
   ("9b7d4e2a-0002", {| name := "Office"; channels := [0]%nat |})].


(** Services that work and expose the given catalog. *)
Definition services_with (catalog : Catalog) : Services :=
  {| entertainment_service := Return tt;
     get_entertainment_configs := Return catalog;
     get_entertainment_area_names := [];
     run_bridge := fun _ => Return tt |}.

(** A bridge object with two lights that has seen no packet yet. *)
Definition two_lights : Bridge :=
  {| num_lights := 2; packet_count := 0;
     streaming := {| input_queue := []; streaming_open := true |};
     journal := [] |}.

(** The frame [255,0,0, 0,255,0] of universe 1, and the same frame cut
    after five bytes. *)
Definition red_green : Packet :=
  {| universe := 1; dmxData := [xff; x00; x00; x00; xff; x00] |}.

Definition red_green_cut : Packet :=
  {| universe := 1; dmxData := [xff; x00; x00; x00; xff] |}.

(* ===================================================================== *)
(** ** More about the handshake                                           *)
(* ===================================================================== *)

(** The pair of a success response of the pairing endpoint: a non-empty
    list whose first item is a dict with a ["success"] dict that holds a
    truthy ["username"] and a truthy ["clientkey"]. *)
Definition success_response (r : result json) : option (json * json) :=
  match r with
  | Return (JList (JDict item :: _)) =>
      match dict_lookup "success" item with
      | Some (JDict success) =>
          match dict_lookup "username" success, dict_lookup "clientkey" success with
          | Some username, Some clientkey =>
              if py_truthy username && py_truthy clientkey
              then Some (username, clientkey) else None
          | _, _ => None
          end
      | _ => None
      end
  | _ => None
  end.

(** The text a reply leaves in [last_err] when it is one the loop retries
    after: the message of a [RequestException], or the description of an
    error response. *)
Definition retried (r : result json) : option string :=
  match r with
  | Raise (RequestException m) => Some m
  | Raise _ => None
  | Return _ => error_response r
  end.

(** What the turn of a retried reply prints. *)
Definition retry_output (r : result json) (dots : Z) : list Out :=
  match r with
  | Raise _ => [OutWaiting dots]
  | Return _ =>
      match error_response r with
      | Some d => attempt_output d dots
      | None => [OutWaiting dots]
      end
  end.

Fixpoint retries_output (env : Env) (url : string) (k : nat) (dots : Z) (n : nat)
  : list Out :=
  match n with
  | O => []
  | S n' =>
      retry_output (reply (answer env url k)) ((dots + 1) mod 4) ++
      retries_output env url (S k) ((dots + 1) mod 4) n'
  end.

(** The time a retried turn takes: the request, the two seconds of sleep
    and what the sleep adds to them. *)
Definition turn_time (env : Env) (url : string) (k : nat) : Z :=
  Z.of_N (latency (answer env url k)) + (seconds 2 + Z.of_N (oversleep (answer env url k))).

(** The time of [n] retried turns from request [k] on. *)
Fixpoint elapsed (env : Env) (url : string) (k n : nat) : Z :=
  match n with
  | O => 0
  | S n' => turn_time env url k + elapsed env url (S k) n'
  end.

(** Replies that end the handshake by an exception: one that raises
    something else than a [RequestException], and a list whose first item
    is null, a boolean or a number (["success" in item] is a [TypeError]). *)
Definition aborts (r : result json) : option pyexn :=
  match r with
  | Raise e => if is_request_exception e then None else Some e
  | Return (JList (item :: _)) =>
      match item with
      | JNull | JBool _ | JInt _ | JFloat _ => Some TypeError
      | _ => None
      end
  | Return _ => None
  end.

(** A bridge whose button is pressed before the third request. *)
Definition pressed_before_third : Env :=
  {| answer := fun _ k =>
       {| latency := 10;
          reply := match k with
                   | 2%nat => Return (JList [JDict [("success",
                                JDict [("username", JStr "NEWTOKEN");
                                       ("clientkey", JStr "NEWCLIENTKEY")])]])
                   | _ => Return (error_reply "link button not pressed")
                   end;
          oversleep := 0 |};
     utcnow_isoformat := fun _ => "2024-01-01T00:00:00" |}.

(** A bridge that cannot be reached. *)
Definition unreachable_bridge : Env :=
  {| answer := fun _ _ => {| latency := 3000;
                             reply := Raise (RequestException "connect timeout");
                             oversleep := 0 |};
     utcnow_isoformat := fun _ => "2024-01-01T00:00:00" |}.

(** A device that answers the second request with a list of numbers. *)
Definition garbled_second : Env :=
  {| answer := fun _ k =>
       {| latency := 10;
          reply := match k with
                   | 1%nat => Return (JList [JInt 7])
                   | _ => Return (error_reply "link button not pressed")
                   end;
          oversleep := 0 |};
     utcnow_isoformat := fun _ => "2024-01-01T00:00:00" |}.

(** A stored configuration with a client key and no token. *)
Definition clientkey_only_cfg : gmap string json :=
  <["clientkey" := JStr "STOREDCLIENTKEY"]> (<["bridge_ip" := JStr "192.168.1.2"]> ∅).

(** An answer of the bridge resource whose owner is null. *)
Definition bridge_without_owner : json :=
  JDict [("errors", JList []);
         ("data", JList [JDict [("id", JStr "0a1b2c3d");
                                ("owner", JNull);
                                ("metadata", JNull);
                                ("type", JStr "bridge")]])].

(* ===================================================================== *)
(** ** More about the packet handler                                      *)
(* ===================================================================== *)

(** The listener calls the handler once per packet, in arrival order. *)
Definition deliver `{StreamingLibrary} (packets : list Packet) : M Bridge unit :=
  for_each packets _on_dmx_data.

(** The records the handler writes for the packet it counts as number
    [count], before it looks at the lights. *)
Definition packet_records (count : Z) (packet : Packet) : list LogRecord :=
  (if Z.eqb count 1 then
     [(INFO, MsgRule); (INFO, MsgFirstPacket); (INFO, MsgRule);
      (INFO, MsgUniverse (universe packet));
      (INFO, MsgDmxLength (List.length (dmxData packet)));
      (INFO, MsgFirst20 (firstn 20 (dmxData packet)));
      (INFO, MsgRule)]
   else []) ++
  (if Z.eqb (count mod 500) 0 then [(INFO, MsgReceivedPackets count)] else []) ++
  [(DEBUG, MsgPacket count (List.length (dmxData packet)))].

(** The 256 bytes, in ascending order. *)
Definition all_bytes : list byte :=
  map (fun n => match Byte.of_N (N.of_nat n) with Some b => b | None => x00 end) (seq 0 256).

(** A library whose session refuses the input of light 1. *)
Definition refuses_light_1 : StreamingLibrary :=
  {| set_input_raises := fun _ u =>
       match light_index u with
       | 1%nat => Some (LibraryError "queue closed")
       | _ => None
       end;
     stop_stream_raises := fun _ => None |}.

(** Three lights, after two packets. *)
Definition three_lights_running : Bridge :=
  {| num_lights := 3; packet_count := 2;
     streaming := {| input_queue := []; streaming_open := true |};
     journal := [] |}.

(** A frame of universe 1 with three blocks, and a frame of universe 7
    with the same blocks followed by other channels. *)
Definition three_blocks : Packet :=
  {| universe := 1; dmxData := [xff; x00; x00; x00; xff; x00; x00; x00; xff] |}.

Definition three_blocks_and_more : Packet :=
  {| universe := 7; dmxData := [xff; x00; x00; x00; xff; x00; x00; x00; xff; x10; x20; x30; x40] |}.

(* ===================================================================== *)
(** ** Discovery, area names and the multicast address                    *)
(* ===================================================================== *)

(** Log messages of the functions below, one constructor per template.
    A message that interpolates an exception holds the exception: the
    text logged is its [str(e)]. *)
Inductive Notice : Type :=
| NoteNoAreaNames (e : pyexn)
| NoteStreamingReady
| NoteFailedStreaming (e : pyexn)
| NoteLights (n : nat)
| NoteLocalIp
| NoteNoLocalIp
| NoteReceiverCreated
| NoteJoined (universe : Z)
| NoteRegistered (universe : Z)
| NoteReceiverStarted
| NoteMulticast (a b c d : Z)
| NoteStartingStream
| NoteStreamActive
| NoteFailedStream (e : pyexn)
| NoteRunning
| NoteStoppedByUser
| NoteStoppingReceiver
| NoteCleanShutdown
| NoteUsername (prefix : json)
| NoteClientkey (prefix : json)
| NoteError (e : pyexn)
| NoteGettingBridgeInfo
| NoteBridgeId (v : json)
| NoteBridgeName (v : json)
| NoteBridgeCreated
| NoteFailedBridge (e : pyexn).

(** What these functions let out, in the order they do: a record for the
    logger, a block printed on standard output, a line on standard error. *)
Inductive Event : Type :=
| Logged (lvl : LogLevel) (n : Notice)
| PrintedConfig (area_name : string) (universe : Z) (num_lights : nat)
| PrintedRepairComplete
| DiscoveryFailed (e : pyexn)
| ConfigWriteFailed (e : pyexn).

Definition emit {S} (add : list Event -> S -> S) (ev : Event) : M S unit :=
  modify (add [ev]).

(** A library call that has nothing to return: it raises or it does not. *)
Definition call {S} (raises : option pyexn) : M S unit :=
  match raises with
  | Some e => raise e
  | None => ret tt
  end.

(** [discover_bridge_ip]: [nupnp] is what
    [requests.get(NUPNP_DISCOVERY); r.raise_for_status(); r.json()] yields. *)
Definition discover_bridge_ip (nupnp : result json) : M (list Event) (option json) :=
  (found <~ try_except any_Exception
              (arr <~ lift nupnp ;;
               if is_list arr && py_truthy arr then
                 first <~ lift (py_getitem_0 arr) ;;
                 ip <~ lift (py_get first "internalipaddress" JNull) ;;
                 if py_truthy ip then ret (Some ip) else ret None
               else ret None)
              (fun e => emit (fun evs s => s ++ evs) (DiscoveryFailed e) ;;; ret None) ;;
   ret found)%stmt.

(** [for x in v]: the items a loop over [v] visits. *)
Definition py_iter (v : json) : result (list json) :=
  match v with
  | JList l => Return l
  | JStr s => Return (map (fun c => JStr (String c EmptyString)) (list_ascii_of_string s))
  | JDict d => Return (map (fun kv => JStr (fst kv)) d)
  | _ => Raise TypeError
  end.

(** Values that can be keys of a dict. *)
Definition hashable (v : json) : bool :=
  match v with
  | JList _ | JDict _ => false
  | _ => true
  end.

(** The loop of [get_entertainment_area_names]. The dict [names] is kept
    as the list of its assignments, oldest first: a later assignment to a
    key replaces the value of an earlier one. *)
Fixpoint collect_names (areas : list json) (names : list (json * json))
  : result (list (json * json)) :=
  match areas with
  | [] => Return names
  | area :: rest =>
      (area_id <- py_get area "id" JNull ;;
       metadata <- py_get area "metadata" (JDict []) ;;
       area_name <- py_get metadata "name" area_id ;;
       if hashable area_id then collect_names rest (names ++ [(area_id, area_name)])
       else Raise TypeError)%py
  end.

Definition get_entertainment_area_names_of
    (hue_get : string -> string -> string -> result json) (bridge_ip app_key : string)
  : M (list Event) (list (json * json)) :=
  try_except any_Exception
    (data <~ lift (hue_get bridge_ip app_key "/clip/v2/resource/entertainment_configuration") ;;
     listed <~ lift (py_get data "data" (JList [])) ;;
     areas <~ lift (py_iter listed) ;;
     lift (collect_names areas []))%stmt
    (fun e => emit (fun evs s => s ++ evs) (Logged WARNING (NoteNoAreaNames e)) ;;;
              ret [])%stmt.

(** An area the loop goes through without raising: a dict whose ["id"]
    is hashable and whose ["metadata"], when present, is a dict. *)
Definition area_is_read (area : json) : bool :=
  match area with
  | JDict a =>
      hashable (match dict_lookup "id" a with Some v => v | None => JNull end) &&
      match dict_lookup "metadata" a with
      | Some (JDict _) | None => true
      | Some _ => false
      end
  | _ => false
  end.

(** The name recorded for an area that is read. *)
Definition area_entry (area : json) : json * json :=
  match area with
  | JDict a =>
      let area_id := match dict_lookup "id" a with Some v => v | None => JNull end in
      (area_id,
       match dict_lookup "metadata" a with
       | Some (JDict m) => match dict_lookup "name" m with Some n => n | None => area_id end
       | _ => area_id
       end)
  | _ => (JNull, JNull)
  end.

(** An answer of the bridge about its entertainment configurations: two
    areas, the second without a name. *)
Definition two_areas_answer : json :=
  JDict [("errors", JList []);
         ("data", JList [JDict [("id", JStr "3f2a6c1e-0001");
                                ("metadata", JDict [("name", JStr "Living Room")])];
                         JDict [("id", JStr "9b7d4e2a-0002")]])].

(** An answer of the discovery service with one bridge. *)
Definition one_bridge_found : json :=
  JList [JDict [("id", JStr "001788fffe000000");
                ("internalipaddress", JStr "192.168.1.2");
                ("port", JInt 443)]].

(** The octets of the multicast address the receiver logs for its
    universe: [239.255.{(universe >> 8) & 0xFF}.{universe & 0xFF}]. *)
Definition multicast_address (universe : Z) : Z * Z * Z * Z :=
  (239, 255, Z.land (Z.shiftr universe 8) 255, Z.land universe 255).

(* ===================================================================== *)
(** ** [HueEntertainmentBridge.__init__], [start_streaming] and [run]     *)
(* ===================================================================== *)

(** The sACN receiver as the script drives it: the universes whose
    multicast group it joined, the universes it has a listener for, and
    whether its thread runs. *)
Record Receiver := mkReceiver {
  joined : list Z;
  listening : list Z;
  started : bool
}.

(** Which calls of the libraries raise: the entertainment service and its
    configurations ([services]), [get_ent_conf_repo()], [Streaming(...)],
    the socket calls that look up the local address, [sACNreceiver(...)],
    [join_multicast], [register_listener], [receiver.start()],
    [start_stream()], [set_color_space(...)] and [receiver.stop()]. *)
Record Collaborators := mkCollaborators {
  services : Services;
  get_ent_conf_repo_raises : option pyexn;
  new_streaming_raises : EntertainmentConfiguration -> option pyexn;
  local_ip_raises : option pyexn;
  new_receiver_raises : option pyexn;
  join_multicast_raises : Z -> option pyexn;
  register_listener_raises : Z -> option pyexn;
  receiver_start_raises : option pyexn;
  start_stream_raises : Streaming -> option pyexn;
  set_color_space_raises : Streaming -> string -> option pyexn;
  receiver_stop_raises : option pyexn
}.

(** The process around a bridge object: the world of the functions
    above, the receiver once it exists, and what else was let out. *)
Record Machine := mkMachine {
  machine_world : World;
  receiver : option Receiver;
  events : list Event
}.

Definition on_world {A} (m : M World A) : M Machine A :=
  fun st =>
    let (r, w') := m (machine_world st) in
    (r, {| machine_world := w'; receiver := receiver st; events := events st |}).

Definition note (lvl : LogLevel) (n : Notice) : M Machine unit :=
  modify (fun st => {| machine_world := machine_world st; receiver := receiver st;
                       events := events st ++ [Logged lvl n] |}).

Definition tell (ev : Event) : M Machine unit :=
  modify (fun st => {| machine_world := machine_world st; receiver := receiver st;
                       events := events st ++ [ev] |}).

Definition set_receiver (r : option Receiver) : M Machine unit :=
  modify (fun st => {| machine_world := machine_world st; receiver := r;
                       events := events st |}).

Definition update_receiver (f : Receiver -> Receiver) : M Machine unit :=
  modify (fun st => {| machine_world := machine_world st;
                       receiver := option_map f (receiver st);
                       events := events st |}).

(** The object [__init__] builds: the fields the handler uses, and the
    universe, area name and configuration it keeps. *)
Record Instance := mkInstance {
  self_bridge : Bridge;
  self_universe : Z;
  self_area_name : string;
  self_config : EntertainmentConfiguration
}.

Definition log_multicast (universe : Z) : M Machine unit :=
  match multicast_address universe with
  | (a, b, c, d) => note INFO (NoteMulticast a b c d)
  end.

(** [__init__] up to the receiver: the entertainment service, the
    selection of the area, the streaming service, the count of lights and
    the lookup of the local address, whose failure is logged and
    forgotten. *)
Definition prepare_streaming (c : Collaborators) (entertainment_area_name : string)
  : M Machine (EntertainmentConfiguration * string) :=
  (on_world (log_world INFO MsgInitializing) ;;;
   try_except any_Exception
     (on_world (lift (entertainment_service (services c))) ;;;
      on_world (log_world INFO MsgServiceReady))
     (fun e => on_world (log_world ERROR (MsgFailedService e)) ;;; raise e) ;;;
   selected <~ on_world (select_area (get_entertainment_configs (services c))
                                     entertainment_area_name) ;;
   try_except any_Exception
     (call (get_ent_conf_repo_raises c) ;;;
      call (new_streaming_raises c (fst selected)) ;;;
      note INFO NoteStreamingReady)
     (fun e => note ERROR (NoteFailedStreaming e) ;;; raise e) ;;;
   note INFO (NoteLights (List.length (channels (fst selected)))) ;;;
   try_except any_Exception
     (call (local_ip_raises c) ;;; note INFO NoteLocalIp)
     (fun _ => note WARNING NoteNoLocalIp) ;;;
   ret selected)%stmt.

(** The rest of [__init__]: the receiver is created, joins the multicast
    group of the universe, gets its listener and is started. *)
Definition start_receiver (c : Collaborators) (universe : Z) : M Machine unit :=
  (call (new_receiver_raises c) ;;;
   set_receiver (Some {| joined := []; listening := []; started := false |}) ;;;
   note INFO NoteReceiverCreated ;;;
   call (join_multicast_raises c universe) ;;;
   update_receiver (fun r => {| joined := joined r ++ [universe];
                                listening := listening r; started := started r |}) ;;;
   note INFO (NoteJoined universe) ;;;
   call (register_listener_raises c universe) ;;;
   update_receiver (fun r => {| joined := joined r;
                                listening := listening r ++ [universe];
                                started := started r |}) ;;;
   note INFO (NoteRegistered universe) ;;;
   call (receiver_start_raises c) ;;;
   update_receiver (fun r => {| joined := joined r; listening := listening r;
                                started := true |}) ;;;
   note INFO NoteReceiverStarted ;;;
   log_multicast universe)%stmt.

(** [HueEntertainmentBridge.__init__] *)
Definition bridge_init (c : Collaborators) (entertainment_area_name : string) (universe : Z)
  : M Machine Instance :=
  (selected <~ prepare_streaming c entertainment_area_name ;;
   start_receiver c universe ;;;
   ret {| self_bridge :=
            {| num_lights := List.length (channels (fst selected));
               packet_count := 0;
               streaming := {| input_queue := []; streaming_open := false |};
               journal := [] |};
          self_universe := universe;
          self_area_name := snd selected;
          self_config := fst selected |})%stmt.

(** The bridge object at work with the process around it. *)
Record Running := mkRunning {
  self : Bridge;
  machine : Machine
}.

Definition on_self {A} (m : M Bridge A) : M Running A :=
  fun st =>
    let (r, b) := m (self st) in (r, {| self := b; machine := machine st |}).

Definition on_machine {A} (m : M Machine A) : M Running A :=
  fun st =>
    let (r, mc) := m (machine st) in (r, {| self := self st; machine := mc |}).

(** [start_streaming]: a failure is logged and raised again. *)
Definition start_streaming (c : Collaborators) : M Running unit :=
  try_except any_Exception
    (on_machine (note INFO NoteStartingStream) ;;;
     s <~ gets (fun st => streaming (self st)) ;;
     call (start_stream_raises c s) ;;;
     on_self (set_streaming {| input_queue := input_queue s; streaming_open := true |}) ;;;
     s' <~ gets (fun st => streaming (self st)) ;;
     call (set_color_space_raises c s' "rgb") ;;;
     on_machine (note INFO NoteStreamActive))%stmt
    (fun e => on_machine (note ERROR (NoteFailedStream e)) ;;; raise e)%stmt.

(** [print_config] *)
Definition print_config (area_name : string) (universe : Z) : M Running unit :=
  (n <~ gets (fun st => num_lights (self st)) ;;
   on_machine (tell (PrintedConfig area_name universe n)))%stmt.

(** [run]. The loop [while True: time.sleep(1)] ends with the
    [KeyboardInterrupt] only: [uptime] is the time in milliseconds the
    loop has slept when Ctrl+C arrives, and a run that is never
    interrupted has no value here. *)
Definition run `{StreamingLibrary} (c : Collaborators) (area_name : string) (universe : Z)
    (uptime : N) : M Running unit :=
  (start_streaming c ;;;
   print_config area_name universe ;;;
   on_machine (note INFO NoteRunning) ;;;
   on_machine (on_world (fun w => (Return tt, elapse (Z.of_N uptime) w))) ;;;
   on_machine (note INFO NoteStoppedByUser) ;;;
   on_self stop_streaming ;;;
   on_machine (note INFO NoteStoppingReceiver) ;;;
   call (receiver_stop_raises c) ;;;
   on_machine (update_receiver (fun r => {| joined := joined r; listening := listening r;
                                            started := false |})) ;;;
   on_machine (note INFO NoteCleanShutdown))%stmt.

(** Collaborators none of whose calls raises, with the catalog of the
    example. *)
Definition sound_collaborators : Collaborators :=
  {| services := services_with living_catalog;
     get_ent_conf_repo_raises := None;
     new_streaming_raises := fun _ => None;
     local_ip_raises := None;
     new_receiver_raises := None;
     join_multicast_raises := fun _ => None;
     register_listener_raises := fun _ => None;
     receiver_start_raises := None;
     start_stream_raises := fun _ => None;
     set_color_space_raises := fun _ _ => None;
     receiver_stop_raises := None |}.

(** A process that has no receiver yet. *)
Definition fresh_machine : Machine :=
  {| machine_world := fresh_world; receiver := None; events := [] |}.

(** The same collaborators with another outcome of the local address
    lookup. *)
Definition with_local_ip (o : option pyexn) (c : Collaborators) : Collaborators :=
  {| services := services c;
     get_ent_conf_repo_raises := get_ent_conf_repo_raises c;
     new_streaming_raises := new_streaming_raises c;
     local_ip_raises := o;
     new_receiver_raises := new_receiver_raises c;
     join_multicast_raises := join_multicast_raises c;
     register_listener_raises := register_listener_raises c;
     receiver_start_raises := receiver_start_raises c;
     start_stream_raises := start_stream_raises c;
     set_color_space_raises := set_color_space_raises c;
     receiver_stop_raises := receiver_stop_raises c |}.

(** A bridge object that streams, in a process whose receiver runs. *)
Definition ready_to_run : Running :=
  {| self := two_lights;
     machine := {| machine_world := fresh_world;
                   receiver := Some {| joined := [1]; listening := [1]; started := true |};
                   events := [] |} |}.

(** A library whose [stop_stream] raises. *)
Definition stop_stream_fails : StreamingLibrary :=
  {| set_input_raises := fun _ _ => None;
     stop_stream_raises := fun _ => Some (LibraryError "bridge gone") |}.

(* ===================================================================== *)
(** ** [save_config] and [main] around the credentials                    *)
(* ===================================================================== *)

(** What the machine the script runs on decides: whether writing a
    configuration file fails ([mkdir], [open], [json.dump]), whether
    [create_bridge] raises for a bridge record, and the exception the
    interpreter raises for a slice of a dict (a [TypeError] before Python
    3.12, a [KeyError] from then on). *)
Record Host := mkHost {
  write_config_raises : gmap string json -> option pyexn;
  create_bridge_raises : BridgeInfo -> option pyexn;
  dict_slice_error : pyexn
}.

(** [main] at work: the world of the functions above, what else it let
    out, and the configurations [save_config] wrote out in full, oldest
    first. *)
Record Session := mkSession {
  session_world : World;
  session_events : list Event;
  saved : list (gmap string json)
}.

Definition in_session {A} (m : M World A) : M Session A :=
  fun s =>
    let (r, w') := m (session_world s) in
    (r, {| session_world := w'; session_events := session_events s; saved := saved s |}).

Definition report (ev : Event) : M Session unit :=
  modify (fun s => {| session_world := session_world s;
                      session_events := session_events s ++ [ev];
                      saved := saved s |}).

Definition write_file (data : gmap string json) : M Session unit :=
  modify (fun s => {| session_world := session_world s;
                      session_events := session_events s;
                      saved := saved s ++ [data] |}).

(** [save_config]: a failure is told on standard error and goes no
    further. *)
Definition save_config (host : Host) (data : gmap string json) : M Session unit :=
  try_except any_Exception
    (call (write_config_raises host data) ;;; write_file data)%stmt
    (fun e => report (ConfigWriteFailed e)).

(** [v[:8]] *)
Definition py_slice8 (host : Host) (v : json) : result json :=
  match v with
  | JStr s => Return (JStr (String.substring 0 8 s))
  | JList l => Return (JList (firstn 8 l))
  | JDict _ => Raise (dict_slice_error host)
  | _ => Raise TypeError
  end.

(** How a part of [main] ends: with an exit code, or with the
    credentials the rest of [main] goes on with. *)
Inductive Next : Type :=
| Exit (code : Z)
| Proceed (app_key clientkey : json) (cfg : gmap string json).

(** The body of the [try] of [main] after [ensure_app_key] returned. *)
Definition log_credentials (host : Host) (app_key clientkey : json) : M Session unit :=
  (u <~ lift (py_slice8 host app_key) ;;
   report (Logged DEBUG (NoteUsername u)) ;;;
   k <~ lift (py_slice8 host clientkey) ;;
   report (Logged DEBUG (NoteClientkey k)))%stmt.

(** [main] from the call of [ensure_app_key] to the exit after a
    re-pair. *)
Definition main_credentials (env : Env) (host : Host) (bridge_ip : string)
    (args_app_key : option string) (cfg : gmap string json) (args_re_pair : bool)
    (s : Session) : option (Next * Session) :=
  match ensure_app_key env bridge_ip args_app_key cfg args_re_pair (session_world s) with
  | None => None
  | Some (outcome, w) =>
      let s1 := {| session_world := w; session_events := session_events s;
                   saved := saved s |} in
      let tried :=
        match outcome with
        | Raise e => (Raise e, s1)
        | Return (app_key, clientkey, cfg') =>
            (log_credentials host app_key clientkey ;;;
             ret (app_key, clientkey, cfg'))%stmt s1
        end in
      match tried with
      | (Raise e, s2) =>
          Some (Exit 3, snd (report (Logged ERROR (NoteError e)) s2))
      | (Return (app_key, clientkey, cfg'), s2) =>
          let s3 := snd (save_config host cfg' s2) in
          if args_re_pair then Some (Exit 0, snd (report PrintedRepairComplete s3))
          else Some (Proceed app_key clientkey cfg', s3)
      end
  end.

(** [main] from [get_bridge_info] on; the value is the exit code. *)
Definition main_tail (host : Host) (hue_get : string -> string -> string -> result json)
    (svc : Services) (bridge_ip app_key : string) (args_list : bool)
    (args_area : option string) : M Session Z :=
  (report (Logged INFO NoteGettingBridgeInfo) ;;;
   bridge_info <~ in_session (get_bridge_info hue_get bridge_ip app_key) ;;
   report (Logged INFO (NoteBridgeId (bi_id bridge_info))) ;;;
   report (Logged INFO (NoteBridgeName (bi_name bridge_info))) ;;;
   created <~ try_except any_Exception
                (call (create_bridge_raises host bridge_info) ;;;
                 report (Logged INFO NoteBridgeCreated) ;;;
                 ret true)
                (fun e => report (Logged ERROR (NoteFailedBridge e)) ;;; ret false) ;;
   if created : bool then in_session (main_areas svc args_list args_area) else ret 4)%stmt.

(** A session that has just started. *)
Definition fresh_session : Session :=
  {| session_world := fresh_world; session_events := []; saved := [] |}.

(** A machine whose configuration file cannot be written. *)
Definition read_only_host : Host :=
  {| write_config_raises := fun _ => Some (LibraryError "Permission denied");
     create_bridge_raises := fun _ => None;
     dict_slice_error := TypeError |}.


(** A bridge whose button is pressed before the first request. *)
Definition pressed_at_once : Env :=
  {| answer := fun _ _ =>
       {| latency := 10;
          reply := Return (JList [JDict [("success",
                     JDict [("username", JStr "NEWTOKEN-0123456789");
                            ("clientkey", JStr "NEWCLIENTKEY-0123456789")])]]);
          oversleep := 0 |};
     utcnow_isoformat := fun _ => "2024-01-01T00:00:00" |}.

(** A bridge that does not answer the query about itself. *)
Definition silent_bridge (bridge_ip app_key path : string) : result json :=
  Raise (RequestException "read timeout").

(** An answer of the bridge resource with an owner and a name. *)
Definition bridge_answer : json :=
  JDict [("errors", JList []);
         ("data", JList [JDict [("id", JStr "0a1b2c3d");
                                ("owner", JDict [("rid", JStr "9f8e7d6c");
                                                 ("rtype", JStr "device")]);
                                ("metadata", JDict [("name", JStr "Hue Bridge Upstairs")]);
                                ("type", JStr "bridge")]])].

(** Queries that are answered by a fixed value. *)
Definition answers (v : json) (bridge_ip app_key path : string) : result json :=
  Return v.

(** The record the handler writes for an input it pushed while the count
    of packets is at most two: [Light {idx+1}: RGB({r},{g},{b})] with the
    three bytes of the block. *)
Definition light_record (dmx : list byte) (u : Input) : LogRecord :=
  (INFO, MsgLight (light_index u + 1)
           (nth (light_index u * 3) dmx x00)
           (nth (light_index u * 3 + 1) dmx x00)
           (nth (light_index u * 3 + 2) dmx x00)).

(* ===================================================================== *)
(** ** The turns of the pairing loop                                      *)
(* ===================================================================== *)

(** What a reply makes of the turn of the loop that receives it. The
    turn ends the handshake ([Ends]: a [return] from the success block, or
    an exception the [except] clause does not catch), or the loop goes on
    after it: after a request that failed with a [RequestException]
    ([Failed], with [str(e)]), after an error response ([Refused], with
    its description), or after a reply that holds neither credentials nor
    an error ([Ignored]). *)
Inductive Turn : Type :=
| Ends
| Failed (message : string)
| Refused (description : string)
| Ignored.

(** The [if "error" in item:] block. *)
Definition error_turn (item : json) : Turn :=
  match py_contains "error" item with
  | Raise _ => Ends
  | Return false => Ignored
  | Return true =>
      match py_getitem_str item "error" with
      | Raise _ => Ends
      | Return err =>
          match py_get err "description" (JStr "") with
          | Return (JStr d) => Refused d
          | Return _ => Ends
          | Raise _ => Ends
          end
      end
  end.

(** The [if "success" in item:] block, then the error block. *)
Definition item_turn (item : json) : Turn :=
  match py_contains "success" item with
  | Raise _ => Ends
  | Return false => error_turn item
  | Return true =>
      match py_getitem_str item "success" with
      | Raise _ => Ends
      | Return success =>
          match py_get success "username" JNull, py_get success "clientkey" JNull with
          | Return username, Return clientkey =>
              if py_truthy username && py_truthy clientkey then Ends else error_turn item
          | _, _ => Ends
          end
      end
  end.

Definition turn_of (r : result json) : Turn :=
  match r with
  | Raise e => if is_request_exception e then Failed (exn_str e) else Ends
  | Return (JList (item :: _)) => item_turn item
  | Return _ => Ignored
  end.

(** What a turn the loop goes on after prints: the description of an
    error response unless it mentions the link button, then the
    animation. *)
Definition turn_output (t : Turn) (dots : Z) : list Out :=
  match t with
  | Refused d => attempt_output d dots
  | _ => [OutWaiting dots]
  end.

Fixpoint turns_output (env : Env) (url : string) (k : nat) (dots : Z) (n : nat) : list Out :=
  match n with
  | O => []
  | S n' =>
      turn_output (turn_of (reply (answer env url k))) ((dots + 1) mod 4) ++
      turns_output env url (S k) ((dots + 1) mod 4) n'
  end.

(** [last_err] after a turn the loop goes on after. *)
Definition record (t : Turn) (last : json) : json :=
  match t with
  | Failed m => JStr m
  | Refused d => JStr d
  | _ => last
  end.

(** [last_err] after [n] turns from the request numbered [k] on. *)
Fixpoint last_recorded (env : Env) (url : string) (k n : nat) (last : json) : json :=
  match n with
  | O => last
  | S n' => last_recorded env url (S k) n' (record (turn_of (reply (answer env url k))) last)
  end.

(** A bridge that answers "unauthorized user" once and cannot be reached
    afterwards. *)
Definition unauthorized_then_unreachable : Env :=
  {| answer := fun _ k =>
       match k with
       | O => {| latency := 10; reply := Return (error_reply "unauthorized user");
                 oversleep := 0 |}
       | _ => {| latency := 3000; reply := Raise (RequestException "connect timeout");
                 oversleep := 0 |}
       end;
     utcnow_isoformat := fun _ => "2024-01-01T00:00:00" |}.

(* ===================================================================== *)
(** ** Running statements                                                 *)
(* ===================================================================== *)

Ltac run :=
  unfold try_except, bind, ret, raise, lift, modify, gets, any_Exception in *;
  cbn [fst snd] in *.

Lemma bind_Return {S A B} (m : M S A) (k : A -> M S B) s a s' :
  m s = (Return a, s') -> bind m k s = k a s'.
Proof. intros E. unfold bind. now rewrite E. Qed.

Lemma bind_Raise {S A B} (m : M S A) (k : A -> M S B) s e s' :
  m s = (Raise e, s') -> bind m k s = (Raise e, s').
Proof. intros E. unfold bind. now rewrite E. Qed.

(* ===================================================================== *)
(** ** [get_bridge_info] and [stop_streaming]                             *)
(* ===================================================================== *)

(** The software version the body builds is the constant. *)
Lemma bridge_info_of_swversion data info :
  bridge_info_of data = Return (Some info) -> bi_swversion info = 1962097030.
Proof.
  unfold bridge_info_of, rbind.
  repeat match goal with
         | |- context [match ?x with _ => _ end] => destruct x; try discriminate
         end.
  intros [= <-]. reflexivity.
Qed.

(** C9. [get_bridge_info] returns a record whatever [hue_get] does: the
    record the body builds when the query and the body succeed, the fixed
    fallback record when the answer holds no bridge, and the fallback with
    a logged warning when the query or the body raises; the software
    version of the record returned is always 1962097030. *)
Theorem get_bridge_info_total :
  forall hue_get bridge_ip app_key w,
  exists info w',
    get_bridge_info hue_get bridge_ip app_key w = (Return info, w') /\
    bi_swversion info = 1962097030 /\
    match hue_get bridge_ip app_key "/clip/v2/resource/bridge" with
    | Raise e =>
        info = fallback_bridge_info /\
        w' = snd (log_world WARNING (MsgNoBridgeInfo e) w)
    | Return data =>
        match bridge_info_of data with
        | Return (Some built) => info = built /\ w' = w
        | Return None => info = fallback_bridge_info /\ w' = w
        | Raise e =>
            info = fallback_bridge_info /\
            w' = snd (log_world WARNING (MsgNoBridgeInfo e) w)
        end
    end.
Proof.
  intros hue_get bridge_ip app_key w.
  unfold get_bridge_info. run.
  destruct (hue_get bridge_ip app_key "/clip/v2/resource/bridge") as [data | e]; cbn.
  - destruct (bridge_info_of data) as [[built |] | e] eqn:E; cbn.
    + exists built, w. repeat split. eapply bridge_info_of_swversion; eassumption.
    + exists fallback_bridge_info, w. repeat split.
    + eexists _, _. repeat split.
  - eexists _, _. repeat split.
Qed.

(** C8. [stop_streaming] returns normally whatever [stop_stream] does:
    when the library call raises, the error is logged after the
    announcement and nothing propagates; when it returns, the stream is
    closed and the stop is logged. *)
Theorem stop_streaming_never_raises :
  forall (lib : StreamingLibrary) (self : Bridge),
  exists self',
    stop_streaming self = (Return tt, self') /\
    journal self' =
      journal self ++
      match stop_stream_raises (streaming self) with
      | Some e => [(INFO, MsgStopping); (ERROR, MsgErrorStopping e)]
      | None => [(INFO, MsgStopping); (INFO, MsgStopped)]
      end /\
    input_queue (streaming self') = input_queue (streaming self).
Proof.
  intros lib self.
  unfold stop_streaming, stop_stream, log_bridge, set_streaming. run. cbn.
  destruct (stop_stream_raises (streaming self)) as [e |]; cbn;
    eexists; (split; [reflexivity |]); cbn; rewrite <- ?app_assoc; auto.
Qed.

(* ===================================================================== *)
(** ** [ensure_app_key] without a forced re-pair                          *)
(* ===================================================================== *)

Lemma py_or_truthy a b :
  py_truthy (py_or a b) = py_truthy a || py_truthy b.
Proof. unfold py_or. destruct (py_truthy a) eqn:E; cbn; auto. Qed.

(** C7. A stored configuration with an access token and no client key
    makes [ensure_app_key], when no re-pair is forced, raise the error
    that asks for [--re-pair], whatever token the command line gives: no
    pairing request is sent, no time passes, and only the notice is
    printed. *)
Theorem missing_clientkey_is_not_repaired :
  forall env bridge_ip app_key (cfg : gmap string json) w,
    py_truthy (cfg_get cfg "app_key") = true ->
    py_truthy (cfg_get cfg "clientkey") = false ->
    exists w',
      ensure_app_key env bridge_ip app_key cfg false w =
        Some (Raise (RuntimeError "Missing clientkey. Run with --re-pair"), w') /\
      posts w' = posts w /\
      clock w' = clock w /\
      stdout w' = stdout w ++ [OutMissingClientkey] /\
      logged w' = logged w.
Proof.
  intros env bridge_ip app_key cfg w Htoken Hkey.
  unfold ensure_app_key.
  rewrite py_or_truthy, Htoken, Hkey, orb_true_r. cbn.
  eexists. split; [reflexivity |]. cbn. auto.
Qed.

(** C10. A command-line token and a stored client key are returned as a
    pair when no re-pair is forced, for every stored configuration: the
    token stored next to the client key, if any, is not looked at, no
    request is sent and the configuration is returned as it was. *)
Theorem cli_token_pairs_with_stored_clientkey :
  forall env bridge_ip token (cfg : gmap string json) w,
    str_nonempty token = true ->
    py_truthy (cfg_get cfg "clientkey") = true ->
    exists w',
      ensure_app_key env bridge_ip (Some token) cfg false w =
        Some (Return (JStr token, cfg_get cfg "clientkey", cfg), w') /\
      posts w' = posts w /\
      clock w' = clock w /\
      stdout w' = stdout w.
Proof.
  intros env bridge_ip token cfg w Htoken Hkey.
  unfold ensure_app_key, py_or. cbn [of_optional py_truthy].
  rewrite Htoken. cbn [py_truthy]. rewrite Htoken, Hkey. cbn.
  eexists. split; [reflexivity |]. cbn. auto.
Qed.

(* ===================================================================== *)
(** ** Area selection                                                     *)
(* ===================================================================== *)

(** The loop of [__init__] compares area ids only: it finds nothing
    exactly when no id equals the request up to case. *)
Lemma find_area_None (catalog : Catalog) request :
  find_area catalog request = None <->
  (forall area_id config, In (area_id, config) catalog -> lower area_id <> lower request).
Proof.
  induction catalog as [| [id0 c0] rest IH]; cbn.
  - split; [intros _ ? ? [] | reflexivity].
  - destruct (String.eqb (lower id0) (lower request)) eqn:E.
    + split; [discriminate |].
      intros H. apply String.eqb_eq in E. exfalso. exact (H id0 c0 (or_introl eq_refl) E).
    + rewrite IH. apply String.eqb_neq in E. split.
      * intros H area_id config [[= <- <-] | Hin]; [exact E | eauto].
      * intros H area_id config Hin. apply (H area_id config). now right.
Qed.

Lemma find_area_Some (catalog : Catalog) request config area_name :
  find_area catalog request = Some (config, area_name) ->
  area_name = request /\
  exists area_id, In (area_id, config) catalog /\ lower area_id = lower request.
Proof.
  induction catalog as [| [id0 c0] rest IH]; cbn; [discriminate |].
  destruct (String.eqb (lower id0) (lower request)) eqn:E.
  - intros [= <- <-]. apply String.eqb_eq in E. split; [reflexivity |].
    exists id0. auto.
  - intros H. destruct (IH H) as [-> [area_id [Hin Hl]]]. split; [reflexivity |].
    exists area_id. auto.
Qed.

Lemma select_area_not_found (catalog : Catalog) request w :
  find_area catalog request = None ->
  select_area (Return catalog) request w =
    (Raise (ValueError (not_found_message request)),
     {| clock := clock w; posts := posts w; stdout := stdout w;
        logged := logged w ++ [(INFO, MsgFoundConfigs (List.length catalog));
                               (ERROR, MsgFailedConfigs
                                         (ValueError (not_found_message request)))] |}).
Proof.
  intros H. unfold select_area, log_world. run. rewrite H. cbn.
  now rewrite <- app_assoc.
Qed.

(** In the catalog of the example an id selects its area whatever its
    case, and neither a display name nor a prefix selects anything. *)
Example find_area_in_living_catalog :
  find_area living_catalog "3F2A6C1E-0001" =
    Some ({| name := "Living Room"; channels := [0; 1; 2]%nat |}, "3F2A6C1E-0001") /\
  find_area living_catalog "living room" = None /\
  find_area living_catalog "Liv" = None /\
  find_area living_catalog "3f2a" = None.
Proof. repeat split. Qed.

(** C1. Selection looks at area ids only. When no id of the catalog
    equals the request up to case, [__init__] raises the not-found error,
    whatever the display names of the entries are: an entry named
    "Living Room" is not selected by "living room". *)
Theorem select_area_ignores_display_names :
  forall (catalog : Catalog) request w,
    (forall area_id config, In (area_id, config) catalog -> lower area_id <> lower request) ->
    fst (select_area (Return catalog) request w) =
      Raise (ValueError (not_found_message request)).
Proof.
  intros catalog request w H.
  apply find_area_None in H.
  now rewrite (select_area_not_found catalog request w H).
Qed.

(* ===================================================================== *)
(** ** The empty catalog in [main]                                        *)
(* ===================================================================== *)



(* ===================================================================== *)
(** ** The packet handler                                                 *)
(* ===================================================================== *)

Lemma normalize_in_unit_interval (b : byte) :
  in_unit_interval (normalize b) = true.
Proof. destruct b; vm_compute; reflexivity. Qed.

Lemma dmx_at_in_range (dmx : list byte) i :
  (i < List.length dmx)%nat -> dmx_at dmx i = Return (nth i dmx x00).
Proof.
  intros H. unfold dmx_at. now rewrite (nth_error_nth' dmx x00 H).
Qed.

Section Handler.
Context {lib : StreamingLibrary}.

(** One turn of the loop over the lights: it touches the input queue and
    the journal only, pushes [slot_update dmx idx] unless the library
    raises, and raises only when the library does. *)
Lemma light_step (dmx : list byte) idx self :
  exists r self' ups,
    light dmx idx self = (r, self') /\
    num_lights self' = num_lights self /\
    packet_count self' = packet_count self /\
    input_queue (streaming self') = input_queue (streaming self) ++ ups /\
    ((r = Return tt /\ ups = slot_update dmx idx) \/
     (exists e, r = Raise e /\ ups = [] /\
                set_input_raises (streaming self)
                  (normalize (nth (idx * 3) dmx x00),
                   normalize (nth (idx * 3 + 1) dmx x00),
                   normalize (nth (idx * 3 + 2) dmx x00), idx) = Some e)).
Proof.
  unfold light, slot_update.
  destruct (idx * 3 + 3 <=? List.length dmx)%nat eqn:G.
  - apply Nat.leb_le in G.
    rewrite Nat.add_0_r.
    rewrite !dmx_at_in_range by lia.
    unfold set_input, set_streaming, log_bridge. run. cbn.
    destruct (set_input_raises (streaming self) _) as [e |] eqn:E; cbn.
    + exists (Raise e), self, []. rewrite app_nil_r. repeat split.
      right. exists e. auto.
    + destruct (Z.leb (packet_count self) 2); cbn;
        eexists (Return tt), _, _; cbn; repeat split; left; auto.
  - run. exists (Return tt), self, []. rewrite app_nil_r. repeat split. left. auto.
Qed.

(** The loop pushes a prefix of what the Translator yields, all of it
    when the library accepts every input. *)
Lemma lights_from (dmx : list byte) n :
  forall a self,
  exists r self' ups rest,
    for_each (seq a n) (light dmx) self = (r, self') /\
    num_lights self' = num_lights self /\
    packet_count self' = packet_count self /\
    input_queue (streaming self') = input_queue (streaming self) ++ ups /\
    flat_map (slot_update dmx) (seq a n) = ups ++ rest /\
    (accepts_every_input -> rest = [] /\ r = Return tt).
Proof.
  induction n as [| n IH]; intros a self; cbn [seq for_each flat_map].
  - exists (Return tt), self, [], []. rewrite app_nil_r. repeat split.
  - destruct (light_step dmx a self) as (r1 & self1 & ups1 & E1 & Hn & Hc & Hq & Hcase).
    destruct Hcase as [[-> ->] | (e & -> & -> & Hraise)].
    + destruct (IH (S a) self1) as (r & self' & ups & rest & E & Hn' & Hc' & Hq' & Hf & Hacc).
      exists r, self', (slot_update dmx a ++ ups), rest.
      rewrite (bind_Return _ _ _ _ _ E1), E.
      rewrite Hn', Hc', Hq', Hn, Hc, Hq, Hf, !app_assoc. repeat split; apply Hacc; assumption.
    + exists (Raise e), self1, [], (slot_update dmx a ++ flat_map (slot_update dmx) (seq (S a) n)).
      rewrite (bind_Raise _ _ _ _ _ E1). repeat split; auto;
        match goal with
        | Hacc : accepts_every_input |- _ => rewrite Hacc in Hraise; discriminate
        end.
Qed.

(** The statements before the loop count the packet and write to the
    journal. *)
Lemma on_dmx_data_pushes (packet : Packet) self :
  exists self' ups rest,
    _on_dmx_data packet self = (Return tt, self') /\
    num_lights self' = num_lights self /\
    packet_count self' = packet_count self + 1 /\
    input_queue (streaming self') = input_queue (streaming self) ++ ups /\
    translate (dmxData packet) (num_lights self) = ups ++ rest /\
    (accepts_every_input -> rest = []).
Proof.
  unfold _on_dmx_data, translate.
  set (prefix := fun (j : list LogRecord) =>
    {| num_lights := num_lights self; packet_count := packet_count self + 1;
       streaming := streaming self; journal := j |}).
  assert (Hloop : forall j, exists self' ups rest,
    try_except any_Exception (for_each (seq 0 (num_lights self)) (light (dmxData packet)))
      (fun e => log_bridge ERROR (MsgErrorProcessing e)) (prefix j) = (Return tt, self') /\
    num_lights self' = num_lights self /\
    packet_count self' = packet_count self + 1 /\
    input_queue (streaming self') = input_queue (streaming self) ++ ups /\
    flat_map (slot_update (dmxData packet)) (seq 0 (num_lights self)) = ups ++ rest /\
    (accepts_every_input -> rest = [])).
  { intros j.
    destruct (lights_from (dmxData packet) (num_lights self) 0%nat (prefix j))
      as (r & self' & ups & rest & E & Hn & Hc & Hq & Hf & Hacc).
    unfold try_except, any_Exception. rewrite E.
    destruct r as [[] | e].
    - exists self', ups, rest. repeat split; auto. apply Hacc.
    - unfold log_bridge, modify. eexists _, ups, rest. cbn.
      repeat split; auto. apply Hacc. }
  unfold count_packet, log_bridge. unfold try_except at 1.
  unfold try_except, any_Exception in Hloop.
  run. cbn.
  destruct (Z.eqb (packet_count self + 1) 1);
    destruct (Z.eqb ((packet_count self + 1) mod 500) 0); cbn;
    match goal with
    | |- context [for_each _ _ ?s] =>
        match s with
        | {| journal := ?j |} => destruct (Hloop j) as (self' & ups & rest & E & H)
        end
    end;
    unfold prefix in E; exists self', ups, rest; split; auto;
    destruct (for_each _ _ _) as [[[] | e] s1]; exact E.
Qed.
End Handler.

Section HandlerRuns.
Context {lib : StreamingLibrary}.

(** What [light] does, case by case. *)
Lemma light_eq (dmx : list byte) idx self :
  light dmx idx self =
    if (idx * 3 + 3 <=? List.length dmx)%nat then
      let u := (normalize (nth (idx * 3) dmx x00),
                normalize (nth (idx * 3 + 1) dmx x00),
                normalize (nth (idx * 3 + 2) dmx x00), idx) in
      match set_input_raises (streaming self) u with
      | Some e => (Raise e, self)
      | None =>
          (Return tt,
           {| num_lights := num_lights self;
              packet_count := packet_count self;
              streaming := {| input_queue := input_queue (streaming self) ++ [u];
                              streaming_open := streaming_open (streaming self) |};
              journal := journal self ++
                         (if Z.leb (packet_count self) 2
                          then [(INFO, MsgLight (idx + 1) (nth (idx * 3) dmx x00)
                                          (nth (idx * 3 + 1) dmx x00)
                                          (nth (idx * 3 + 2) dmx x00))]
                          else []) |})
      end
    else (Return tt, self).
Proof.
  unfold light.
  destruct (idx * 3 + 3 <=? List.length dmx)%nat eqn:G; [| reflexivity].
  apply Nat.leb_le in G. rewrite Nat.add_0_r.
  rewrite !dmx_at_in_range by lia.
  unfold set_input, set_streaming, log_bridge. run. cbn.
  destruct (set_input_raises (streaming self) _) as [e |]; cbn; [reflexivity |].
  destruct (Z.leb (packet_count self) 2); cbn; [reflexivity |].
  now rewrite app_nil_r.
Qed.

(** The loop over the lights, with what it leaves in the journal and
    the input it stopped at. *)
Lemma lights_run (dmx : list byte) n :
  forall a self,
  exists r self' ups rest js,
    for_each (seq a n) (light dmx) self = (r, self') /\
    num_lights self' = num_lights self /\
    packet_count self' = packet_count self /\
    streaming self' = {| input_queue := input_queue (streaming self) ++ ups;
                         streaming_open := streaming_open (streaming self) |} /\
    journal self' = journal self ++ js /\
    List.Forall (fun rec : LogRecord => fst rec = INFO) js /\
    (2 < packet_count self -> js = []) /\
    js = (if Z.leb (packet_count self) 2 then map (light_record dmx) ups else []) /\
    flat_map (slot_update dmx) (seq a n) = ups ++ rest /\
    match r with
    | Return _ => rest = []
    | Raise e =>
        exists u rest',
          rest = u :: rest' /\
          set_input_raises {| input_queue := input_queue (streaming self) ++ ups;
                              streaming_open := streaming_open (streaming self) |} u = Some e
    end.
Proof.
  induction n as [| n IH]; intros a self; cbn [seq for_each flat_map].
  - exists (Return tt), self, [], [], []. rewrite !app_nil_r.
    destruct self as [nl pc [q o] j]. cbn. repeat split; auto.
    now destruct (Z.leb pc 2).
  - unfold bind. rewrite light_eq. unfold slot_update at 1.
    destruct (a * 3 + 3 <=? List.length dmx)%nat.
    + cbv zeta.
      match goal with |- context [set_input_raises _ ?x] => set (u := x) end.
      destruct (set_input_raises (streaming self) u) as [e |] eqn:E.
      * exists (Raise e), self, [], (u :: flat_map (slot_update dmx) (seq (S a) n)), [].
        rewrite !app_nil_r. destruct self as [nl pc [q o] j]. cbn in *.
        repeat split; auto; [now destruct (Z.leb pc 2) | eauto].
      * match goal with |- context [for_each _ _ ?s] => set (self1 := s) end.
        destruct (IH (S a) self1)
          as (r & self' & ups & rest & js & E1 & Hn & Hc & Hs & Hj & Hinfo & Hq & Hrec & Hf & Hr).
        exists r, self', (u :: ups), rest.
        exists ((if Z.leb (packet_count self) 2
                 then [(INFO, MsgLight (a + 1) (nth (a * 3) dmx x00)
                                 (nth (a * 3 + 1) dmx x00) (nth (a * 3 + 2) dmx x00))]
                 else []) ++ js).
        subst self1. cbn in *. rewrite E1, Hn, Hc, Hs, Hj, Hf, <- !app_assoc. cbn.
        repeat split; auto.
        -- apply List.Forall_app. split; [| assumption].
           destruct (Z.leb (packet_count self) 2); repeat constructor.
        -- intros H2. rewrite (Hq H2).
           destruct (Z.leb_spec (packet_count self) 2); [lia | reflexivity].
        -- rewrite Hrec. destruct (Z.leb (packet_count self) 2); reflexivity.
        -- destruct r; [assumption |].
           destruct Hr as (u' & rest' & -> & Hraise).
           exists u', rest'. rewrite <- app_assoc in Hraise. auto.
    + destruct (IH (S a) self)
        as (r & self' & ups & rest & js & E1 & H).
      exists r, self', ups, rest, js. rewrite E1. cbn. auto.
Qed.

(** The handler as a whole: what it pushes, what it writes, and where it
    stopped. *)
Lemma on_dmx_data_run (packet : Packet) self :
  exists self' ups rest js tail,
    _on_dmx_data packet self = (Return tt, self') /\
    num_lights self' = num_lights self /\
    packet_count self' = packet_count self + 1 /\
    streaming self' = {| input_queue := input_queue (streaming self) ++ ups;
                         streaming_open := streaming_open (streaming self) |} /\
    translate (dmxData packet) (num_lights self) = ups ++ rest /\
    journal self' =
      journal self ++ packet_records (packet_count self + 1) packet ++ js ++ tail /\
    List.Forall (fun rec : LogRecord => fst rec = INFO) js /\
    (2 < packet_count self + 1 -> js = []) /\
    js = (if Z.leb (packet_count self + 1) 2
          then map (light_record (dmxData packet)) ups else []) /\
    match rest with
    | [] => tail = []
    | u :: _ =>
        exists e,
          set_input_raises {| input_queue := input_queue (streaming self) ++ ups;
                              streaming_open := streaming_open (streaming self) |} u = Some e /\
          tail = [(ERROR, MsgErrorProcessing e)]
    end.
Proof.
  unfold _on_dmx_data, translate.
  set (start := {| num_lights := num_lights self; packet_count := packet_count self + 1;
                   streaming := streaming self;
                   journal := journal self ++ packet_records (packet_count self + 1) packet |}).
  assert (Hstart : forall k : unit -> M Bridge unit,
    bind count_packet (fun _ =>
      bind (gets packet_count) (fun count =>
        bind (if Z.eqb count 1 then
                bind (log_bridge INFO MsgRule) (fun _ =>
                bind (log_bridge INFO MsgFirstPacket) (fun _ =>
                bind (log_bridge INFO MsgRule) (fun _ =>
                bind (log_bridge INFO (MsgUniverse (universe packet))) (fun _ =>
                bind (log_bridge INFO (MsgDmxLength (List.length (dmxData packet)))) (fun _ =>
                bind (log_bridge INFO (MsgFirst20 (firstn 20 (dmxData packet)))) (fun _ =>
                log_bridge INFO MsgRule))))))
              else ret tt) (fun _ =>
        bind (if Z.eqb (count mod 500) 0
              then log_bridge INFO (MsgReceivedPackets count) else ret tt) (fun _ =>
        bind (log_bridge DEBUG (MsgPacket count (List.length (dmxData packet)))) k)))) self
    = k tt start).
  { intros k. unfold start, count_packet, log_bridge, packet_records. run. cbn.
    destruct (Z.eqb (packet_count self + 1) 1);
      destruct (Z.eqb ((packet_count self + 1) mod 500) 0); cbn;
      rewrite <- ?app_assoc; reflexivity. }
  unfold try_except, any_Exception. rewrite Hstart.
  unfold bind at 1, gets at 1.
  destruct (lights_run (dmxData packet) (num_lights self) 0%nat start)
    as (r & self' & ups & rest & js & E & Hn & Hc & Hs & Hj & Hinfo & Hq & Hrec & Hf & Hr).
  change (num_lights start) with (num_lights self). rewrite E.
  destruct r as [[] | e].
  - subst rest. rewrite app_nil_r in Hf.
    exists self', ups, [], js, []. rewrite !app_nil_r.
    rewrite Hj. unfold start. cbn. repeat split; auto.
    now rewrite <- app_assoc.
  - destruct Hr as (u & rest' & -> & Hraise).
    unfold log_bridge, modify.
    eexists _, ups, (u :: rest'), js, [(ERROR, MsgErrorProcessing e)]. cbn.
    rewrite Hn, Hc, Hs, Hj. unfold start. cbn. rewrite <- !app_assoc.
    repeat split; auto. eauto.
Qed.
End HandlerRuns.

Lemma packet_records_levels count packet :
  List.Forall (fun rec : LogRecord => fst rec <> ERROR) (packet_records count packet).
Proof.
  unfold packet_records.
  destruct (Z.eqb count 1); destruct (Z.eqb (count mod 500) 0); cbn;
    repeat constructor; discriminate.
Qed.

Lemma in_translate (frame : list byte) n u :
  In u (translate frame n) <->
  (light_index u < n)%nat /\ (light_index u * 3 + 3 <= List.length frame)%nat /\
  u = (normalize (nth (light_index u * 3) frame x00),
       normalize (nth (light_index u * 3 + 1) frame x00),
       normalize (nth (light_index u * 3 + 2) frame x00), light_index u).
Proof.
  unfold translate. rewrite in_flat_map. split.
  - intros (i & Hi & Hu). apply in_seq in Hi. unfold slot_update in Hu.
    destruct (i * 3 + 3 <=? List.length frame)%nat eqn:G; [| destruct Hu].
    apply Nat.leb_le in G. destruct Hu as [<- | []]. cbn. repeat split; auto; lia.
  - intros (Hi & G & Hu). exists (light_index u). split; [apply in_seq; lia |].
    unfold slot_update. apply Nat.leb_le in G. rewrite G. left. now symmetry.
Qed.

Lemma length_translate (frame : list byte) n :
  (List.length (translate frame n) <= n)%nat.
Proof.
  unfold translate. generalize 0%nat.
  induction n as [| n IH]; intros a; cbn; [lia |].
  rewrite length_app. specialize (IH (S a)).
  unfold slot_update at 1. destruct (a * 3 + 3 <=? List.length frame)%nat; cbn; lia.
Qed.

Lemma translate_full (frame : list byte) n :
  List.length frame = (n * 3)%nat ->
  translate frame n =
    map (fun i => (normalize (nth (i * 3) frame x00),
                   normalize (nth (i * 3 + 1) frame x00),
                   normalize (nth (i * 3 + 2) frame x00), i)) (seq 0 n).
Proof.
  intros Hlen. unfold translate.
  assert (H : forall i, In i (seq 0 n) -> (i * 3 + 3 <=? List.length frame)%nat = true).
  { intros i Hi. apply in_seq in Hi. apply Nat.leb_le. lia. }
  revert H. generalize (seq 0 n) as l.
  induction l as [| i l IH]; intros H; cbn; [reflexivity |].
  unfold slot_update at 1. rewrite (H i (or_introl eq_refl)). cbn.
  f_equal. apply IH. intros j Hj. apply H. now right.
Qed.

(** C2. A frame of exactly [num_lights * 3] bytes, handled with a library
    that accepts every input, makes the handler return normally having
    pushed [num_lights] inputs, the one of light [i] at place [i]: the
    three bytes of block [i], each divided by [255.0], with index [i];
    every component lies in [[0.0, 1.0]]. *)
Theorem full_frame_updates_every_light :
  forall (lib : StreamingLibrary) (packet : Packet) (self : Bridge),
    accepts_every_input ->
    List.length (dmxData packet) = (num_lights self * 3)%nat ->
    exists self' ups,
      _on_dmx_data packet self = (Return tt, self') /\
      input_queue (streaming self') = input_queue (streaming self) ++ ups /\
      List.length ups = num_lights self /\
      map light_index ups = seq 0 (num_lights self) /\
      ups = map (fun i => (normalize (nth (i * 3) (dmxData packet) x00),
                           normalize (nth (i * 3 + 1) (dmxData packet) x00),
                           normalize (nth (i * 3 + 2) (dmxData packet) x00), i))
                (seq 0 (num_lights self)) /\
      Forall (fun u : Input =>
                let '(r, g, b, _) := u in
                in_unit_interval r && in_unit_interval g && in_unit_interval b = true)
             ups.
Proof.
  intros lib packet self Hacc Hlen.
  destruct (on_dmx_data_pushes packet self) as (self' & ups & rest & E & _ & _ & Hq & Ht & Hrest).
  rewrite (Hrest Hacc), app_nil_r, (translate_full _ _ Hlen) in Ht.
  exists self', ups. subst ups. repeat split; auto.
  - now rewrite length_map, length_seq.
  - rewrite map_map. cbn. apply map_id.
  - apply List.Forall_forall. intros u Hu. apply in_map_iff in Hu.
    destruct Hu as (i & <- & _).
    now rewrite !normalize_in_unit_interval.
Qed.

(** C3. Whatever the frame and the library, the handler returns normally;
    the inputs it pushed are at most [num_lights], each for a light below
    [num_lights] whose 3-byte block the frame holds. When the library
    accepts every input, a light below [num_lights] gets its input exactly
    when the frame holds [i * 3 + 3] bytes: a short frame costs the lights
    it does not cover, nothing else. A light that is skipped is skipped in
    silence: every [ERROR] record the handler adds to the journal is for an
    exception the library raised on an input, so with a library that
    accepts every input the journal gains the records of the packet and,
    while the count of packets is at most two, one [INFO] record for each
    input pushed, and nothing for a light the frame does not cover. *)
Theorem partial_frame_skips_uncovered_lights :
  forall (lib : StreamingLibrary) (packet : Packet) (self : Bridge),
  exists self' ups js,
    _on_dmx_data packet self = (Return tt, self') /\
    input_queue (streaming self') = input_queue (streaming self) ++ ups /\
    (List.length ups <= num_lights self)%nat /\
    (forall u, In u ups ->
       (light_index u < num_lights self)%nat /\
       (light_index u * 3 + 3 <= List.length (dmxData packet))%nat) /\
    (accepts_every_input ->
     forall i, (i < num_lights self)%nat ->
       ((exists u, In u ups /\ light_index u = i) <->
        (i * 3 + 3 <= List.length (dmxData packet))%nat)) /\
    journal self' = journal self ++ js /\
    (forall rec, In rec js -> fst rec = ERROR ->
       exists s u e, set_input_raises s u = Some e /\ rec = (ERROR, MsgErrorProcessing e)) /\
    (accepts_every_input ->
     js = packet_records (packet_count self + 1) packet ++
          (if Z.leb (packet_count self + 1) 2
           then map (light_record (dmxData packet)) ups else [])).
Proof.
  intros lib packet self.
  destruct (on_dmx_data_run packet self)
    as (self' & ups & rest & js & tail & E & _ & _ & Hs & Ht & Hj & Hinfo & _ & Hrec & Hr).
  assert (Hq : input_queue (streaming self') = input_queue (streaming self) ++ ups)
    by now rewrite Hs.
  assert (Hrest : accepts_every_input -> rest = [] /\ tail = []).
  { intros Hacc. destruct rest as [| u rest]; [auto |].
    destruct Hr as (e & Hraise & _). rewrite Hacc in Hraise. discriminate. }
  exists self', ups, (packet_records (packet_count self + 1) packet ++ js ++ tail).
  split; [exact E |]. split; [exact Hq |].
  assert (Hin : forall u, In u ups -> In u (translate (dmxData packet) (num_lights self))).
  { intros u Hu. rewrite Ht. apply in_or_app. now left. }
  split; [| split; [| split; [| split; [| split]]]].
  - pose proof (length_translate (dmxData packet) (num_lights self)) as Hl.
    rewrite Ht, length_app in Hl. lia.
  - intros u Hu. apply Hin, in_translate in Hu. tauto.
  - intros Hacc i Hi. destruct (Hrest Hacc) as [-> _].
    rewrite app_nil_r in Ht. subst ups. split.
    + intros (u & Hu & <-). apply in_translate in Hu. tauto.
    + intros G.
      exists (normalize (nth (i * 3) (dmxData packet) x00),
              normalize (nth (i * 3 + 1) (dmxData packet) x00),
              normalize (nth (i * 3 + 2) (dmxData packet) x00), i).
      split; [apply in_translate; cbn; repeat split; auto | reflexivity].
  - exact Hj.
  - intros rec Hin' Herr.
    apply in_app_or in Hin'. destruct Hin' as [Hin' | Hin'].
    { pose proof (packet_records_levels (packet_count self + 1) packet) as Hl.
      rewrite List.Forall_forall in Hl. now apply Hl in Hin'. }
    apply in_app_or in Hin'. destruct Hin' as [Hin' | Hin'].
    { rewrite List.Forall_forall in Hinfo. apply Hinfo in Hin'. congruence. }
    destruct rest as [| u rest]; [subst tail; destruct Hin' |].
    destruct Hr as (e & Hraise & ->). destruct Hin' as [<- | []]. eauto.
  - intros Hacc. destruct (Hrest Hacc) as [_ ->]. now rewrite app_nil_r, Hrec.
Qed.

(* ===================================================================== *)
(** ** The pairing loop                                                   *)
(* ===================================================================== *)

Ltac break_in H :=
  match type of H with
  | context [match ?x with _ => _ end] =>
      lazymatch x with
      | context [match _ with _ => _ end] => fail
      | _ => destruct x eqn:?
      end
  end.

(** The [success] block changes the world by its printing only, and
    returns a pair only when both of its halves are truthy. *)
Lemma on_success_spec item st r st' :
  on_success item st = (r, st') ->
  last_err st' = last_err st /\ dots st' = dots st /\
  clock (world st') = clock (world st) /\
  posts (world st') = posts (world st) /\
  (forall u c, r = Return (Some (u, c)) -> py_truthy u = true /\ py_truthy c = true).
Proof.
  unfold on_success, in_world, print. run. intros H.
  repeat (break_in H; cbn in H; try discriminate).
  all: injection H as <- <-; cbn; do 4 (split; [reflexivity |]);
    intros u c E; inversion E; subst; apply andb_prop; assumption.
Qed.

Lemma on_error_spec item st r st' :
  on_error item st = (r, st') ->
  dots st' = dots st /\
  clock (world st') = clock (world st) /\
  posts (world st') = posts (world st).
Proof.
  unfold on_error, in_world, print, set_last_err. run. intros H.
  repeat (break_in H; cbn in H; try discriminate).
  all: injection H as <- <-; cbn; auto.
Qed.

Ltac use_block_specs :=
  repeat match goal with
         | E : on_success _ _ = _ |- _ => apply on_success_spec in E; cbn in E
         | E : on_error _ _ = _ |- _ => apply on_error_spec in E; cbn in E
         end.

(** The [try] sends one request and spends its latency. *)
Lemma try_body_spec env url st r st' :
  try_body env url st = (r, st') ->
  dots st' = dots st /\
  clock (world st') =
    clock (world st) + Z.of_N (latency (answer env url (posts (world st)))) /\
  posts (world st') = S (posts (world st)) /\
  (forall u c, r = Return (Some (u, c)) -> py_truthy u = true /\ py_truthy c = true).
Proof.
  unfold try_body, in_world, post. run. intros H.
  repeat (break_in H; try discriminate).
  all: use_block_specs; injection H as <- <-; cbn; intuition (try congruence).
Qed.

(** A turn of the loop that goes on has slept its two seconds; a turn
    that returns, returns a complete pair. *)
Lemma iteration_spec env url st r st' :
  iteration env url st = (r, st') ->
  posts (world st') = S (posts (world st)) /\
  match r with
  | Return None => clock (world st) + seconds 2 <= clock (world st')
  | Return (Some (u, c)) => py_truthy u = true /\ py_truthy c = true
  | Raise _ => True
  end.
Proof.
  unfold iteration. unfold bind at 1. unfold try_except.
  destruct (try_body env url st) as [r1 st1] eqn:E1.
  apply try_body_spec in E1. destruct E1 as (Hd & Hc & Hp & Ht).
  unfold sleep, set_dots, set_last_err, in_world, print, elapse, seconds. run.
  intros H.
  repeat (break_in H; try discriminate).
  all: injection H as <- <-; cbn in *; subst.
  all: try match goal with p : (json * json)%type |- _ => destruct p end.
  all: try (split; [congruence |]); try lia; eauto.
Qed.

Lemma pairing_loop_S fuel env url deadline st :
  pairing_loop (S fuel) env url deadline st =
    if Z.ltb (clock (world st)) deadline then
      match iteration env url st with
      | (Return None, st') => pairing_loop fuel env url deadline st'
      | (Return (Some c), st') => Some (Return (Some c), st')
      | (Raise e, st') => Some (Raise e, st')
      end
    else Some (Return None, st).
Proof. reflexivity. Qed.

(** Fuel for one test more than the two-second sleeps that fit before
    the deadline is enough. *)
Lemma pairing_loop_terminates env url deadline :
  forall fuel st,
    deadline - clock (world st) <= seconds 2 * Z.of_nat fuel ->
    exists out, pairing_loop (S fuel) env url deadline st = Some out.
Proof.
  induction fuel as [| fuel IH]; intros st Hb; rewrite pairing_loop_S.
  - destruct (Z.ltb_spec (clock (world st)) deadline); [unfold seconds in *; lia | eauto].
  - destruct (Z.ltb (clock (world st)) deadline) eqn:L; [| eauto].
    destruct (iteration env url st) as [r st'] eqn:E.
    pose proof (iteration_spec _ _ _ _ _ E) as [_ Hr].
    destruct r as [[c |] | e]; eauto.
    apply IH. unfold seconds in *. lia.
Qed.

(** The loop returns complete pairs only. *)
Lemma pairing_loop_returns env url deadline :
  forall fuel st u c st',
    pairing_loop fuel env url deadline st = Some (Return (Some (u, c)), st') ->
    py_truthy u = true /\ py_truthy c = true.
Proof.
  induction fuel as [| fuel IH]; intros st u c st'; [discriminate |].
  rewrite pairing_loop_S.
  destruct (Z.ltb (clock (world st)) deadline); [| discriminate].
  destruct (iteration env url st) as [r st1] eqn:E.
  pose proof (iteration_spec _ _ _ _ _ E) as [_ Hr].
  destruct r as [[[u1 c1] |] | e]; try discriminate.
  - intros [= <- <- <-]. exact Hr.
  - apply IH.
Qed.

(** The loop ends without a pair only once the deadline is reached. *)
Lemma pairing_loop_exit env url deadline :
  forall fuel st st',
    pairing_loop fuel env url deadline st = Some (Return None, st') ->
    deadline <= clock (world st').
Proof.
  induction fuel as [| fuel IH]; intros st st'; [discriminate |].
  rewrite pairing_loop_S.
  destruct (Z.ltb_spec (clock (world st)) deadline).
  - destruct (iteration env url st) as [[[c |] | e] st1]; try discriminate. apply IH.
  - intros [= <-]. assumption.
Qed.

Lemma iteration_error_response env url st d :
  error_response (reply (answer env url (posts (world st)))) = Some d ->
  iteration env url st =
    (Return None,
     {| world :=
          {| clock := clock (world st)
                      + Z.of_N (latency (answer env url (posts (world st))))
                      + (seconds 2 + Z.of_N (oversleep (answer env url (posts (world st)))));
             posts := S (posts (world st));
             stdout := stdout (world st) ++ attempt_output d ((dots st + 1) mod 4);
             logged := logged (world st) |};
        last_err := JStr d;
        dots := (dots st + 1) mod 4 |}).
Proof.
  unfold error_response. intros H.
  repeat (break_in H; try discriminate). injection H as ->.
  unfold iteration, try_body, on_success, on_error, sleep, set_dots, set_last_err,
    in_world, post, print, elapse, attempt_output, mentions_link_button.
  run.
  match goal with E : reply _ = _ |- _ => rewrite E end.
  cbn [is_list py_len lift py_getitem_0 py_contains py_getitem_str py_get py_lower
       List.length].
  replace (Z.ltb 0 (Z.of_nat (S (List.length l0)))) with true
    by (symmetry; apply Z.ltb_lt; lia).
  rewrite Heqo, Heqo0. cbn [py_get py_lower]. rewrite Heqo1. cbn [py_lower].
  destruct (str_contains "link button not pressed" (lower d)); cbn;
    rewrite <- ?app_assoc; reflexivity.
Qed.

(** With error responses only, the loop runs to the deadline: it prints
    what [attempts_output] says and remembers the description of the last
    response it got. *)
Lemma pairing_loop_error_responses env url deadline descr :
  (forall k, error_response (reply (answer env url k)) = Some (descr k)) ->
  forall fuel st,
    deadline - clock (world st) <= seconds 2 * Z.of_nat fuel ->
    exists n st',
      pairing_loop (S fuel) env url deadline st = Some (Return None, st') /\
      posts (world st') = (posts (world st) + n)%nat /\
      stdout (world st') =
        stdout (world st) ++ attempts_output descr (posts (world st)) (dots st) n /\
      logged (world st') = logged (world st) /\
      last_err st' = match n with
                     | O => last_err st
                     | S m => JStr (descr (posts (world st) + m)%nat)
                     end /\
      (clock (world st) < deadline -> (1 <= n)%nat).
Proof.
  intros Hall. induction fuel as [| fuel IH]; intros st Hb; rewrite pairing_loop_S.
  - destruct (Z.ltb_spec (clock (world st)) deadline); [unfold seconds in *; lia |].
    exists 0%nat, st. cbn. rewrite Nat.add_0_r, app_nil_r. repeat split; auto; lia.
  - destruct (Z.ltb_spec (clock (world st)) deadline).
    + rewrite (iteration_error_response env url st _ (Hall _)).
      match goal with |- context [pairing_loop _ _ _ _ ?s] => set (st1 := s) end.
      destruct (IH st1) as (n & st' & E & Hp & Ho & Hl & He & _).
      { subst st1. cbn. unfold seconds in *. lia. }
      exists (S n), st'. subst st1. cbn in *.
      rewrite E, Hp, Ho, Hl, <- app_assoc. repeat split; auto; try lia.
      rewrite He. destruct n as [| m].
      * now rewrite Nat.add_0_r.
      * do 2 f_equal. lia.
    + exists 0%nat, st. cbn. rewrite Nat.add_0_r, app_nil_r. repeat split; auto; lia.
Qed.


Lemma on_timeout_spec st :
  on_timeout st =
    (Raise (RuntimeError timeout_message),
     {| world :=
          {| clock := clock (world st); posts := posts (world st);
             stdout := stdout (world st) ++
                       [OutTimeout] ++
                       (if py_truthy (last_err st) then [OutLastError (last_err st)] else []) ++
                       [OutRetryHint];
             logged := logged (world st) |};
        last_err := last_err st;
        dots := dots st |}).
Proof.
  unfold on_timeout, in_world, print. run. cbn.
  destruct (py_truthy (last_err st)); cbn; rewrite <- ?app_assoc; reflexivity.
Qed.

(** [create_entertainment_user] in terms of its loop. *)
Lemma create_entertainment_user_unfold env bridge_ip w :
  create_entertainment_user env bridge_ip w =
    match pairing_loop max_tests env (pairing_url bridge_ip) (clock w + seconds 30)
            {| world := {| clock := clock w; posts := posts w;
                           stdout := stdout w ++ [OutPairingBanner];
                           logged := logged w |};
               last_err := JNull; dots := 0 |} with
    | None => None
    | Some (Return (Some c), st) => Some (Return c, world st)
    | Some (Raise e, st) => Some (Raise e, world st)
    | Some (Return None, st) =>
        Some (fst (on_timeout st), world (snd (on_timeout st)))
    end.
Proof.
  unfold create_entertainment_user. cbn [print modify clock].
  destruct (pairing_loop _ _ _ _ _) as [[[[c |] | e] st] |]; try reflexivity.
  now destruct (on_timeout st).
Qed.

Lemma link_button_is_error_response r :
  link_button_not_pressed r = true ->
  exists d, error_response r = Some d /\ mentions_link_button d = true.
Proof.
  unfold link_button_not_pressed.
  destruct (error_response r) as [d |]; [eauto | discriminate].
Qed.

(** C4. The handshake always comes to an end. If every request is
    answered "link button not pressed", it ends by raising the timeout
    error, and not before the clock has passed the thirty seconds that
    follow its start. Whenever it returns, the token and the client key
    it returns are both present. *)
Theorem pairing_times_out_or_returns_both :
  forall env bridge_ip w,
    (exists out, create_entertainment_user env bridge_ip w = Some out) /\
    (forall username clientkey w',
       create_entertainment_user env bridge_ip w = Some (Return (username, clientkey), w') ->
       py_truthy username = true /\ py_truthy clientkey = true) /\
    ((forall k, link_button_not_pressed (reply (answer env (pairing_url bridge_ip) k)) = true) ->
     exists w',
       create_entertainment_user env bridge_ip w =
         Some (Raise (RuntimeError timeout_message), w') /\
       clock w + seconds 30 <= clock w').
Proof.
  intros env bridge_ip w. rewrite create_entertainment_user_unfold.
  set (st0 := {| world := _; last_err := JNull; dots := 0 |}).
  set (deadline := clock w + seconds 30).
  set (url := pairing_url bridge_ip).
  assert (Hfuel : deadline - clock (world st0) <= seconds 2 * Z.of_nat 15).
  { subst st0 deadline. unfold seconds. cbn. lia. }
  split; [| split].
  - destruct (pairing_loop_terminates env url deadline 15 st0 Hfuel) as [out E].
    change (S 15) with max_tests in E. rewrite E.
    destruct out as [[[c |] | e] st]; eauto.
  - intros username clientkey w' H.
    destruct (pairing_loop max_tests env url deadline st0) as [[[[c |] | e] st] |] eqn:E;
      try discriminate.
    + injection H as -> _. destruct (pairing_loop_returns _ _ _ _ _ _ _ _ E). auto.
    + rewrite on_timeout_spec in H. discriminate.
  - intros Hall.
    set (descr := fun k => match error_response (reply (answer env url k)) with
                           | Some d => d
                           | None => ""
                           end).
    assert (Herr : forall k, error_response (reply (answer env url k)) = Some (descr k)).
    { intros k. destruct (link_button_is_error_response _ (Hall k)) as (d & Hd & _).
      subst descr. cbn. now rewrite Hd. }
    destruct (pairing_loop_error_responses env url deadline descr Herr 15 st0 Hfuel)
      as (n & st' & E & _).
    change (S 15) with max_tests in E. rewrite E.
    apply pairing_loop_exit in E.
    rewrite on_timeout_spec. cbn. eexists. split; [reflexivity |]. exact E.
Qed.

Lemma on_error_turn item st :
  error_turn item <> Ends ->
  on_error item st =
    (Return tt,
     {| world := {| clock := clock (world st); posts := posts (world st);
                    stdout := stdout (world st) ++
                              match error_turn item with
                              | Refused d =>
                                  if mentions_link_button d then [] else [OutError (JStr d)]
                              | _ => []
                              end;
                    logged := logged (world st) |};
        last_err := record (error_turn item) (last_err st);
        dots := dots st |}).
Proof.
  intros H. destruct st as [[c p o l] le d].
  unfold on_error, error_turn, set_last_err, in_world, print in *. run.
  destruct (py_contains "error" item) as [[|] | e1].
  - destruct (py_getitem_str item "error") as [err | e1]; [| now elim H].
    destruct (py_get err "description" (JStr "")) as [desc | e1]; [| now elim H].
    destruct desc; try now elim H.
    cbn. unfold mentions_link_button.
    destruct (str_contains "link button not pressed" (lower s)); cbn;
      rewrite ?app_nil_r; reflexivity.
  - cbn. now rewrite app_nil_r.
  - now elim H.
Qed.

Lemma iteration_goes_on env url st :
  turn_of (reply (answer env url (posts (world st)))) <> Ends ->
  iteration env url st =
    (Return None,
     {| world :=
          {| clock := clock (world st)
                      + Z.of_N (latency (answer env url (posts (world st))))
                      + (seconds 2 + Z.of_N (oversleep (answer env url (posts (world st)))));
             posts := S (posts (world st));
             stdout := stdout (world st) ++
                       turn_output (turn_of (reply (answer env url (posts (world st)))))
                                   ((dots st + 1) mod 4);
             logged := logged (world st) |};
        last_err := record (turn_of (reply (answer env url (posts (world st))))) (last_err st);
        dots := (dots st + 1) mod 4 |}).
Proof.
  intros Hgo.
  assert (Hitem : forall item st1,
    item_turn item <> Ends ->
    bind (on_success item)
      (fun creds => match creds with
                    | Some c => ret (Some c)
                    | None => bind (on_error item) (fun _ => ret None)
                    end) st1 =
    (Return None,
     {| world := {| clock := clock (world st1); posts := posts (world st1);
                    stdout := stdout (world st1) ++
                              match item_turn item with
                              | Refused d =>
                                  if mentions_link_button d then [] else [OutError (JStr d)]
                              | _ => []
                              end;
                    logged := logged (world st1) |};
        last_err := record (item_turn item) (last_err st1);
        dots := dots st1 |})).
  { intros item st1 H. unfold item_turn in *.
    unfold on_success at 1. unfold in_world, print. run.
    destruct (py_contains "success" item) as [[|] | e1]; [| | now elim H].
    - destruct (py_getitem_str item "success") as [success | e1]; [| now elim H].
      destruct (py_get success "username" JNull) as [username | e1]; [| now elim H].
      destruct (py_get success "clientkey" JNull) as [clientkey | e1]; [| now elim H].
      destruct (py_truthy username && py_truthy clientkey); [now elim H |].
      cbv beta iota. rewrite (on_error_turn _ _ H). reflexivity.
    - cbv beta iota. now rewrite (on_error_turn _ _ H). }
  unfold iteration, try_body. unfold bind at 1. unfold try_except.
  unfold bind at 1. unfold in_world at 1, post.
  destruct (reply (answer env url (posts (world st)))) as [data | e].
  - destruct data as [| b | z | f | s | l | d];
      try (unfold sleep, set_dots, in_world, print, elapse; run; cbn; reflexivity).
    destruct l as [| item l];
      [unfold sleep, set_dots, in_world, print, elapse; run; cbn; reflexivity |].
    cbn [is_list py_len lift py_getitem_0 List.length turn_of] in *.
    unfold bind at 1. unfold lift at 1.
    replace (Z.ltb 0 (Z.of_nat (S (List.length l)))) with true
      by (symmetry; apply Z.ltb_lt; lia).
    unfold bind at 1. unfold lift at 1. cbn [py_getitem_0].
    rewrite (Hitem _ _ Hgo).
    unfold sleep, set_dots, in_world, print, elapse. run. cbn.
    unfold turn_output, attempt_output.
    destruct (item_turn item); try (now elim Hgo); cbn;
      rewrite ?app_nil_r, <- ?app_assoc; reflexivity.
  - cbn [turn_of] in *. destruct (is_request_exception e) eqn:Hre; [| now elim Hgo].
    unfold sleep, set_dots, set_last_err, in_world, print, elapse. run. cbn.
    reflexivity.
Qed.

(** The accessors raise a [TypeError], an [AttributeError], a [KeyError]
    or an [IndexError], which [except RequestException] does not catch. *)
Lemma py_contains_raises k v e :
  py_contains k v = Raise e -> is_request_exception e = false.
Proof. destruct v; cbn; intros [= <-]; reflexivity. Qed.

Lemma py_getitem_str_raises v k e :
  py_getitem_str v k = Raise e -> is_request_exception e = false.
Proof.
  destruct v as [| ? | ? | ? | ? | ? | dd]; cbn; try (intros [= <-]; reflexivity).
  destruct (dict_lookup k dd); intros [= <-]; reflexivity.
Qed.

Lemma py_get_raises v k d e :
  py_get v k d = Raise e -> is_request_exception e = false.
Proof. destruct v; cbn; intros [= <-]; reflexivity. Qed.

Lemma py_lower_raises v e :
  py_lower v = Raise e -> is_request_exception e = false.
Proof. destruct v; cbn; intros [= <-]; reflexivity. Qed.

(** An error block that ends the handshake raises, without printing. *)
Lemma on_error_ends item st :
  error_turn item = Ends ->
  exists e st',
    on_error item st = (Raise e, st') /\
    is_request_exception e = false /\
    world st' = world st /\ dots st' = dots st.
Proof.
  intros H. unfold on_error, error_turn, set_last_err, in_world, print in *. run.
  destruct (py_contains "error" item) as [[|] | e1] eqn:E1; [| discriminate |].
  - destruct (py_getitem_str item "error") as [err | e1] eqn:E2.
    + destruct (py_get err "description" (JStr "")) as [desc | e1] eqn:E3.
      * destruct desc; try discriminate; cbn; eexists _, _; repeat split.
      * eexists _, _. repeat split. eapply py_get_raises; eassumption.
    + eexists _, _. repeat split. eapply py_getitem_str_raises; eassumption.
  - eexists _, _. repeat split. eapply py_contains_raises; eassumption.
Qed.

(** The two blocks on an item that ends the handshake: a pair is
    returned after the success is printed, or an exception is raised
    without printing. *)
Lemma item_ends item st :
  item_turn item = Ends ->
  exists out st',
    bind (on_success item)
      (fun creds => match creds with
                    | Some c => ret (Some c)
                    | None => bind (on_error item) (fun _ => ret None)
                    end) st = (out, st') /\
    clock (world st') = clock (world st) /\
    posts (world st') = posts (world st) /\
    match out with
    | Return (Some (u, c)) => stdout (world st') = stdout (world st) ++ [OutSuccess u c]
    | Return None => False
    | Raise e => is_request_exception e = false /\ stdout (world st') = stdout (world st)
    end.
Proof.
  intros H. unfold item_turn in H.
  assert (Herr : error_turn item = Ends ->
    exists out st',
      (let (r0, s'0) := on_error item st in
       match r0 with
       | Return _ => (Return None, s'0)
       | Raise e => (Raise e, s'0)
       end) = (out, st') /\
      clock (world st') = clock (world st) /\
      posts (world st') = posts (world st) /\
      match out : result (option (json * json)) with
      | Return (Some (u, c)) => stdout (world st') = stdout (world st) ++ [OutSuccess u c]
      | Return None => False
      | Raise e => is_request_exception e = false /\ stdout (world st') = stdout (world st)
      end).
  { intros He. destruct (on_error_ends item st He) as (e & st' & -> & Hre & Hw & _).
    exists (Raise e), st'. rewrite Hw. auto. }
  unfold on_success at 1. unfold in_world, print. run.
  destruct (py_contains "success" item) as [[|] | e1] eqn:E1.
  - destruct (py_getitem_str item "success") as [success | e1] eqn:E2.
    + destruct (py_get success "username" JNull) as [username | e1] eqn:E3.
      * destruct (py_get success "clientkey" JNull) as [clientkey | e1] eqn:E4.
        -- destruct (py_truthy username && py_truthy clientkey).
           ++ eexists _, _. split; [reflexivity |]. cbn. auto.
           ++ cbv beta iota. auto.
        -- eexists _, _. split; [reflexivity |]. repeat split.
           eapply py_get_raises; eassumption.
      * eexists _, _. split; [reflexivity |]. repeat split.
        eapply py_get_raises; eassumption.
    + eexists _, _. split; [reflexivity |]. repeat split.
      eapply py_getitem_str_raises; eassumption.
  - cbv beta iota. auto.
  - eexists _, _. split; [reflexivity |]. repeat split.
    eapply py_contains_raises; eassumption.
Qed.

(** A turn that [Ends]: it returns a pair after printing the success, or
    raises without printing. *)
Lemma iteration_ends env url st :
  turn_of (reply (answer env url (posts (world st)))) = Ends ->
  exists out st',
    iteration env url st = (out, st') /\
    posts (world st') = S (posts (world st)) /\
    match out with
    | Return (Some (u, c)) => stdout (world st') = stdout (world st) ++ [OutSuccess u c]
    | Return None => False
    | Raise _ => stdout (world st') = stdout (world st)
    end.
Proof.
  intros Hend.
  unfold iteration, try_body. unfold bind at 1. unfold try_except.
  unfold bind at 1. unfold in_world at 1, post.
  destruct (reply (answer env url (posts (world st)))) as [data | e].
  - destruct data as [| b | z | f | s | l | d]; try discriminate.
    destruct l as [| item l]; [discriminate |].
    cbn [is_list py_len lift py_getitem_0 List.length turn_of] in *.
    unfold bind at 1. unfold lift at 1.
    replace (Z.ltb 0 (Z.of_nat (S (List.length l)))) with true
      by (symmetry; apply Z.ltb_lt; lia).
    unfold bind at 1. unfold lift at 1. cbn [py_getitem_0].
    match goal with
    | |- context [bind (on_success item) ?k ?s] =>
        destruct (item_ends item s Hend) as (out & st' & -> & _ & Hp & Hout)
    end.
    destruct out as [[[u c] |] | e]; [| destruct Hout |].
    + run. eexists _, _. split; [reflexivity |]. cbn in *. auto.
    + destruct Hout as [-> Ho]. run. eexists _, _. split; [reflexivity |]. cbn in *. auto.
  - cbn [turn_of] in Hend. destruct (is_request_exception e) eqn:Hre; [discriminate |].
    run. cbn. eexists _, _. split; [reflexivity |]. cbn. auto.
Qed.

(** An error response is a [Refused] turn with its description. *)
Lemma error_response_turn r d :
  error_response r = Some d -> turn_of r = Refused d.
Proof.
  unfold error_response. intros H.
  repeat (break_in H; try discriminate). injection H as ->.
  cbn. unfold item_turn, error_turn. cbn. rewrite Heqo, Heqo0. cbn. now rewrite Heqo1.
Qed.

(** The loop, turn by turn: it goes on after every turn that does not
    end the handshake, printing what [turns_output] says and keeping the
    text recorded last; it stops at the first turn that ends the
    handshake, or at the deadline. *)
Lemma pairing_loop_turns env url deadline :
  forall fuel st,
    deadline - clock (world st) <= seconds 2 * Z.of_nat fuel ->
    exists n out st',
      pairing_loop (S fuel) env url deadline st = Some (out, st') /\
      (forall j, (j < n)%nat ->
         turn_of (reply (answer env url (posts (world st) + j))) <> Ends) /\
      match out with
      | Return None =>
          posts (world st') = (posts (world st) + n)%nat /\
          stdout (world st') =
            stdout (world st) ++ turns_output env url (posts (world st)) (dots st) n /\
          last_err st' = last_recorded env url (posts (world st)) n (last_err st) /\
          (clock (world st) < deadline -> (1 <= n)%nat)
      | Return (Some (u, c)) =>
          turn_of (reply (answer env url (posts (world st) + n))) = Ends /\
          posts (world st') = (posts (world st) + S n)%nat /\
          stdout (world st') =
            stdout (world st) ++ turns_output env url (posts (world st)) (dots st) n ++
            [OutSuccess u c]
      | Raise _ =>
          turn_of (reply (answer env url (posts (world st) + n))) = Ends /\
          posts (world st') = (posts (world st) + S n)%nat /\
          stdout (world st') =
            stdout (world st) ++ turns_output env url (posts (world st)) (dots st) n
      end.
Proof.
  induction fuel as [| fuel IH]; intros st Hb; rewrite pairing_loop_S.
  - destruct (Z.ltb_spec (clock (world st)) deadline); [unfold seconds in *; lia |].
    exists 0%nat, (Return None), st. cbn. rewrite Nat.add_0_r, app_nil_r.
    repeat split; auto; lia.
  - destruct (Z.ltb_spec (clock (world st)) deadline).
    + assert (Hdec : turn_of (reply (answer env url (posts (world st)))) = Ends \/
                     turn_of (reply (answer env url (posts (world st)))) <> Ends)
        by (destruct (turn_of _); auto; right; discriminate).
      destruct Hdec as [Ht | Ht].
      * destruct (iteration_ends env url st Ht) as (out & st' & -> & Hp & Hout).
        exists 0%nat. rewrite Nat.add_0_r.
        destruct out as [[[u c] |] | e]; [| destruct Hout |];
          eexists _, st'; (split; [reflexivity |]); (split; [intros j Hj; lia |]);
          cbn; rewrite Hp, Hout, ?app_nil_r; repeat split; auto; lia.
      * rewrite (iteration_goes_on _ _ _ Ht).
        match goal with |- context [pairing_loop _ _ _ _ ?s] => set (st1 := s) end.
        destruct (IH st1) as (n & out & st' & E & Hgo & Hout).
        { subst st1. cbn. unfold seconds in *. lia. }
        exists (S n), out, st'. split; [exact E |]. split.
        { intros [| j] Hj; [now rewrite Nat.add_0_r |].
          rewrite <- Nat.add_succ_comm. apply Hgo. lia. }
        subst st1. cbn [world posts stdout dots last_err] in Hout.
        cbn [turns_output last_recorded].
        destruct out as [[[u c] |] | e];
          rewrite <- ?Nat.add_succ_comm, <- ?app_assoc in *;
          repeat split; try tauto; try lia.
    + exists 0%nat, (Return None), st. cbn. rewrite Nat.add_0_r, app_nil_r.
      repeat split; auto; lia.
Qed.

(** C5, as the code has it. Every handshake ends after some request
    [n + 1], the loop having gone on after the [n] turns before it. A
    turn the loop goes on after prints the description of its error
    response unless that mentions the link button ([turn_output]), and it
    records as the last error the description of its error response, the
    link-button one included, or the message of its failed request, a
    reply of another kind leaving the record as it was ([record]). When
    the last turn does not end the handshake either, the timeout error
    is raised, and the error reported after the timeout is the one
    recorded last, whatever its kind; nothing is reported when nothing was
    recorded or the text is empty. When the last turn ends the handshake,
    no timeout is printed. Every error response is a [Refused] turn with
    its description. *)
Theorem pairing_reports_the_last_error_recorded :
  forall env bridge_ip w,
  exists n r w',
    create_entertainment_user env bridge_ip w = Some (r, w') /\
    posts w' = (posts w + S n)%nat /\
    (forall j, (j < n)%nat ->
       turn_of (reply (answer env (pairing_url bridge_ip) (posts w + j))) <> Ends) /\
    match turn_of (reply (answer env (pairing_url bridge_ip) (posts w + n))) with
    | Ends =>
        stdout w' =
          stdout w ++ [OutPairingBanner] ++
          turns_output env (pairing_url bridge_ip) (posts w) 0 n ++
          match r with
          | Return (username, clientkey) => [OutSuccess username clientkey]
          | Raise _ => []
          end
    | _ =>
        r = Raise (RuntimeError timeout_message) /\
        stdout w' =
          stdout w ++ [OutPairingBanner] ++
          turns_output env (pairing_url bridge_ip) (posts w) 0 (S n) ++
          [OutTimeout] ++
          (if py_truthy (last_recorded env (pairing_url bridge_ip) (posts w) (S n) JNull)
           then [OutLastError (last_recorded env (pairing_url bridge_ip) (posts w) (S n) JNull)]
           else []) ++
          [OutRetryHint]
    end /\
    (forall answered d, error_response answered = Some d -> turn_of answered = Refused d).
Proof.
  intros env bridge_ip w. rewrite create_entertainment_user_unfold.
  set (url := pairing_url bridge_ip).
  set (st0 := {| world := _; last_err := JNull; dots := 0 |}).
  assert (Hfuel : clock w + seconds 30 - clock (world st0) <= seconds 2 * Z.of_nat 15).
  { subst st0. unfold seconds. cbn. lia. }
  destruct (pairing_loop_turns env url _ 15 st0 Hfuel) as (n & out & st' & E & Hgo & Hout).
  change (S 15) with max_tests in E. rewrite E.
  change (posts (world st0)) with (posts w) in *.
  change (stdout (world st0)) with (stdout w ++ [OutPairingBanner]) in *.
  change (dots st0) with 0 in *. change (last_err st0) with JNull in *.
  destruct out as [[[u c] |] | e].
  - destruct Hout as (Ht & Hp & Ho).
    exists n, (Return (u, c)), (world st'). rewrite Ht, Ho, <- !app_assoc.
    repeat split; auto. apply error_response_turn.
  - destruct Hout as (Hp & Ho & He & Hn).
    destruct n as [| n]; [exfalso; subst st0; cbn in Hn; unfold seconds in Hn; lia |].
    rewrite on_timeout_spec. cbn [fst snd world posts stdout].
    exists n. eexists _, _. split; [reflexivity |]. split; [exact Hp |].
    split; [intros j Hj; apply Hgo; lia |]. split; [| apply error_response_turn].
    specialize (Hgo n (Nat.lt_succ_diag_r n)).
    rewrite He, Ho, <- !app_assoc.
    destruct (turn_of (reply (answer env url (posts w + n)))); [now elim Hgo | | |];
      split; reflexivity.
  - destruct Hout as (Ht & Hp & Ho).
    exists n, (Raise e), (world st'). rewrite Ht, Ho, <- !app_assoc.
    repeat split; auto; [now rewrite app_nil_r | apply error_response_turn].
Qed.

(* ===================================================================== *)
(** ** The theorems at concrete inputs                                    *)
(* ===================================================================== *)

(** The catalog of the example holds "Living Room", and "living room"
    selects nothing in it. *)
Lemma living_room_is_not_found :
  fst (select_area (Return living_catalog) "living room" fresh_world) =
    Raise (ValueError "Entertainment area 'living room' not found").
Proof.
  apply (select_area_ignores_display_names living_catalog "living room" fresh_world).
  intros area_id config [H | [H | []]]; injection H as <- <-; vm_compute; discriminate.
Defined.

(** The frame [255,0,0, 0,255,0] for two lights. *)
Lemma red_green_updates_both_lights :
  exists self' ups,
    @_on_dmx_data reliable_library red_green two_lights = (Return tt, self') /\
    input_queue (streaming self') = input_queue (streaming two_lights) ++ ups /\
    List.length ups = 2%nat /\
    map light_index ups = [0; 1]%nat /\
    ups = [(1%float, 0%float, 0%float, 0%nat); (0%float, 1%float, 0%float, 1%nat)].
Proof.
  destruct (full_frame_updates_every_light reliable_library red_green two_lights)
    as (self' & ups & E & Hq & Hl & Hi & Hu & _).
  - intros s u. reflexivity.
  - reflexivity.
  - exists self', ups. split; [exact E |]. split; [exact Hq |].
    split; [exact Hl |]. split; [exact Hi |]. rewrite Hu. vm_compute. reflexivity.
Defined.

(** The same frame cut after five bytes, as the first packet: the first
    light is updated, the second is not, and the journal gains the records
    of the first packet and the record of light 1, none about light 2. *)
Lemma cut_frame_updates_the_first_light :
  exists self' ups,
    @_on_dmx_data reliable_library red_green_cut two_lights = (Return tt, self') /\
    input_queue (streaming self') = input_queue (streaming two_lights) ++ ups /\
    (exists u, In u ups /\ light_index u = 0%nat) /\
    ~ (exists u, In u ups /\ light_index u = 1%nat) /\
    journal self' =
      [(INFO, MsgRule); (INFO, MsgFirstPacket); (INFO, MsgRule);
       (INFO, MsgUniverse 1); (INFO, MsgDmxLength 5);
       (INFO, MsgFirst20 [xff; x00; x00; x00; xff]); (INFO, MsgRule);
       (DEBUG, MsgPacket 1 5);
       (INFO, MsgLight 1 xff x00 x00)].
Proof.
  destruct (partial_frame_skips_uncovered_lights reliable_library red_green_cut two_lights)
    as (self' & ups & js & E & Hq & _ & _ & H & Hj & _ & Hjs).
  assert (Hacc : @accepts_every_input reliable_library) by (intros s u; reflexivity).
  exists self', ups. split; [exact E |]. split; [exact Hq |].
  split; [| split].
  - apply (H Hacc 0%nat); unfold two_lights, red_green_cut; cbn; lia.
  - intros Hu. apply (H Hacc 1%nat) in Hu; unfold two_lights, red_green_cut in *; cbn in *; lia.
  - rewrite Hj, (Hjs Hacc). clear Hj Hjs H.
    vm_compute in E. injection E as <-. vm_compute in Hq. subst ups. reflexivity.
Defined.

(** A bridge whose button is never pressed. *)
Lemma button_never_pressed_times_out :
  exists w',
    create_entertainment_user button_never_pressed "192.168.1.2" fresh_world =
      Some (Raise (RuntimeError timeout_message), w') /\
    clock fresh_world + seconds 30 <= clock w'.
Proof.
  apply (proj2 (proj2 (pairing_times_out_or_returns_both
                         button_never_pressed "192.168.1.2" fresh_world))).
  intros k. reflexivity.
Defined.

(** The first answer is "unauthorized user", the others are about the
    link button: the error reported after the timeout is about the link
    button, and "unauthorized user" is not reported there. *)
Lemma last_error_is_about_the_link_button :
  exists w',
    create_entertainment_user unauthorized_then_button "192.168.1.2" fresh_world =
      Some (Raise (RuntimeError timeout_message), w') /\
    error_response (reply (answer unauthorized_then_button (pairing_url "192.168.1.2") 0)) =
      Some "unauthorized user" /\
    mentions_link_button "unauthorized user" = false /\
    stdout w' =
      [OutPairingBanner; OutError (JStr "unauthorized user");
       OutWaiting 1; OutWaiting 2; OutWaiting 3; OutWaiting 0;
       OutWaiting 1; OutWaiting 2; OutWaiting 3; OutWaiting 0;
       OutWaiting 1; OutWaiting 2; OutWaiting 3; OutWaiting 0;
       OutWaiting 1; OutWaiting 2; OutWaiting 3;
       OutTimeout; OutLastError (JStr "link button not pressed");
       OutRetryHint] /\
    ~ In (OutLastError (JStr "unauthorized user")) (stdout w').
Proof.
  eexists. split; [vm_compute; reflexivity |].
  repeat split; try (vm_compute; reflexivity).
  cbn [stdout]. intros H.
  repeat (destruct H as [H | H]; [discriminate H |]). exact H.
Qed.

(** An "unauthorized user" answer followed by requests that fail: the
    error reported after the timeout is the failure of the last request. *)
Lemma request_failure_is_reported_last :
  exists w',
    create_entertainment_user unauthorized_then_unreachable "192.168.1.2" fresh_world =
      Some (Raise (RuntimeError timeout_message), w') /\
    posts w' = 7%nat /\
    last_recorded unauthorized_then_unreachable (pairing_url "192.168.1.2") 0 7 JNull =
      JStr "connect timeout" /\
    stdout w' =
      [OutPairingBanner; OutError (JStr "unauthorized user");
       OutWaiting 1; OutWaiting 2; OutWaiting 3; OutWaiting 0;
       OutWaiting 1; OutWaiting 2; OutWaiting 3;
       OutTimeout; OutLastError (JStr "connect timeout"); OutRetryHint].
Proof.
  destruct (pairing_reports_the_last_error_recorded
              unauthorized_then_unreachable "192.168.1.2" fresh_world)
    as (n & r & w' & E & Hp & _ & Hturn & _).
  assert (Hn : n = 6%nat).
  { vm_compute in E. injection E as _ <-. cbn in Hp. lia. }
  subst n. vm_compute in Hturn. destruct Hturn as [-> Ho].
  exists w'. split; [exact E |]. split; [exact Hp |]. split; [reflexivity | exact Ho].
Defined.



(** A stored token without a client key. *)
Lemma token_only_cfg_is_refused :
  exists w',
    ensure_app_key button_never_pressed "192.168.1.2" None token_only_cfg false fresh_world =
      Some (Raise (RuntimeError "Missing clientkey. Run with --re-pair"), w') /\
    posts w' = posts fresh_world /\
    clock w' = clock fresh_world /\
    stdout w' = stdout fresh_world ++ [OutMissingClientkey] /\
    logged w' = logged fresh_world.
Proof.
  apply (missing_clientkey_is_not_repaired
           button_never_pressed "192.168.1.2" None token_only_cfg fresh_world);
    vm_compute; reflexivity.
Defined.

(** A command-line token that is not the stored one. *)
Lemma cli_token_replaces_the_stored_one :
  exists w',
    ensure_app_key button_never_pressed "192.168.1.2" (Some "cli-token") paired_cfg false
      fresh_world =
      Some (Return (JStr "cli-token", cfg_get paired_cfg "clientkey", paired_cfg), w') /\
    posts w' = posts fresh_world /\
    clock w' = clock fresh_world /\
    stdout w' = stdout fresh_world.
Proof.
  apply (cli_token_pairs_with_stored_clientkey
           button_never_pressed "192.168.1.2" "cli-token" paired_cfg fresh_world);
    vm_compute; reflexivity.
Defined.

(* ===================================================================== *)
(** ** More about the handshake: bounds, success, retries, aborts         *)
(* ===================================================================== *)

(** Every turn sends one request, so the deadline bounds the requests. *)
Lemma pairing_loop_posts env url deadline :
  forall fuel st r st',
    deadline - clock (world st) <= seconds 2 * Z.of_nat fuel ->
    pairing_loop (S fuel) env url deadline st = Some (r, st') ->
    (posts (world st) <= posts (world st') <= posts (world st) + fuel)%nat /\
    (clock (world st) < deadline -> (posts (world st) < posts (world st'))%nat).
Proof.
  induction fuel as [| fuel IH]; intros st r st' Hb; rewrite pairing_loop_S.
  - destruct (Z.ltb_spec (clock (world st)) deadline); [unfold seconds in *; lia |].
    intros [= <- <-]. lia.
  - destruct (Z.ltb_spec (clock (world st)) deadline).
    + destruct (iteration env url st) as [r1 st1] eqn:E.
      pose proof (iteration_spec _ _ _ _ _ E) as [Hp Hr].
      destruct r1 as [[c |] | e].
      * intros [= <- <-]. lia.
      * intros H1. apply IH in H1; [lia | unfold seconds in *; lia].
      * intros [= <- <-]. lia.
    + intros [= <- <-]. lia.
Qed.

(** X1. Whatever the bridge answers, a run of the handshake ends having
    sent at least one and at most fifteen pairing requests. *)
Theorem pairing_sends_one_to_fifteen_requests :
  forall env bridge_ip w,
  exists r w',
    create_entertainment_user env bridge_ip w = Some (r, w') /\
    (posts w + 1 <= posts w' <= posts w + 15)%nat.
Proof.
  intros env bridge_ip w. rewrite create_entertainment_user_unfold.
  set (st0 := {| world := _; last_err := JNull; dots := 0 |}).
  assert (Hfuel : clock w + seconds 30 - clock (world st0) <= seconds 2 * Z.of_nat 15).
  { subst st0. unfold seconds. cbn. lia. }
  destruct (pairing_loop_terminates env (pairing_url bridge_ip) _ 15 st0 Hfuel)
    as [[r1 st1] L].
  change (S 15) with max_tests in L. rewrite L. change max_tests with (S 15) in L.
  destruct (pairing_loop_posts _ _ _ _ _ _ _ Hfuel L) as [Hp Hlt].
  assert (Hs : (posts w < posts (world st1))%nat).
  { apply Hlt. subst st0. unfold seconds. cbn. lia. }
  subst st0. cbn in Hp.
  destruct r1 as [[c |] | e].
  - eexists _, _. split; [reflexivity |]. lia.
  - rewrite on_timeout_spec. eexists _, _. split; [reflexivity |]. cbn. lia.
  - eexists _, _. split; [reflexivity |]. lia.
Qed.

Lemma iteration_retried env url st t :
  retried (reply (answer env url (posts (world st)))) = Some t ->
  iteration env url st =
    (Return None,
     {| world :=
          {| clock := clock (world st) + turn_time env url (posts (world st));
             posts := S (posts (world st));
             stdout := stdout (world st) ++
                       retry_output (reply (answer env url (posts (world st))))
                                    ((dots st + 1) mod 4);
             logged := logged (world st) |};
        last_err := JStr t;
        dots := (dots st + 1) mod 4 |}).
Proof.
  unfold retried, retry_output, turn_time.
  destruct (reply (answer env url (posts (world st)))) as [data | e] eqn:R.
  - intros H. rewrite H. rewrite <- R in H.
    rewrite (iteration_error_response env url st t H).
    do 3 f_equal. lia.
  - destruct e; try discriminate. intros [= ->].
    unfold iteration, try_body, sleep, set_dots, set_last_err, in_world, post, print, elapse.
    run. rewrite R. cbn. do 3 f_equal. lia.
Qed.

Lemma elapsed_lower_bound env url n : forall k, seconds 2 * Z.of_nat n <= elapsed env url k n.
Proof.
  induction n as [| n IH]; intros k; cbn [elapsed]; [lia |].
  specialize (IH (S k)). unfold turn_time, seconds in *. lia.
Qed.

(** A run of retried turns that ends before the deadline takes the loop
    to the state that follows them. *)
Lemma pairing_loop_prefix env url deadline :
  forall n fuel st,
    (forall j, (j < n)%nat ->
       retried (reply (answer env url (posts (world st) + j))) <> None) ->
    clock (world st) + elapsed env url (posts (world st)) n < deadline ->
    exists st',
      pairing_loop (n + fuel) env url deadline st = pairing_loop fuel env url deadline st' /\
      clock (world st') = clock (world st) + elapsed env url (posts (world st)) n /\
      posts (world st') = (posts (world st) + n)%nat /\
      stdout (world st') =
        stdout (world st) ++ retries_output env url (posts (world st)) (dots st) n /\
      logged (world st') = logged (world st).
Proof.
  induction n as [| n IH]; intros fuel st Hall Ht.
  - exists st. cbn. rewrite Z.add_0_r, Nat.add_0_r, app_nil_r. auto.
  - cbn [elapsed] in Ht.
    pose proof (elapsed_lower_bound env url n (S (posts (world st)))) as Hlow.
    assert (Hnow : clock (world st) < deadline).
    { unfold turn_time, seconds in *. lia. }
    destruct (retried (reply (answer env url (posts (world st))))) as [t |] eqn:R.
    2: { exfalso. apply (Hall 0%nat); [lia |]. now rewrite Nat.add_0_r. }
    change (S n + fuel)%nat with (S (n + fuel)). rewrite pairing_loop_S.
    apply Z.ltb_lt in Hnow. rewrite Hnow.
    rewrite (iteration_retried env url st t R).
    match goal with |- context [pairing_loop _ _ _ _ ?s] => set (st1 := s) end.
    destruct (IH fuel st1) as (st' & E & Hc & Hp & Ho & Hl).
    { intros j Hj. subst st1. cbn.
      rewrite <- Nat.add_succ_r. apply Hall. lia. }
    { subst st1. cbn. lia. }
    exists st'. subst st1. cbn in *.
    rewrite E, Hc, Hp, Ho, Hl, <- app_assoc. repeat split; auto; lia.
Qed.

Lemma iteration_success env url st username clientkey :
  success_response (reply (answer env url (posts (world st)))) = Some (username, clientkey) ->
  iteration env url st =
    (Return (Some (username, clientkey)),
     {| world :=
          {| clock := clock (world st)
                      + Z.of_N (latency (answer env url (posts (world st))));
             posts := S (posts (world st));
             stdout := stdout (world st) ++ [OutSuccess username clientkey];
             logged := logged (world st) |};
        last_err := last_err st;
        dots := dots st |}).
Proof.
  unfold success_response. intros H.
  repeat (break_in H; try discriminate). injection H as -> ->.
  unfold iteration, try_body, on_success, sleep, set_dots, set_last_err,
    in_world, post, print, elapse.
  run.
  match goal with E : reply _ = _ |- _ => rewrite E end.
  cbn [is_list py_len lift py_getitem_0 py_contains py_getitem_str py_get List.length].
  replace (Z.ltb 0 (Z.of_nat (S (List.length l0)))) with true
    by (symmetry; apply Z.ltb_lt; lia).
  repeat match goal with E : dict_lookup _ _ = _ |- _ => rewrite E; clear E end.
  cbn [py_get]. 
  repeat match goal with E : dict_lookup _ _ = _ |- _ => rewrite E; clear E end.
  match goal with E : _ && _ = true |- _ => rewrite E end.
  reflexivity.
Qed.

Lemma iteration_aborts env url st e :
  aborts (reply (answer env url (posts (world st)))) = Some e ->
  iteration env url st =
    (Raise e,
     {| world :=
          {| clock := clock (world st)
                      + Z.of_N (latency (answer env url (posts (world st))));
             posts := S (posts (world st));
             stdout := stdout (world st);
             logged := logged (world st) |};
        last_err := last_err st;
        dots := dots st |}).
Proof.
  unfold aborts. intros H.
  unfold iteration, try_body, on_success, in_world, post. run.
  destruct (reply (answer env url (posts (world st)))) as [data | e0].
  - destruct data as [| | | | | [| item rest] |]; try discriminate.
    cbn [is_list py_len lift List.length].
    replace (Z.ltb 0 (Z.of_nat (S (List.length rest)))) with true
      by (symmetry; apply Z.ltb_lt; lia).
    destruct item; try discriminate; injection H as <-; reflexivity.
  - destruct (is_request_exception e0) eqn:Q; [discriminate |].
    injection H as <-. reflexivity.
Qed.

(** The loop with fuel for the turns before request [n] and one more. *)
Lemma pairing_reaches_request env bridge_ip w n :
  (forall j, (j < n)%nat ->
     retried (reply (answer env (pairing_url bridge_ip) (posts w + j))) <> None) ->
  elapsed env (pairing_url bridge_ip) (posts w) n < seconds 30 ->
  exists fuel st,
    pairing_loop max_tests env (pairing_url bridge_ip) (clock w + seconds 30)
      {| world := {| clock := clock w; posts := posts w;
                     stdout := stdout w ++ [OutPairingBanner];
                     logged := logged w |};
         last_err := JNull; dots := 0 |} =
    pairing_loop (S fuel) env (pairing_url bridge_ip) (clock w + seconds 30) st /\
    clock (world st) = clock w + elapsed env (pairing_url bridge_ip) (posts w) n /\
    clock (world st) < clock w + seconds 30 /\
    posts (world st) = (posts w + n)%nat /\
    stdout (world st) =
      stdout w ++ [OutPairingBanner] ++
      retries_output env (pairing_url bridge_ip) (posts w) 0 n /\
    logged (world st) = logged w.
Proof.
  intros Hall Ht.
  pose proof (elapsed_lower_bound env (pairing_url bridge_ip) n (posts w)) as Hlow.
  assert (Hn : (n <= 14)%nat) by (unfold seconds in *; lia).
  replace max_tests with (n + S (15 - n))%nat by (unfold max_tests; lia).
  match goal with |- context [pairing_loop _ _ _ _ ?s] => set (st0 := s) end.
  destruct (pairing_loop_prefix env (pairing_url bridge_ip) (clock w + seconds 30)
              n (S (15 - n)) st0) as (st & E & Hc & Hp & Ho & Hl).
  { exact Hall. }
  { subst st0. cbn. lia. }
  exists (15 - n)%nat, st. subst st0. cbn in *.
  rewrite E, Hc, Hp, Ho, Hl, <- app_assoc. repeat split; auto. lia.
Qed.

(** X2. When the requests before the [n]-th are retried ones and take
    less than thirty seconds, and the [n]-th is answered by a success with
    a token and a client key, the handshake returns that pair at once: it
    has sent [n + 1] requests, does not sleep after the last, and prints
    the success after the turns before it. *)
Theorem pairing_returns_the_first_success :
  forall env bridge_ip w n username clientkey,
    (forall j, (j < n)%nat ->
       retried (reply (answer env (pairing_url bridge_ip) (posts w + j))) <> None) ->
    success_response (reply (answer env (pairing_url bridge_ip) (posts w + n))) =
      Some (username, clientkey) ->
    elapsed env (pairing_url bridge_ip) (posts w) n < seconds 30 ->
    exists w',
      create_entertainment_user env bridge_ip w = Some (Return (username, clientkey), w') /\
      posts w' = (posts w + n + 1)%nat /\
      clock w' = clock w + elapsed env (pairing_url bridge_ip) (posts w) n
                 + Z.of_N (latency (answer env (pairing_url bridge_ip) (posts w + n))) /\
      stdout w' =
        stdout w ++ [OutPairingBanner] ++
        retries_output env (pairing_url bridge_ip) (posts w) 0 n ++
        [OutSuccess username clientkey].
Proof.
  intros env bridge_ip w n username clientkey Hall Hs Ht.
  destruct (pairing_reaches_request env bridge_ip w n Hall Ht)
    as (fuel & st & E & Hc & Hlt & Hp & Ho & Hl).
  rewrite create_entertainment_user_unfold, E, pairing_loop_S.
  apply Z.ltb_lt in Hlt. rewrite Hlt.
  rewrite <- Hp in Hs. rewrite (iteration_success env _ st _ _ Hs).
  eexists. split; [reflexivity |]. cbn.
  rewrite Hc, Hp, Ho, <- !app_assoc. repeat split; auto. lia.
Qed.

(** X3. When the requests before the [n]-th are retried ones and take
    less than thirty seconds, and the [n]-th raises something else than a
    [RequestException], or is answered by a list that starts with null, a
    boolean or a number, the handshake raises that exception (a
    [TypeError] for the list) at once: no timeout is printed and no
    further request is sent. *)
Theorem pairing_aborts_on_other_exceptions :
  forall env bridge_ip w n e,
    (forall j, (j < n)%nat ->
       retried (reply (answer env (pairing_url bridge_ip) (posts w + j))) <> None) ->
    aborts (reply (answer env (pairing_url bridge_ip) (posts w + n))) = Some e ->
    elapsed env (pairing_url bridge_ip) (posts w) n < seconds 30 ->
    exists w',
      create_entertainment_user env bridge_ip w = Some (Raise e, w') /\
      posts w' = (posts w + n + 1)%nat /\
      stdout w' =
        stdout w ++ [OutPairingBanner] ++
        retries_output env (pairing_url bridge_ip) (posts w) 0 n.
Proof.
  intros env bridge_ip w n e Hall Ha Ht.
  destruct (pairing_reaches_request env bridge_ip w n Hall Ht)
    as (fuel & st & E & Hc & Hlt & Hp & Ho & Hl).
  rewrite create_entertainment_user_unfold, E, pairing_loop_S.
  apply Z.ltb_lt in Hlt. rewrite Hlt.
  rewrite <- Hp in Ha. rewrite (iteration_aborts env _ st _ Ha).
  eexists. split; [reflexivity |]. cbn.
  rewrite Hp, Ho. split; [lia | reflexivity].
Qed.

(** With retried replies only, the loop runs to the deadline and
    remembers the text of the last of them. *)
Lemma pairing_loop_retries env url deadline text :
  (forall k, retried (reply (answer env url k)) = Some (text k)) ->
  forall fuel st,
    deadline - clock (world st) <= seconds 2 * Z.of_nat fuel ->
    exists n st',
      pairing_loop (S fuel) env url deadline st = Some (Return None, st') /\
      posts (world st') = (posts (world st) + n)%nat /\
      stdout (world st') =
        stdout (world st) ++ retries_output env url (posts (world st)) (dots st) n /\
      last_err st' = match n with
                     | O => last_err st
                     | S m => JStr (text (posts (world st) + m)%nat)
                     end /\
      (clock (world st) < deadline -> (1 <= n)%nat).
Proof.
  intros Hall. induction fuel as [| fuel IH]; intros st Hb; rewrite pairing_loop_S.
  - destruct (Z.ltb_spec (clock (world st)) deadline); [unfold seconds in *; lia |].
    exists 0%nat, st. cbn. rewrite Nat.add_0_r, app_nil_r. repeat split; auto; lia.
  - destruct (Z.ltb_spec (clock (world st)) deadline).
    + rewrite (iteration_retried env url st _ (Hall _)).
      match goal with |- context [pairing_loop _ _ _ _ ?s] => set (st1 := s) end.
      destruct (IH st1) as (n & st' & E & Hp & Ho & He & _).
      { subst st1. cbn. unfold turn_time, seconds in *. lia. }
      exists (S n), st'. subst st1. cbn in *.
      rewrite E, Hp, Ho, <- app_assoc. repeat split; auto; try lia.
      rewrite He. destruct n as [| m].
      * now rewrite Nat.add_0_r.
      * do 2 f_equal. lia.
    + exists 0%nat, st. cbn. rewrite Nat.add_0_r, app_nil_r. repeat split; auto; lia.
Qed.

(** X4. When every request fails with a [RequestException] or is
    answered by an error response, the handshake retries until the
    deadline and then raises the timeout error, thirty seconds or more
    after its start. A request that failed prints nothing in its turn, and
    the error reported after the timeout is the text of the last reply,
    the message of the exception when the last request failed. *)
Theorem pairing_retries_failed_requests :
  forall env bridge_ip w text,
    (forall k, retried (reply (answer env (pairing_url bridge_ip) k)) = Some (text k)) ->
    exists n w',
      create_entertainment_user env bridge_ip w =
        Some (Raise (RuntimeError timeout_message), w') /\
      posts w' = (posts w + S n)%nat /\
      clock w + seconds 30 <= clock w' /\
      stdout w' =
        stdout w ++ [OutPairingBanner] ++
        retries_output env (pairing_url bridge_ip) (posts w) 0 (S n) ++
        [OutTimeout] ++
        (if str_nonempty (text (posts w + n)%nat)
         then [OutLastError (JStr (text (posts w + n)%nat))] else []) ++
        [OutRetryHint].
Proof.
  intros env bridge_ip w text Hall. rewrite create_entertainment_user_unfold.
  set (st0 := {| world := _; last_err := JNull; dots := 0 |}).
  assert (Hfuel : clock w + seconds 30 - clock (world st0) <= seconds 2 * Z.of_nat 15).
  { subst st0. unfold seconds. cbn. lia. }
  destruct (pairing_loop_retries env _ _ text Hall 15 st0 Hfuel)
    as (n & st' & E & Hp & Ho & He & Hn).
  change (S 15) with max_tests in E. rewrite E, on_timeout_spec.
  pose proof (pairing_loop_exit _ _ _ _ _ _ E) as Hexit.
  destruct n as [| n]; [exfalso; subst st0; cbn in Hn; unfold seconds in Hn; lia |].
  exists n. eexists. split; [reflexivity |]. cbn [fst snd world posts stdout clock].
  rewrite Hp, Ho, He. subst st0. cbn [world posts stdout dots py_truthy].
  repeat split; auto. now rewrite <- !app_assoc.
Qed.

(* ===================================================================== *)
(** ** More about [ensure_app_key]                                        *)
(* ===================================================================== *)

(** X5. A forced re-pair hands on what the handshake gives: when the
    handshake returns a pair, the pair is returned with a configuration
    that holds it under ["app_key"] and ["clientkey"], a fresh
    ["updated_at"], and every other key as before; when the handshake
    raises, the exception is raised and no configuration is returned. The
    command-line token and the stored credentials play no part. *)
Theorem forced_repair_replaces_both_credentials :
  forall env bridge_ip app_key (cfg : gmap string json) w,
    match create_entertainment_user env bridge_ip (snd (print OutForceRepair w)) with
    | Some (Return (username, clientkey), w') =>
        exists cfg' : gmap string json,
          ensure_app_key env bridge_ip app_key cfg true w =
            Some (Return (username, clientkey, cfg'), w') /\
          cfg' !! "app_key" = Some username /\
          cfg' !! "clientkey" = Some clientkey /\
          cfg' !! "updated_at" = Some (JStr (utcnow_isoformat env (clock w') ++ "Z")) /\
          (forall k, k <> "app_key" -> k <> "clientkey" -> k <> "updated_at" ->
                     cfg' !! k = cfg !! k)
    | Some (Raise e, w') =>
        ensure_app_key env bridge_ip app_key cfg true w = Some (Raise e, w')
    | None => ensure_app_key env bridge_ip app_key cfg true w = None
    end.
Proof.
  intros env bridge_ip app_key cfg w. unfold ensure_app_key.
  cbn [print modify snd].
  destruct (create_entertainment_user env bridge_ip _) as [[[[u c] | e] w'] |];
    try reflexivity.
  eexists. split; [reflexivity |].
  split; [| split; [| split]].
  - rewrite lookup_insert_ne by discriminate.
    rewrite lookup_insert_ne by discriminate. apply lookup_insert_eq.
  - rewrite lookup_insert_ne by discriminate. apply lookup_insert_eq.
  - apply lookup_insert_eq.
  - intros k H1 H2 H3. now rewrite !lookup_insert_ne by congruence.
Qed.

(** X6. Without a forced re-pair [ensure_app_key] never talks to the
    bridge: it ends without a request and without a wait, and it either
    raises a [RuntimeError] or returns a truthy token with the stored
    client key and the configuration as it was. *)
Theorem unforced_never_pairs :
  forall env bridge_ip app_key (cfg : gmap string json) w,
  exists r w',
    ensure_app_key env bridge_ip app_key cfg false w = Some (r, w') /\
    posts w' = posts w /\
    clock w' = clock w /\
    match r with
    | Return (username, clientkey, cfg') =>
        cfg' = cfg /\ clientkey = cfg_get cfg "clientkey" /\
        py_truthy username = true /\ py_truthy clientkey = true
    | Raise e => exists msg, e = RuntimeError msg
    end.
Proof.
  intros env bridge_ip app_key cfg w. unfold ensure_app_key.
  destruct (py_truthy (py_or (of_optional app_key) (cfg_get cfg "app_key"))) eqn:Hu;
    destruct (py_truthy (cfg_get cfg "clientkey")) eqn:Hc; cbn;
    eexists _, _; (split; [reflexivity |]); cbn; repeat split; eauto.
Qed.

(** X7. Without a token, neither on the command line (absent or empty)
    nor stored, [ensure_app_key] reports that no credentials were found,
    also when a client key is stored. *)
Theorem no_token_means_no_credentials :
  forall env bridge_ip app_key (cfg : gmap string json) w,
    py_truthy (of_optional app_key) = false ->
    py_truthy (cfg_get cfg "app_key") = false ->
    ensure_app_key env bridge_ip app_key cfg false w =
      Some (Raise (RuntimeError "No credentials found. Run with --re-pair"),
            snd (print OutNoCredentials w)).
Proof.
  intros env bridge_ip app_key cfg w Ha Hs. unfold ensure_app_key.
  rewrite py_or_truthy, Ha, Hs. reflexivity.
Qed.

(* ===================================================================== *)
(** ** More about [get_bridge_info]                                       *)
(* ===================================================================== *)

(** X8. A record is built only from an answer whose ["data"] is a list
    that starts with a dict, the bridge. Its id is the ["id"] of the
    bridge (null when there is none) and so is its application id; its
    resource id is the ["rid"] of the bridge's ["owner"] when that is
    truthy, and the id of the bridge otherwise: when the bridge has no
    owner, or the owner no resource id, or a falsy one. *)
Theorem built_bridge_info_ids :
  forall data info,
    bridge_info_of data = Return (Some info) ->
    exists d b rest,
      data = JDict d /\
      dict_lookup "data" d = Some (JList (JDict b :: rest)) /\
      bi_id info = match dict_lookup "id" b with Some v => v | None => JNull end /\
      bi_hue_app_id info = bi_id info /\
      match dict_lookup "owner" b with
      | None => bi_rid info = bi_id info
      | Some owner =>
          exists o,
            owner = JDict o /\
            bi_rid info = match dict_lookup "rid" o with
                          | Some rid => if py_truthy rid then rid else bi_id info
                          | None => bi_id info
                          end
      end.
Proof.
  intros data info. unfold bridge_info_of, rbind.
  destruct data as [| ? | ? | ? | ? | ? | d]; try discriminate.
  cbn [py_get py_getitem_str].
  destruct (dict_lookup "data" d) as [dd |] eqn:Hd; [| discriminate].
  destruct (py_truthy dd); [| discriminate].
  destruct (py_len dd) as [n |]; [| discriminate].
  destruct (Z.ltb 0 n); [| discriminate].
  destruct dd as [| ? | ? | ? | s | l | ?]; try discriminate.
  { destruct s; discriminate. }
  destruct l as [| bridge_data rest]; [discriminate |].
  cbn [py_getitem_0].
  destruct bridge_data as [| ? | ? | ? | ? | ? | b]; try discriminate.
  cbn [py_get].
  destruct (dict_lookup "owner" b) as [owner |] eqn:Ho.
  - destruct owner as [| ? | ? | ? | ? | ? | o]; try discriminate.
    cbn [py_get].
    destruct (dict_lookup "metadata" b) as [metadata |];
      destruct (py_get (py_or _ (JDict [])) "name" (JStr "Hue Bridge")); try discriminate;
      (destruct (dict_lookup "rid" o) as [rid |] eqn:Hr; cbn [py_truthy];
       [destruct (py_truthy rid) eqn:Hrid |]); intros [= <-]; cbn;
      exists d, b, rest; rewrite Ho; repeat split; auto;
      exists o; rewrite Hr, ?Hrid; split; reflexivity.
  - cbn [py_get dict_lookup py_truthy].
    destruct (dict_lookup "metadata" b) as [metadata |];
      destruct (py_get (py_or _ (JDict [])) "name" (JStr "Hue Bridge")); try discriminate;
      intros [= <-]; cbn; exists d, b, rest; rewrite Ho; repeat split; auto.
Qed.

(** X9. An answer whose first bridge has an ["owner"] that is not a
    dict, null for one, is dropped as a whole: [get_bridge_info] returns
    the fallback record and logs the [AttributeError], whatever else the
    answer holds. *)
Theorem owner_that_is_no_dict_drops_the_answer :
  forall hue_get bridge_ip app_key w d b rest owner,
    hue_get bridge_ip app_key "/clip/v2/resource/bridge" = Return (JDict d) ->
    dict_lookup "data" d = Some (JList (JDict b :: rest)) ->
    dict_lookup "owner" b = Some owner ->
    (forall o, owner <> JDict o) ->
    get_bridge_info hue_get bridge_ip app_key w =
      (Return fallback_bridge_info,
       snd (log_world WARNING (MsgNoBridgeInfo AttributeError) w)).
Proof.
  intros hue_get bridge_ip app_key w d b rest owner Hq Hd Ho Hn.
  unfold get_bridge_info. run. rewrite Hq.
  unfold bridge_info_of, rbind. cbn [py_get py_getitem_str py_truthy py_len py_getitem_0].
  rewrite Hd. cbn [py_truthy List.length].
  replace (Z.ltb 0 (Z.of_nat (S (List.length rest)))) with true
    by (symmetry; apply Z.ltb_lt; lia).
  cbn [py_get py_getitem_str py_getitem_0]. rewrite Ho.
  destruct owner; try reflexivity. exfalso. eapply Hn. reflexivity.
Qed.

(* ===================================================================== *)
(** ** More about the packet handler                                      *)
(* ===================================================================== *)

(** X10. The handler counts every packet it is given and leaves the
    number of lights alone, whatever the library does; when the library
    accepts every input, the packets delivered are forwarded in arrival
    order, each as the Translator yields it, none lost and none twice. *)
Theorem delivered_packets_are_counted_and_forwarded :
  forall (lib : StreamingLibrary) (packets : list Packet) (self : Bridge),
  exists self',
    deliver packets self = (Return tt, self') /\
    packet_count self' = packet_count self + Z.of_nat (List.length packets) /\
    num_lights self' = num_lights self /\
    (accepts_every_input ->
     input_queue (streaming self') =
       input_queue (streaming self) ++
       flat_map (fun p => translate (dmxData p) (num_lights self)) packets).
Proof.
  intros lib packets. unfold deliver.
  induction packets as [| p ps IH]; intros self; cbn [for_each flat_map List.length].
  - exists self. rewrite app_nil_r, Z.add_0_r. repeat split; auto.
  - destruct (on_dmx_data_pushes p self) as (s1 & ups & rest & E & Hn & Hc & Hq & Ht & Hr).
    destruct (IH s1) as (s2 & E2 & Hc2 & Hn2 & Hq2).
    exists s2. rewrite (bind_Return _ _ _ _ _ E), E2.
    split; [reflexivity |]. split; [lia |]. split; [congruence |].
    intros Hacc. rewrite (Hq2 Hacc), Hq, Hn, Ht, (Hr Hacc), app_nil_r.
    now rewrite <- app_assoc.
Qed.

Lemma translate_firstn (frame : list byte) n :
  translate (firstn (n * 3) frame) n = translate frame n.
Proof.
  unfold translate.
  assert (H : forall i, In i (seq 0 n) ->
            slot_update (firstn (n * 3) frame) i = slot_update frame i).
  { intros i Hi. apply in_seq in Hi. unfold slot_update.
    rewrite length_firstn.
    destruct (Nat.leb_spec (i * 3 + 3) (List.length frame));
      destruct (Nat.leb_spec (i * 3 + 3) (Nat.min (n * 3) (List.length frame)));
      try lia; [| reflexivity].
    rewrite !nth_firstn.
    destruct (Nat.ltb_spec (i * 3) (n * 3)); [| lia].
    destruct (Nat.ltb_spec (i * 3 + 1) (n * 3)); [| lia].
    destruct (Nat.ltb_spec (i * 3 + 2) (n * 3)); [| lia].
    reflexivity. }
  revert H. generalize (seq 0 n) as l.
  induction l as [| i l IH]; intros H; cbn; [reflexivity |].
  rewrite (H i (or_introl eq_refl)). f_equal. apply IH. intros j Hj. apply H. now right.
Qed.

(** X11. The handler reads the first [num_lights * 3] channels of a
    frame and nothing else of the packet: two packets that agree on them
    make it push the same inputs, whatever their universes and their
    other channels. *)
Theorem channels_beyond_the_lights_are_ignored :
  forall (lib : StreamingLibrary) (p1 p2 : Packet) (self : Bridge),
    accepts_every_input ->
    firstn (num_lights self * 3) (dmxData p1) = firstn (num_lights self * 3) (dmxData p2) ->
    exists s1 s2 ups,
      _on_dmx_data p1 self = (Return tt, s1) /\
      _on_dmx_data p2 self = (Return tt, s2) /\
      input_queue (streaming s1) = input_queue (streaming self) ++ ups /\
      input_queue (streaming s2) = input_queue (streaming self) ++ ups.
Proof.
  intros lib p1 p2 self Hacc Hsame.
  destruct (on_dmx_data_pushes p1 self) as (s1 & ups1 & rest1 & E1 & _ & _ & Hq1 & Ht1 & Hr1).
  destruct (on_dmx_data_pushes p2 self) as (s2 & ups2 & rest2 & E2 & _ & _ & Hq2 & Ht2 & Hr2).
  rewrite (Hr1 Hacc), app_nil_r in Ht1. rewrite (Hr2 Hacc), app_nil_r in Ht2.
  exists s1, s2, ups1. repeat split; auto.
  rewrite Hq2. f_equal. rewrite <- Ht1, <- Ht2.
  rewrite <- (translate_firstn (dmxData p1)), <- (translate_firstn (dmxData p2)).
  now rewrite Hsame.
Qed.

Lemma all_bytes_complete (b : byte) : In b all_bytes.
Proof.
  assert (H : existsb (Byte.eqb b) all_bytes = true) by (destruct b; vm_compute; reflexivity).
  apply existsb_exists in H. destruct H as (b' & Hin & Heq).
  apply Byte.byte_dec_bl in Heq. now subst.
Qed.

Lemma normalize_order_checked :
  forallb (fun b1 =>
    forallb (fun b2 =>
      Bool.eqb (PrimFloat.ltb (normalize b1) (normalize b2))
               (N.ltb (Byte.to_N b1) (Byte.to_N b2)))
      all_bytes) all_bytes = true.
Proof. vm_compute. reflexivity. Qed.

(** X12. Dividing by [255.0] keeps the 256 levels apart and in order:
    the float of one byte is below the float of another exactly when the
    byte is; 0 becomes [0.0] and 255 becomes [1.0]. *)
Theorem normalize_keeps_the_order :
  forall b1 b2,
    PrimFloat.ltb (normalize b1) (normalize b2) = N.ltb (Byte.to_N b1) (Byte.to_N b2) /\
    normalize x00 = 0%float /\
    normalize xff = 1%float.
Proof.
  intros b1 b2. split; [| split; reflexivity].
  pose proof normalize_order_checked as H.
  rewrite forallb_forall in H. specialize (H b1 (all_bytes_complete b1)).
  rewrite forallb_forall in H. specialize (H b2 (all_bytes_complete b2)).
  now apply Bool.eqb_prop in H.
Qed.

(** X13. From the third packet on, a packet whose number is no multiple
    of 500 costs one record in the journal, a [DEBUG] one, when the
    library accepts every input: the lights are updated without a record
    each. *)
Theorem later_packets_log_one_debug_record :
  forall (lib : StreamingLibrary) (packet : Packet) (self : Bridge),
    accepts_every_input ->
    2 <= packet_count self ->
    (packet_count self + 1) mod 500 <> 0 ->
    exists self',
      _on_dmx_data packet self = (Return tt, self') /\
      journal self' =
        journal self ++
        [(DEBUG, MsgPacket (packet_count self + 1) (List.length (dmxData packet)))].
Proof.
  intros lib packet self Hacc Hcount Hmod.
  destruct (on_dmx_data_run packet self)
    as (self' & ups & rest & js & tail & E & _ & _ & _ & _ & Hj & _ & Hq & _ & Hr).
  exists self'. split; [exact E |].
  rewrite Hj, (Hq ltac:(lia)).
  destruct rest as [| u rest].
  - subst tail. unfold packet_records.
    destruct (Z.eqb_spec (packet_count self + 1) 1); [lia |].
    destruct (Z.eqb_spec ((packet_count self + 1) mod 500) 0); [contradiction |].
    reflexivity.
  - destruct Hr as (e & Hraise & _). rewrite Hacc in Hraise. discriminate.
Qed.

(** X14. Whatever the library does, the inputs the handler pushes are
    the first ones of what the Translator yields, in its order. When one
    is missing, the library raised on the first missing one: the handler
    wrote that as its one [ERROR] record, the last of the frame, and gave
    the lights after it nothing. When none is missing, no [ERROR] record
    is written. *)
Theorem refused_input_ends_the_frame :
  forall (lib : StreamingLibrary) (packet : Packet) (self : Bridge),
  exists self' ups rest js,
    _on_dmx_data packet self = (Return tt, self') /\
    streaming self' = {| input_queue := input_queue (streaming self) ++ ups;
                         streaming_open := streaming_open (streaming self) |} /\
    translate (dmxData packet) (num_lights self) = ups ++ rest /\
    journal self' = journal self ++ js /\
    match rest with
    | [] => List.Forall (fun rec : LogRecord => fst rec <> ERROR) js
    | u :: _ =>
        exists e js0,
          set_input_raises {| input_queue := input_queue (streaming self) ++ ups;
                              streaming_open := streaming_open (streaming self) |} u = Some e /\
          js = js0 ++ [(ERROR, MsgErrorProcessing e)] /\
          List.Forall (fun rec : LogRecord => fst rec <> ERROR) js0
    end.
Proof.
  intros lib packet self.
  destruct (on_dmx_data_run packet self)
    as (self' & ups & rest & js & tail & E & _ & _ & Hs & Ht & Hj & Hinfo & _ & _ & Hr).
  assert (Hquiet : List.Forall (fun rec : LogRecord => fst rec <> ERROR)
            (packet_records (packet_count self + 1) packet ++ js)).
  { apply List.Forall_app. split; [apply packet_records_levels |].
    eapply List.Forall_impl; [| exact Hinfo]. cbn. intros rec ->. discriminate. }
  exists self', ups, rest, (packet_records (packet_count self + 1) packet ++ js ++ tail).
  repeat split; auto.
  destruct rest as [| u rest].
  - subst tail. now rewrite app_nil_r.
  - destruct Hr as (e & Hraise & ->).
    exists e, (packet_records (packet_count self + 1) packet ++ js).
    rewrite <- app_assoc. auto.
Qed.

(* ===================================================================== *)
(** ** Discovery, area names and the multicast address                    *)
(* ===================================================================== *)

(** X15. [discover_bridge_ip] never raises. It returns an address
    exactly when the answer is a list whose first item is a dict with a
    truthy ["internalipaddress"], and then that value: the other items of
    the list are not looked at. It writes to standard error only when it
    caught an exception. *)
Theorem discovery_reads_the_first_bridge :
  forall nupnp evs,
  exists r evs',
    discover_bridge_ip nupnp evs = (Return r, evs') /\
    (forall ip,
       r = Some ip <->
       (py_truthy ip = true /\
        exists d rest,
          nupnp = Return (JList (JDict d :: rest)) /\
          dict_lookup "internalipaddress" d = Some ip)) /\
    (evs' = evs \/ exists e, r = None /\ evs' = evs ++ [DiscoveryFailed e]).
Proof.
  intros nupnp evs. unfold discover_bridge_ip, emit. run.
  destruct nupnp as [arr | e]; cbn.
  2: { eexists _, _. split; [reflexivity |]. split.
       - intros ip. split; [discriminate |]. intros (_ & d & rest & H & _). discriminate.
       - right. eauto. }
  destruct arr as [| | | | | [| first rest] |]; cbn;
    try (eexists _, _; split; [reflexivity |]; split;
         [intros ip; split; [discriminate | intros (_ & d0 & rest' & H & _); discriminate]
         | left; reflexivity]).
  destruct first as [| | | | | | d]; cbn;
    try (eexists _, _; split; [reflexivity |]; split;
         [intros ip; split; [discriminate | intros (_ & d' & rest' & H & _); discriminate]
         | right; eauto]).
  destruct (dict_lookup "internalipaddress" d) as [v |] eqn:L; cbn.
  - destruct (py_truthy v) eqn:T; eexists _, _; (split; [reflexivity |]); split;
      try (left; reflexivity).
    + intros ip. split.
      * intros [= <-]. split; [assumption |]. eauto.
      * intros (_ & d' & rest' & [= <- <-] & H). rewrite L in H. now injection H as ->.
    + intros ip. split; [discriminate |].
      intros (Hip & d' & rest' & [= <- <-] & H). rewrite L in H. injection H as ->.
      congruence.
  - eexists _, _. split; [reflexivity |]. split; [| left; reflexivity].
    intros ip. split; [discriminate |].
    intros (_ & d' & rest' & [= <- <-] & H). congruence.
Qed.

Lemma collect_names_step area rest names :
  (area_is_read area = true ->
   collect_names (area :: rest) names = collect_names rest (names ++ [area_entry area])) /\
  (area_is_read area = false ->
   exists e, collect_names (area :: rest) names = Raise e).
Proof.
  unfold area_is_read, area_entry. cbn [collect_names]. unfold rbind.
  destruct area as [| | | | | | a]; cbn [py_get]; try (split; [discriminate | eauto]).
  destruct (dict_lookup "id" a) as [area_id |];
    destruct (dict_lookup "metadata" a) as [[| | | | | | m] |]; cbn [py_get];
    rewrite ?andb_false_r, ?andb_true_r; cbn [hashable];
    try (split; [discriminate | eauto]);
    try (destruct (hashable area_id); split; try discriminate; eauto).
  all: split; [reflexivity | discriminate].
Qed.

Lemma collect_names_spec (areas : list json) :
  forall names,
    (forallb area_is_read areas = true ->
     collect_names areas names = Return (names ++ map area_entry areas)) /\
    (forallb area_is_read areas = false ->
     exists e, collect_names areas names = Raise e).
Proof.
  induction areas as [| area rest IH]; intros names.
  - cbn. split; [now rewrite app_nil_r | discriminate].
  - destruct (collect_names_step area rest names) as [Ht Hf].
    cbn [forallb map]. destruct (area_is_read area); cbn [andb].
    + rewrite (Ht eq_refl).
      destruct (IH (names ++ [area_entry area])) as [IHt IHf].
      split; [| exact IHf].
      intros H. rewrite (IHt H), <- app_assoc. reflexivity.
    + split; [discriminate |]. intros _. now apply Hf.
Qed.

(** X16. [get_entertainment_area_names] never raises, and its names are
    all or nothing: for an answer that lists the areas, every area is
    recorded under its id with its name, or with its id when it has no
    name, provided each listed item is a dict with a hashable id and a
    ["metadata"] that is a dict or absent; one item that is not makes the
    function return the empty dict. A query that raises gives the empty
    dict too. *)
Theorem area_names_are_all_or_nothing :
  forall hue_get bridge_ip app_key evs,
  exists names evs',
    get_entertainment_area_names_of hue_get bridge_ip app_key evs = (Return names, evs') /\
    (forall d areas,
       hue_get bridge_ip app_key "/clip/v2/resource/entertainment_configuration" =
         Return (JDict d) ->
       dict_lookup "data" d = Some (JList areas) ->
       names = if forallb area_is_read areas then map area_entry areas else []) /\
    (forall e,
       hue_get bridge_ip app_key "/clip/v2/resource/entertainment_configuration" = Raise e ->
       names = [] /\ evs' = evs ++ [Logged WARNING (NoteNoAreaNames e)]).
Proof.
  intros hue_get bridge_ip app_key evs.
  unfold get_entertainment_area_names_of, emit. run.
  destruct (hue_get bridge_ip app_key _) as [data | e]; cbn.
  2: { eexists _, _. split; [reflexivity |]. split.
       - intros d areas [=].
       - intros e0 [= <-]. auto. }
  destruct (py_get data "data" (JList [])) as [listed | e] eqn:G; cbn.
  2: { eexists _, _. split; [reflexivity |]. split.
       - intros d areas [= ->]. cbn in G. discriminate.
       - intros e0 [=]. }
  destruct (py_iter listed) as [areas0 | e] eqn:I; cbn.
  2: { eexists _, _. split; [reflexivity |]. split.
       - intros d areas [= ->] L. cbn in G. rewrite L in G. injection G as <-.
         cbn in I. discriminate.
       - intros e0 [=]. }
  destruct (collect_names_spec areas0 []) as [Ht Hf].
  destruct (forallb area_is_read areas0) eqn:F.
  - rewrite (Ht eq_refl). cbn. eexists _, _. split; [reflexivity |]. split.
    + intros d areas [= ->] L. cbn in G. rewrite L in G. injection G as <-.
      cbn in I. injection I as <-. now rewrite F.
    + intros e0 [=].
  - destruct (Hf eq_refl) as [e He]. rewrite He. cbn.
    eexists _, _. split; [reflexivity |]. split.
    + intros d areas [= ->] L. cbn in G. rewrite L in G. injection G as <-.
      cbn in I. injection I as <-. now rewrite F.
    + intros e0 [=].
Qed.

(** X17. The address logged for a universe is [239.255.c.d] with [c]
    and [d] between 0 and 255 for every integer; for a universe from 0 to
    65535 they are its high and its low byte, and universes 65536 apart
    get the same address. *)
Theorem multicast_address_octets :
  forall universe,
  exists c d,
    multicast_address universe = (239, 255, c, d) /\
    0 <= c <= 255 /\ 0 <= d <= 255 /\
    (0 <= universe < 65536 -> universe = 256 * c + d) /\
    multicast_address (universe + 65536) = multicast_address universe.
Proof.
  intros universe.
  assert (Hhigh : forall u, Z.land (Z.shiftr u 8) 255 = (u / 256) mod 256).
  { intros u. change 255 with (Z.ones 8).
    rewrite Z.land_ones, Z.shiftr_div_pow2 by lia. reflexivity. }
  assert (Hlow : forall u, Z.land u 255 = u mod 256).
  { intros u. change 255 with (Z.ones 8). rewrite Z.land_ones by lia. reflexivity. }
  unfold multicast_address. rewrite !Hhigh, !Hlow.
  exists ((universe / 256) mod 256), (universe mod 256).
  split; [reflexivity |].
  pose proof (Z.mod_pos_bound (universe / 256) 256 ltac:(lia)).
  pose proof (Z.mod_pos_bound universe 256 ltac:(lia)).
  split; [lia |]. split; [lia |]. split.
  - intros Hu. rewrite (Z.mod_small (universe / 256) 256).
    + pose proof (Z.div_mod universe 256 ltac:(lia)). lia.
    + split; [apply Z.div_pos; lia | apply Z.div_lt_upper_bound; lia].
  - replace (universe + 65536) with (universe + 256 * 256) by lia.
    rewrite Z.div_add, Z.mod_add by lia.
    replace (universe / 256 + 256) with (universe / 256 + 1 * 256) by lia.
    rewrite Z.mod_add by lia. reflexivity.
Qed.

(* ===================================================================== *)
(** ** [__init__], [start_streaming] and [run]                            *)
(* ===================================================================== *)

Ltac machine_simpl H :=
  cbn [machine_world receiver events fst snd self machine option_map
       joined listening started] in H.

Lemma select_area_Return get_configs request w config area_name w' :
  select_area get_configs request w = (Return (config, area_name), w') ->
  area_name = request /\
  exists catalog area_id,
    get_configs = Return catalog /\
    In (area_id, config) catalog /\ lower area_id = lower request.
Proof.
  unfold select_area, log_world. run. intros H.
  repeat (break_in H; try discriminate).
  injection H as <- <- <-.
  match goal with
  | E : find_area _ _ = Some _ |- _ =>
      apply find_area_Some in E; destruct E as [-> (area_id & Hin & Hl)]
  end.
  split; [reflexivity |]. eauto.
Qed.

(** The first part of [__init__] leaves the receiver alone, and returns
    a configuration only if an id of the catalog equals the request up to
    case and the streaming service could be built for it. *)
Lemma prepare_streaming_spec c request m r m' :
  prepare_streaming c request m = (r, m') ->
  receiver m' = receiver m /\
  forall config area_name, r = Return (config, area_name) ->
    area_name = request /\
    new_streaming_raises c config = None /\
    exists catalog area_id,
      get_entertainment_configs (services c) = Return catalog /\
      In (area_id, config) catalog /\ lower area_id = lower request.
Proof.
  unfold prepare_streaming, on_world, note, call.
  unfold log_world at 1 2 3. run. intros H. machine_simpl H.
  repeat (break_in H; machine_simpl H; try discriminate).
  all: injection H as <- <-; cbn [receiver]; split; [reflexivity |].
  all: intros config area_name Hret; try discriminate.
  all: injection Hret as ->.
  all: match goal with
       | E : select_area _ _ _ = _ |- _ => apply select_area_Return in E
       end.
  all: cbn [fst] in *; intuition.
Qed.

(** The second part leaves a receiver that runs, or one that does not. *)
Lemma start_receiver_spec c universe m r m' :
  start_receiver c universe m = (r, m') ->
  match r with
  | Return _ =>
      receiver m' = Some {| joined := [universe]; listening := [universe]; started := true |}
  | Raise _ =>
      receiver m' = receiver m \/
      exists rc, receiver m' = Some rc /\ started rc = false
  end.
Proof.
  unfold start_receiver, log_multicast, multicast_address, note, set_receiver,
    update_receiver, call. run. intros H. machine_simpl H.
  repeat (break_in H; machine_simpl H; try discriminate).
  all: injection H as <- <-; cbn; eauto.
Qed.

(** X18. Started without a receiver, [__init__] leaves one that runs
    exactly when it returns: then the receiver has joined the group of the
    universe and listens to it, and the object counts no packet, has a
    closed stream with nothing queued, keeps the request as its area name
    and has as many lights as the channels of its configuration, which is
    one the catalog holds under an id equal to the request up to case.
    When [__init__] raises, there is no receiver or one that was never
    started. *)
Theorem bridge_init_outcome :
  forall c request universe m,
    receiver m = None ->
    exists r m',
      bridge_init c request universe m = (r, m') /\
      match r with
      | Return inst =>
          receiver m' =
            Some {| joined := [universe]; listening := [universe]; started := true |} /\
          self_universe inst = universe /\
          self_area_name inst = request /\
          self_bridge inst =
            {| num_lights := List.length (channels (self_config inst));
               packet_count := 0;
               streaming := {| input_queue := []; streaming_open := false |};
               journal := [] |} /\
          exists catalog area_id,
            get_entertainment_configs (services c) = Return catalog /\
            In (area_id, self_config inst) catalog /\ lower area_id = lower request
      | Raise _ =>
          receiver m' = None \/
          exists rc, receiver m' = Some rc /\ started rc = false
      end.
Proof.
  intros c request universe m Hnone. unfold bridge_init, bind.
  destruct (prepare_streaming c request m) as [r1 m1] eqn:E1.
  destruct (prepare_streaming_spec _ _ _ _ _ E1) as [Hr1 Hsel].
  destruct r1 as [[config area_name] | e].
  - destruct (Hsel config area_name eq_refl) as (-> & _ & Hcat).
    destruct (start_receiver c universe m1) as [r2 m2] eqn:E2.
    pose proof (start_receiver_spec _ _ _ _ _ E2) as H2.
    destruct r2 as [[] | e]; eexists _, _; (split; [reflexivity |]).
    + cbn. repeat split; auto.
    + rewrite Hr1, Hnone in H2. exact H2.
  - eexists _, _. split; [reflexivity |]. left. congruence.
Qed.

(** X19. When the entertainment service works and no id of its catalog
    equals the request up to case, [__init__] raises the not-found error
    before it asks for the streaming service or creates the receiver: the
    process has no receiver more than before and nothing but log records
    of the selection came out. *)
Theorem unknown_area_stops_init_early :
  forall c (catalog : Catalog) request universe m,
    entertainment_service (services c) = Return tt ->
    get_entertainment_configs (services c) = Return catalog ->
    (forall area_id config, In (area_id, config) catalog -> lower area_id <> lower request) ->
    exists m',
      bridge_init c request universe m =
        (Raise (ValueError (not_found_message request)), m') /\
      receiver m' = receiver m /\
      events m' = events m /\
      stdout (machine_world m') = stdout (machine_world m).
Proof.
  intros c catalog request universe m Hs Hc Hnone.
  apply find_area_None in Hnone.
  unfold bridge_init, prepare_streaming, on_world. rewrite Hs, Hc.
  unfold log_world at 1 2. run. cbn.
  rewrite (select_area_not_found catalog request _ Hnone).
  eexists. split; [reflexivity |]. cbn. auto.
Qed.

(** X20. Whether the lookup of the local address works makes no
    difference to [__init__] beyond its log: the result, the receiver and
    the world are the same. *)
Theorem local_ip_lookup_is_harmless :
  forall c o request universe m,
    fst (bridge_init (with_local_ip o c) request universe m) =
      fst (bridge_init c request universe m) /\
    receiver (snd (bridge_init (with_local_ip o c) request universe m)) =
      receiver (snd (bridge_init c request universe m)) /\
    machine_world (snd (bridge_init (with_local_ip o c) request universe m)) =
      machine_world (snd (bridge_init c request universe m)).
Proof.
  intros c o request universe m.
  unfold bridge_init, prepare_streaming, start_receiver, with_local_ip, log_multicast,
    multicast_address, on_world, note, set_receiver, update_receiver, call.
  cbn [services get_ent_conf_repo_raises new_streaming_raises local_ip_raises
       new_receiver_raises join_multicast_raises register_listener_raises
       receiver_start_raises].
  unfold log_world at 1 2 3 4 5 6. run.
  cbn [machine_world receiver events fst snd option_map].
  destruct (entertainment_service (services c)); cbn; [| auto].
  destruct (select_area _ _ _) as [[[config area_name] | e] w1]; cbn; [| auto].
  destruct (get_ent_conf_repo_raises c); cbn; [auto |].
  destruct (new_streaming_raises c config); cbn; [auto |].
  destruct o; destruct (local_ip_raises c); cbn;
    destruct (new_receiver_raises c); cbn; auto;
    destruct (join_multicast_raises c universe); cbn; auto;
    destruct (register_listener_raises c universe); cbn; auto;
    destruct (receiver_start_raises c); cbn; auto.
Qed.

Lemma stop_streaming_eq `{StreamingLibrary} (b : Bridge) :
  stop_streaming b =
    (Return tt,
     match stop_stream_raises (streaming b) with
     | Some e =>
         {| num_lights := num_lights b; packet_count := packet_count b;
            streaming := streaming b;
            journal := journal b ++ [(INFO, MsgStopping); (ERROR, MsgErrorStopping e)] |}
     | None =>
         {| num_lights := num_lights b; packet_count := packet_count b;
            streaming := {| input_queue := input_queue (streaming b);
                            streaming_open := false |};
            journal := journal b ++ [(INFO, MsgStopping); (INFO, MsgStopped)] |}
     end).
Proof.
  unfold stop_streaming, stop_stream, log_bridge, set_streaming. run. cbn.
  destruct (stop_stream_raises (streaming b)); cbn; now rewrite <- app_assoc.
Qed.

Lemma start_streaming_eq (c : Collaborators) (st : Running) :
  start_streaming c st =
    match start_stream_raises c (streaming (self st)) with
    | Some e =>
        (Raise e,
         {| self := self st;
            machine := {| machine_world := machine_world (machine st);
                          receiver := receiver (machine st);
                          events := events (machine st) ++
                                    [Logged INFO NoteStartingStream;
                                     Logged ERROR (NoteFailedStream e)] |} |})
    | None =>
        let opened := {| num_lights := num_lights (self st);
                         packet_count := packet_count (self st);
                         streaming := {| input_queue := input_queue (streaming (self st));
                                         streaming_open := true |};
                         journal := journal (self st) |} in
        match set_color_space_raises c (streaming opened) "rgb" with
        | Some e =>
            (Raise e,
             {| self := opened;
                machine := {| machine_world := machine_world (machine st);
                              receiver := receiver (machine st);
                              events := events (machine st) ++
                                        [Logged INFO NoteStartingStream;
                                         Logged ERROR (NoteFailedStream e)] |} |})
        | None =>
            (Return tt,
             {| self := opened;
                machine := {| machine_world := machine_world (machine st);
                              receiver := receiver (machine st);
                              events := events (machine st) ++
                                        [Logged INFO NoteStartingStream;
                                         Logged INFO NoteStreamActive] |} |})
        end
    end.
Proof.
  unfold start_streaming, on_machine, on_self, note, set_streaming, call. run.
  cbn [machine self machine_world receiver events fst snd].
  destruct (start_stream_raises c (streaming (self st))); cbn.
  - now rewrite <- app_assoc.
  - destruct (set_color_space_raises c _ "rgb"); cbn; now rewrite <- app_assoc.
Qed.

(** X21. When [start_stream] or [set_color_space] raises, [run] logs the
    failure and raises the same exception: the configuration is not
    printed, no time is spent in the loop, and the receiver [__init__]
    started is left as it is. After a failure of [set_color_space] the
    stream stays open. *)
Theorem run_raises_what_start_streaming_raises :
  forall (lib : StreamingLibrary) c area_name universe uptime (st : Running),
    match start_stream_raises c (streaming (self st)) with
    | Some e =>
        run c area_name universe uptime st =
          (Raise e,
           {| self := self st;
              machine := {| machine_world := machine_world (machine st);
                            receiver := receiver (machine st);
                            events := events (machine st) ++
                                      [Logged INFO NoteStartingStream;
                                       Logged ERROR (NoteFailedStream e)] |} |})
    | None =>
        forall e,
          set_color_space_raises c
            {| input_queue := input_queue (streaming (self st)); streaming_open := true |}
            "rgb" = Some e ->
          exists st',
            run c area_name universe uptime st = (Raise e, st') /\
            streaming_open (streaming (self st')) = true /\
            receiver (machine st') = receiver (machine st) /\
            machine_world (machine st') = machine_world (machine st) /\
            events (machine st') =
              events (machine st) ++
              [Logged INFO NoteStartingStream; Logged ERROR (NoteFailedStream e)]
    end.
Proof.
  intros lib c area_name universe uptime st.
  destruct (start_stream_raises c (streaming (self st))) as [e0 |] eqn:Hs.
  - unfold run. unfold bind at 1. now rewrite start_streaming_eq, Hs.
  - intros e He. unfold run. unfold bind at 1. rewrite start_streaming_eq, Hs.
    cbv zeta. cbn [streaming]. rewrite He.
    eexists. split; [reflexivity |]. cbn. auto.
Qed.

(** X22. When the stream starts, [run] prints the configuration, sleeps
    until Ctrl+C, tries to stop the stream and then stops the receiver,
    also when stopping the stream failed: a failure of [stop_stream] is
    logged and leaves the stream open, and only a failure of
    [receiver.stop()] makes [run] raise. *)
Theorem run_stops_the_receiver_after_the_stream :
  forall (lib : StreamingLibrary) c area_name universe uptime (st : Running),
    start_stream_raises c (streaming (self st)) = None ->
    set_color_space_raises c
      {| input_queue := input_queue (streaming (self st)); streaming_open := true |}
      "rgb" = None ->
    exists st',
      run c area_name universe uptime st =
        (match receiver_stop_raises c with Some e => Raise e | None => Return tt end, st') /\
      receiver (machine st') =
        match receiver_stop_raises c with
        | Some _ => receiver (machine st)
        | None => option_map (fun r => {| joined := joined r; listening := listening r;
                                          started := false |}) (receiver (machine st))
        end /\
      streaming_open (streaming (self st')) =
        match stop_stream_raises
                {| input_queue := input_queue (streaming (self st)); streaming_open := true |}
        with Some _ => true | None => false end /\
      clock (machine_world (machine st')) =
        clock (machine_world (machine st)) + Z.of_N uptime /\
      events (machine st') =
        events (machine st) ++
        [Logged INFO NoteStartingStream; Logged INFO NoteStreamActive;
         PrintedConfig area_name universe (num_lights (self st));
         Logged INFO NoteRunning; Logged INFO NoteStoppedByUser;
         Logged INFO NoteStoppingReceiver] ++
        match receiver_stop_raises c with
        | Some _ => []
        | None => [Logged INFO NoteCleanShutdown]
        end.
Proof.
  intros lib c area_name universe uptime st Hstart Hspace.
  unfold run. unfold bind at 1. rewrite start_streaming_eq, Hstart.
  cbv zeta. cbn [streaming]. rewrite Hspace.
  unfold print_config, on_machine, on_world, on_self, note, tell, update_receiver,
    call, elapse. run.
  cbn [machine self machine_world receiver events fst snd num_lights].
  rewrite stop_streaming_eq. cbn [streaming fst snd].
  destruct (stop_stream_raises _) as [e1 |];
    destruct (receiver_stop_raises c) as [e2 |]; cbn;
    eexists; (split; [reflexivity |]); cbn;
    rewrite <- ?app_assoc; repeat split; auto.
Qed.

(* ===================================================================== *)
(** ** [main] around the credentials, and its exit codes                  *)
(* ===================================================================== *)


Lemma save_config_eq host (data : gmap string json) s :
  save_config host data s =
    (Return tt,
     match write_config_raises host data with
     | Some e => {| session_world := session_world s;
                    session_events := session_events s ++ [ConfigWriteFailed e];
                    saved := saved s |}
     | None => {| session_world := session_world s;
                  session_events := session_events s;
                  saved := saved s ++ [data] |}
     end).
Proof.
  unfold save_config, call, write_file, report. run.
  destruct (write_config_raises host data); reflexivity.
Qed.




(** X24. After a re-pair that returned two strings, [main] prints that
    the re-pairing is complete and the credentials saved, and exits with
    code 0, also when the configuration file could not be written: then
    the failure went to standard error and the write was not completed. *)
Theorem repair_reports_success_without_a_save :
  forall env host bridge_ip args_app_key (cfg cfg' : gmap string json) s username clientkey w' e,
    ensure_app_key env bridge_ip args_app_key cfg true (session_world s) =
      Some (Return (JStr username, JStr clientkey, cfg'), w') ->
    write_config_raises host cfg' = Some e ->
    main_credentials env host bridge_ip args_app_key cfg true s =
      Some (Exit 0,
            {| session_world := w';
               session_events :=
                 session_events s ++
                 [Logged DEBUG (NoteUsername (JStr (String.substring 0 8 username)));
                  Logged DEBUG (NoteClientkey (JStr (String.substring 0 8 clientkey)));
                  ConfigWriteFailed e;
                  PrintedRepairComplete];
               saved := saved s |}).
Proof.
  intros env host bridge_ip args_app_key cfg cfg' s username clientkey w' e E Hw.
  unfold main_credentials. rewrite E.
  unfold log_credentials, report. run. cbn.
  rewrite save_config_eq, Hw. cbn. now rewrite <- !app_assoc.
Qed.

Lemma substring_prefix (n : nat) : forall s,
  (String.length (String.substring 0 n s) <= n)%nat /\
  String.prefix (String.substring 0 n s) s = true.
Proof.
  induction n as [| n IH]; intros s.
  - destruct s; cbn; split; auto.
  - destruct s as [| ch s]; cbn.
    + split; [lia | reflexivity].
    + destruct (IH s) as [Hl Hp]. split; [lia |].
      destruct (Ascii.ascii_dec ch ch); [assumption | contradiction].
Qed.

(** X25. Of credentials that are strings the log gets their first eight
    characters at most: the two [DEBUG] records hold a prefix of the token
    and a prefix of the client key, none longer than 8, and nothing is
    written to the file by logging. *)
Theorem credentials_are_logged_by_prefix :
  forall host username clientkey s,
  exists u k,
    log_credentials host (JStr username) (JStr clientkey) s =
      (Return tt,
       {| session_world := session_world s;
          session_events := session_events s ++
                            [Logged DEBUG (NoteUsername (JStr u));
                             Logged DEBUG (NoteClientkey (JStr k))];
          saved := saved s |}) /\
    (String.length u <= 8)%nat /\ String.prefix u username = true /\
    (String.length k <= 8)%nat /\ String.prefix k clientkey = true.
Proof.
  intros host username clientkey s.
  exists (String.substring 0 8 username), (String.substring 0 8 clientkey).
  split.
  - unfold log_credentials, report. run. cbn. now rewrite <- app_assoc.
  - destruct (substring_prefix 8 username), (substring_prefix 8 clientkey). auto.
Qed.

Lemma print_each {A} (f : A -> Out) (xs : list A) :
  forall w,
    for_each xs (fun x => print (f x)) w =
      (Return tt,
       {| clock := clock w; posts := posts w;
          stdout := stdout w ++ map f xs; logged := logged w |}).
Proof.
  induction xs as [| x xs IH]; intros w; cbn [for_each map].
  - unfold ret. rewrite app_nil_r. now destruct w.
  - unfold bind, print at 1, modify. rewrite IH. cbn. now rewrite <- app_assoc.
Qed.

(** The listing branch and the starting branch of [main] end with an
    exit code, one of 0, 5, 6 and 7. *)
Lemma main_areas_exit_codes svc args_list args_area w :
  exists code w',
    main_areas svc args_list args_area w = (Return code, w') /\
    In code [0; 5; 6; 7].
Proof.
  unfold main_areas.
  destruct (args_list || negb (py_truthy (of_optional args_area))).
  - unfold bind at 1. unfold try_except, any_Exception.
    unfold bind at 1, lift at 1.
    destruct (entertainment_service svc) as [[] | e].
    + unfold bind at 1, lift at 1.
      destruct (get_entertainment_configs svc) as [catalog | e].
      * unfold ret at 1. unfold bind at 1, print at 1, modify at 1.
        destruct catalog as [| entry rest].
        -- unfold print, bind, modify, ret. eexists _, _. split; [reflexivity |].
           cbn. auto.
        -- unfold bind at 1. rewrite print_each.
           unfold print, bind, modify, ret.
           destruct (negb args_list); eexists _, _; (split; [reflexivity |]); cbn; auto.
      * unfold log_world, bind, modify, ret. eexists _, _. split; [reflexivity |].
        cbn. auto.
    + unfold log_world, bind, modify, ret. eexists _, _. split; [reflexivity |].
      cbn. auto.
  - unfold bind at 1, log_world at 1, modify at 1.
    unfold try_except, any_Exception. unfold bind at 1.
    destruct (start_bridge svc _ _) as [[[] | e] w1].
    + unfold ret. eexists _, _. split; [reflexivity |]. cbn. auto.
    + unfold log_world, bind, modify, ret. eexists _, _. split; [reflexivity |].
      cbn. auto 6.
Qed.

Lemma get_bridge_info_returns hue_get bridge_ip app_key w :
  exists info w',
    get_bridge_info hue_get bridge_ip app_key w = (Return info, w') /\
    (forall e, hue_get bridge_ip app_key "/clip/v2/resource/bridge" = Raise e ->
               info = fallback_bridge_info).
Proof.
  unfold get_bridge_info. run.
  destruct (hue_get bridge_ip app_key "/clip/v2/resource/bridge") as [data | e]; cbn.
  - destruct (bridge_info_of data) as [[built |] | e]; cbn;
      eexists _, _; (split; [reflexivity |]); intros e0 [=].
  - eexists _, _. split; [reflexivity |]. reflexivity.
Qed.

(** X26. The rest of [main] never raises and ends with one of the exit
    codes 0, 4, 5, 6 and 7; it ends with 4 exactly when [create_bridge]
    raises for the bridge record. A query about the bridge that fails does
    not stop [main]: [create_bridge] is then asked with the fallback
    record. *)
Theorem main_tail_exit_codes :
  forall host hue_get svc bridge_ip app_key args_list args_area s,
  exists code s' info,
    main_tail host hue_get svc bridge_ip app_key args_list args_area s = (Return code, s') /\
    In code [0; 4; 5; 6; 7] /\
    fst (get_bridge_info hue_get bridge_ip app_key (session_world s)) = Return info /\
    (code = 4 <-> create_bridge_raises host info <> None) /\
    (forall e, hue_get bridge_ip app_key "/clip/v2/resource/bridge" = Raise e ->
               info = fallback_bridge_info).
Proof.
  intros host hue_get svc bridge_ip app_key args_list args_area s.
  destruct (get_bridge_info_returns hue_get bridge_ip app_key (session_world s))
    as (info & w1 & E & Hfall).
  unfold main_tail, in_session, report, call. run. cbn [session_world]. rewrite E.
  cbn [session_world session_events saved].
  destruct (create_bridge_raises host info) as [e |] eqn:C; cbn.
  - exists 4. eexists. exists info. split; [reflexivity |]. cbn.
    repeat split; auto; congruence.
  - destruct (main_areas_exit_codes svc args_list args_area w1) as (code & w2 & Em & Hin).
    rewrite Em. exists code. eexists. exists info. split; [reflexivity |]. cbn.
    split; [cbn in Hin; intuition |]. split; [reflexivity |]. split; [| exact Hfall].
    split; [| congruence].
    intros ->. cbn in Hin. intuition discriminate.
Qed.

(* ===================================================================== *)
(** ** The further theorems at concrete inputs                            *)
(* ===================================================================== *)

(** The button is pressed before the third request. *)
Lemma pressed_before_third_returns_the_pair :
  exists w',
    create_entertainment_user pressed_before_third "192.168.1.2" fresh_world =
      Some (Return (JStr "NEWTOKEN", JStr "NEWCLIENTKEY"), w') /\
    posts w' = 3%nat /\
    clock w' = 4030 /\
    stdout w' =
      [OutPairingBanner; OutWaiting 1; OutWaiting 2;
       OutSuccess (JStr "NEWTOKEN") (JStr "NEWCLIENTKEY")].
Proof.
  apply (pairing_returns_the_first_success pressed_before_third "192.168.1.2" fresh_world
           2 (JStr "NEWTOKEN") (JStr "NEWCLIENTKEY")).
  - intros j Hj. destruct j as [| [| j]]; [discriminate | discriminate | lia].
  - reflexivity.
  - reflexivity.
Defined.

(** A bridge that cannot be reached: ten requests of three seconds and
    two seconds of sleep each, then the timeout with the last failure. *)
Lemma unreachable_bridge_times_out :
  exists n w',
    create_entertainment_user unreachable_bridge "192.168.1.2" fresh_world =
      Some (Raise (RuntimeError timeout_message), w') /\
    posts w' = (posts fresh_world + S n)%nat /\
    clock fresh_world + seconds 30 <= clock w' /\
    stdout w' =
      stdout fresh_world ++ [OutPairingBanner] ++
      retries_output unreachable_bridge (pairing_url "192.168.1.2") (posts fresh_world) 0 (S n) ++
      [OutTimeout] ++ [OutLastError (JStr "connect timeout")] ++ [OutRetryHint].
Proof.
  apply (pairing_retries_failed_requests unreachable_bridge "192.168.1.2" fresh_world
           (fun _ => "connect timeout")).
  intros k. reflexivity.
Defined.

(** The second answer is a list of numbers. *)
Lemma garbled_second_raises_a_type_error :
  exists w',
    create_entertainment_user garbled_second "192.168.1.2" fresh_world =
      Some (Raise TypeError, w') /\
    posts w' = 2%nat /\
    stdout w' = [OutPairingBanner; OutWaiting 1].
Proof.
  apply (pairing_aborts_on_other_exceptions garbled_second "192.168.1.2" fresh_world 1).
  - intros j Hj. destruct j as [| j]; [discriminate | lia].
  - reflexivity.
  - reflexivity.
Defined.

(** A stored client key without a token. *)
Lemma clientkey_only_cfg_has_no_credentials :
  ensure_app_key button_never_pressed "192.168.1.2" (Some "") clientkey_only_cfg false
    fresh_world =
    Some (Raise (RuntimeError "No credentials found. Run with --re-pair"),
          snd (print OutNoCredentials fresh_world)).
Proof.
  apply (no_token_means_no_credentials
           button_never_pressed "192.168.1.2" (Some "") clientkey_only_cfg fresh_world);
    vm_compute; reflexivity.
Defined.

(** The record built from an answer with an owner: the resource id is
    the owner's. *)
Lemma bridge_answer_ids :
  exists info d b rest o,
    bridge_info_of bridge_answer = Return (Some info) /\
    bridge_answer = JDict d /\
    dict_lookup "data" d = Some (JList (JDict b :: rest)) /\
    dict_lookup "owner" b = Some (JDict o) /\
    dict_lookup "rid" o = Some (JStr "9f8e7d6c") /\
    bi_id info = JStr "0a1b2c3d" /\
    bi_hue_app_id info = JStr "0a1b2c3d" /\
    bi_rid info = JStr "9f8e7d6c".
Proof.
  destruct (built_bridge_info_ids bridge_answer _ eq_refl)
    as (d & b & rest & Hd & Hb & Hid & Happ & Hrid).
  injection Hd as <-. injection Hb as <- <-.
  destruct Hrid as (o & Ho & Hrid). injection Ho as <-.
  eexists _, _, _, _, _. repeat split; reflexivity.
Defined.

(** An answer whose owner is null. *)
Lemma bridge_without_owner_is_dropped :
  get_bridge_info (answers bridge_without_owner) "192.168.1.2" "stored-token" fresh_world =
    (Return fallback_bridge_info,
     snd (log_world WARNING (MsgNoBridgeInfo AttributeError) fresh_world)).
Proof.
  eapply (owner_that_is_no_dict_drops_the_answer
            (answers bridge_without_owner) "192.168.1.2" "stored-token" fresh_world).
  - reflexivity.
  - reflexivity.
  - reflexivity.
  - intros o. discriminate.
Defined.

(** Two packets for two lights, the second one cut. *)
Lemma two_packets_in_order :
  exists self',
    @deliver reliable_library [red_green; red_green_cut] two_lights = (Return tt, self') /\
    packet_count self' = 2 /\
    input_queue (streaming self') =
      [(1%float, 0%float, 0%float, 0%nat); (0%float, 1%float, 0%float, 1%nat);
       (1%float, 0%float, 0%float, 0%nat)].
Proof.
  destruct (delivered_packets_are_counted_and_forwarded
              reliable_library [red_green; red_green_cut] two_lights)
    as (self' & E & Hc & _ & Hq).
  exists self'. split; [exact E |]. split; [exact Hc |].
  rewrite Hq; [vm_compute; reflexivity | intros s u; reflexivity].
Defined.

(** Two frames with the same three blocks, in other universes. *)
Lemma three_blocks_and_more_push_the_same :
  exists s1 s2 ups,
    @_on_dmx_data reliable_library three_blocks three_lights_running = (Return tt, s1) /\
    @_on_dmx_data reliable_library three_blocks_and_more three_lights_running =
      (Return tt, s2) /\
    input_queue (streaming s1) = input_queue (streaming three_lights_running) ++ ups /\
    input_queue (streaming s2) = input_queue (streaming three_lights_running) ++ ups.
Proof.
  apply (channels_beyond_the_lights_are_ignored
           reliable_library three_blocks three_blocks_and_more three_lights_running).
  - intros s u. reflexivity.
  - reflexivity.
Defined.

(** The third packet of a bridge with three lights. *)
Lemma third_packet_logs_one_record :
  exists self',
    @_on_dmx_data reliable_library three_blocks three_lights_running = (Return tt, self') /\
    journal self' = [(DEBUG, MsgPacket 3 9)].
Proof.
  apply (later_packets_log_one_debug_record
           reliable_library three_blocks three_lights_running).
  - intros s u. reflexivity.
  - vm_compute. discriminate.
  - vm_compute. discriminate.
Defined.

(** A session that refuses the input of light 1: light 0 is updated,
    light 2 is not, and the error is the last record. *)
Example refused_light_1 :
  @_on_dmx_data refuses_light_1 three_blocks three_lights_running =
    (Return tt,
     {| num_lights := 3; packet_count := 3;
        streaming := {| input_queue := [(1%float, 0%float, 0%float, 0%nat)];
                        streaming_open := true |};
        journal := [(DEBUG, MsgPacket 3 9);
                    (ERROR, MsgErrorProcessing (LibraryError "queue closed"))] |}).
Proof. vm_compute. reflexivity. Qed.

(** The names of two areas, the second without a name. *)
Lemma two_areas_are_named :
  exists names evs',
    get_entertainment_area_names_of (answers two_areas_answer) "192.168.1.2" "stored-token" []
      = (Return names, evs') /\
    names = [(JStr "3f2a6c1e-0001", JStr "Living Room");
             (JStr "9b7d4e2a-0002", JStr "9b7d4e2a-0002")].
Proof.
  destruct (area_names_are_all_or_nothing
              (answers two_areas_answer) "192.168.1.2" "stored-token" [])
    as (names & evs' & E & Hlisted & _).
  exists names, evs'. split; [exact E |].
  rewrite (Hlisted _ _ eq_refl eq_refl). reflexivity.
Defined.

(** Universe 258 is logged as 239.255.1.2. *)
Lemma universe_258_address :
  exists c d,
    multicast_address 258 = (239, 255, c, d) /\ 258 = 256 * c + d.
Proof.
  destruct (multicast_address_octets 258) as (c & d & E & _ & _ & H & _).
  exists c, d. split; [exact E | apply H; lia].
Defined.

(** [__init__] for an id of the example's catalog, whatever its case. *)
Lemma living_room_by_id_starts_the_receiver :
  exists r m',
    bridge_init sound_collaborators "3F2A6C1E-0001" 1 fresh_machine = (r, m') /\
    match r with
    | Return inst =>
        receiver m' = Some {| joined := [1]; listening := [1]; started := true |} /\
        self_universe inst = 1 /\
        self_area_name inst = "3F2A6C1E-0001" /\
        self_bridge inst =
          {| num_lights := List.length (channels (self_config inst));
             packet_count := 0;
             streaming := {| input_queue := []; streaming_open := false |};
             journal := [] |} /\
        exists catalog area_id,
          get_entertainment_configs (services sound_collaborators) = Return catalog /\
          In (area_id, self_config inst) catalog /\
          lower area_id = lower "3F2A6C1E-0001"
    | Raise _ =>
        receiver m' = None \/
        exists rc, receiver m' = Some rc /\ started rc = false
    end.
Proof.
  apply (bridge_init_outcome sound_collaborators "3F2A6C1E-0001" 1 fresh_machine).
  reflexivity.
Defined.

(** [__init__] for the display name: no receiver is created. *)
Lemma living_room_by_name_creates_no_receiver :
  exists m',
    bridge_init sound_collaborators "living room" 1 fresh_machine =
      (Raise (ValueError (not_found_message "living room")), m') /\
    receiver m' = receiver fresh_machine /\
    events m' = events fresh_machine /\
    stdout (machine_world m') = stdout (machine_world fresh_machine).
Proof.
  apply (unknown_area_stops_init_early sound_collaborators living_catalog
           "living room" 1 fresh_machine).
  - reflexivity.
  - reflexivity.
  - intros area_id config [H | [H | []]]; injection H as <- <-; vm_compute; discriminate.
Defined.

(** Ctrl+C after five seconds, with a stream that cannot be stopped:
    the receiver is stopped all the same. *)
Lemma receiver_is_stopped_when_the_stream_is_not :
  exists st',
    @run stop_stream_fails sound_collaborators "3F2A6C1E-0001" 1 5000 ready_to_run =
      (Return tt, st') /\
    receiver (machine st') = Some {| joined := [1]; listening := [1]; started := false |} /\
    streaming_open (streaming (self st')) = true /\
    clock (machine_world (machine st')) = 5000.
Proof.
  destruct (run_stops_the_receiver_after_the_stream
              stop_stream_fails sound_collaborators "3F2A6C1E-0001" 1 5000 ready_to_run
              eq_refl eq_refl) as (st' & E & Hr & Hs & Hc & _).
  exists st'. auto.
Defined.


(** A re-pair on a machine whose configuration file cannot be written. *)
Lemma repair_on_a_read_only_host :
  main_credentials pressed_at_once read_only_host "192.168.1.2" None token_only_cfg true
    fresh_session =
    Some (Exit 0,
          {| session_world :=
               {| clock := 10; posts := 1;
                  stdout := [OutForceRepair; OutPairingBanner;
                             OutSuccess (JStr "NEWTOKEN-0123456789")
                                        (JStr "NEWCLIENTKEY-0123456789")];
                  logged := [] |};
             session_events :=
               [Logged DEBUG (NoteUsername (JStr "NEWTOKEN"));
                Logged DEBUG (NoteClientkey (JStr "NEWCLIEN"));
                ConfigWriteFailed (LibraryError "Permission denied");
                PrintedRepairComplete];
             saved := [] |}).
Proof.
  eapply (repair_reports_success_without_a_save pressed_at_once read_only_host
            "192.168.1.2" None token_only_cfg _ fresh_session
            "NEWTOKEN-0123456789" "NEWCLIENTKEY-0123456789").
  - vm_compute. reflexivity.
  - reflexivity.
Defined.
